(** * Camera access app: camera gateway, biometric gateway and orchestrator

    A shallow embedding of [camera.ts], [webauthn.ts] and [main.ts].

    - JavaScript strings are [string]; a [Uint8Array] is a [list byte].
      A string literal holds the bytes the source file holds between its
      quotes, also where the source's own text is not what was meant (the
      check mark of "Authenticated", the arrows of the help lists and the
      camera of the relying-party name are stored mis-encoded in the
      source files, and are taken as they are).
    - [localStorage] is a finite map from keys to strings.
    - An [async] function is a function from the world to a [Step]: it runs
      synchronously until it either completes or suspends on a platform
      promise, handing back the world and its continuation.
    - The event loop is a step function on the world plus the suspended
      flows, driven by clicks, settled promises and timers.

    Left out, as glue without control flow: the markup around the texts
    written to the page.  [detectBrowser] and [detectWebAuthnBrowser] are
    functions of the user agent; the help list [showError] renders from
    them is taken from the environment.  [localStorage.setItem] is taken
    to succeed. *)

From Stdlib Require Import String Ascii List Lia Bool Arith.
From stdpp Require Import gmap strings list.
Import ListNotations.

Local Open Scope string_scope.
Local Open Scope list_scope.

(* ===================================================================== *)
(** * Part I: definitions                                                 *)
(* ===================================================================== *)

(** ** The platform built-ins [btoa] and [atob]

    [webauthn.ts] stores the credential identifier as [btoa] of a binary
    string and reads it back with [atob].  Both are platform functions; they
    are written here after the HTML standard (forgiving-base64 encode and
    decode).  A binary string holds code units 0..255 only, which is exactly
    what [ascii] holds, so [btoa] never raises on the strings of this model. *)
Module Base64.

Inductive sextet : Type :=
  Sextet (b5 b4 b3 b2 b1 b0 : bool).

Definition alphabet : list ascii :=
  list_ascii_of_string
    "ABCDEFGHIJKLMNOPQRSTUVWXYZabcdefghijklmnopqrstuvwxyz0123456789+/".

Definition sextet_index (s : sextet) : nat :=
  let '(Sextet b5 b4 b3 b2 b1 b0) := s in
  nat_of_ascii (Ascii b0 b1 b2 b3 b4 b5 false false).

Definition sextet_of_index (n : nat) : sextet :=
  let '(Ascii b0 b1 b2 b3 b4 b5 _ _) := ascii_of_nat n in
  Sextet b5 b4 b3 b2 b1 b0.

Definition encode_sextet (s : sextet) : ascii :=
  nth (sextet_index s) alphabet "A"%char.

Fixpoint position (c : ascii) (l : list ascii) : option nat :=
  match l with
  | [] => None
  | x :: l' => if Ascii.eqb c x then Some 0 else S <$> position c l'
  end.

Definition decode_char (c : ascii) : option sextet :=
  sextet_of_index <$> position c alphabet.

(** Bits of the input bytes, most significant first, cut into groups of
    six; the last group is filled with zero bits. *)
Fixpoint to_sextets (bs : list ascii) : list sextet :=
  match bs with
  | [] => []
  | [Ascii a0 a1 a2 a3 a4 a5 a6 a7] =>
      [Sextet a7 a6 a5 a4 a3 a2; Sextet a1 a0 false false false false]
  | [Ascii a0 a1 a2 a3 a4 a5 a6 a7; Ascii b0 b1 b2 b3 b4 b5 b6 b7] =>
      [Sextet a7 a6 a5 a4 a3 a2; Sextet a1 a0 b7 b6 b5 b4;
       Sextet b3 b2 b1 b0 false false]
  | Ascii a0 a1 a2 a3 a4 a5 a6 a7 :: Ascii b0 b1 b2 b3 b4 b5 b6 b7
      :: Ascii c0 c1 c2 c3 c4 c5 c6 c7 :: rest =>
      Sextet a7 a6 a5 a4 a3 a2 :: Sextet a1 a0 b7 b6 b5 b4
        :: Sextet b3 b2 b1 b0 c7 c6 :: Sextet c5 c4 c3 c2 c1 c0
        :: to_sextets rest
  end.

Fixpoint padding (bs : list ascii) : list ascii :=
  match bs with
  | [] => []
  | [_] => ["="%char; "="%char]
  | [_; _] => ["="%char]
  | _ :: _ :: _ :: rest => padding rest
  end.

Definition encode (bs : list ascii) : list ascii :=
  map encode_sextet (to_sextets bs) ++ padding bs.

Definition is_ascii_whitespace (c : ascii) : bool :=
  match nat_of_ascii c with
  | 9 | 10 | 12 | 13 | 32 => true
  | _ => false
  end.

(** Remove one trailing [=] when there is one. *)
Definition strip_eq (d : list ascii) : list ascii :=
  match rev d with
  | c :: r => if Ascii.eqb c "="%char then rev r else d
  | [] => d
  end.

Fixpoint decode_sextets (cs : list ascii) : option (list sextet) :=
  match cs with
  | [] => Some []
  | c :: cs' =>
      match decode_char c, decode_sextets cs' with
      | Some s, Some ss => Some (s :: ss)
      | _, _ => None
      end
  end.

(** 24 bits give three bytes; a rest of 12 bits gives one byte and a rest
    of 18 bits two, the spare bits being dropped. *)
Fixpoint of_sextets (ss : list sextet) : list ascii :=
  match ss with
  | Sextet a7 a6 a5 a4 a3 a2 :: Sextet a1 a0 b7 b6 b5 b4
      :: Sextet b3 b2 b1 b0 c7 c6 :: Sextet c5 c4 c3 c2 c1 c0 :: rest =>
      Ascii a0 a1 a2 a3 a4 a5 a6 a7 :: Ascii b0 b1 b2 b3 b4 b5 b6 b7
        :: Ascii c0 c1 c2 c3 c4 c5 c6 c7 :: of_sextets rest
  | [Sextet a7 a6 a5 a4 a3 a2; Sextet a1 a0 b7 b6 b5 b4;
     Sextet b3 b2 b1 b0 _ _] =>
      [Ascii a0 a1 a2 a3 a4 a5 a6 a7; Ascii b0 b1 b2 b3 b4 b5 b6 b7]
  | [Sextet a7 a6 a5 a4 a3 a2; Sextet a1 a0 _ _ _ _] =>
      [Ascii a0 a1 a2 a3 a4 a5 a6 a7]
  | _ => []
  end.

(** Forgiving-base64 decode: drop ASCII whitespace; when the length is a
    multiple of four drop one or two trailing [=]; fail on a length of
    1 modulo 4 and on any character outside the alphabet. *)
Definition decode (data : list ascii) : option (list ascii) :=
  let d := List.filter (fun c => negb (is_ascii_whitespace c)) data in
  let d := if Nat.eqb (length d mod 4) 0 then strip_eq (strip_eq d) else d in
  if Nat.eqb (length d mod 4) 1 then None
  else of_sextets <$> decode_sextets d.

End Base64.

(** [btoa(s)] and [atob(s)]; [None] is the raised [InvalidCharacterError]. *)
Definition btoa (s : string) : string :=
  string_of_list_ascii (Base64.encode (list_ascii_of_string s)).

Definition atob (s : string) : option string :=
  string_of_list_ascii <$> Base64.decode (list_ascii_of_string s).

(** ** Values of the program *)

Definition Uint8Array : Type := list Byte.byte.

(** [type] of [CameraError] (camera.ts) and of [WebAuthnError]
    (webauthn.ts): two closed unions of string literals. *)
Inductive CameraErrorType : Type :=
  | CamPermissionDenied | CamNotFound | CamInUse | CamNotSupported | CamUnknown.

Inductive WebAuthnErrorType : Type :=
  | WaNotSupported | WaNotAllowed | WaTimeout | WaInvalidState | WaUnknown.

Definition camera_type_string (t : CameraErrorType) : string :=
  match t with
  | CamPermissionDenied => "permission-denied"
  | CamNotFound => "not-found"
  | CamInUse => "in-use"
  | CamNotSupported => "not-supported"
  | CamUnknown => "unknown"
  end.

Definition webauthn_type_string (t : WebAuthnErrorType) : string :=
  match t with
  | WaNotSupported => "not-supported"
  | WaNotAllowed => "not-allowed"
  | WaTimeout => "timeout"
  | WaInvalidState => "invalid-state"
  | WaUnknown => "unknown"
  end.

(** What a [catch] clause can receive: a platform exception (it has [name]
    and [message] and no [type]), or one of the two error objects the
    program builds itself (they have [type] and [message] and no [name]).
    [originalError] holds the caught value. *)
#[warnings="-register-all"]
Inductive JsError : Type :=
  | DomError (name message : string)
  | CameraError (type : CameraErrorType) (message : string)
      (originalError : option JsError)
  | WebAuthnError (type : WebAuthnErrorType) (message : string)
      (originalError : option JsError).

(** [error.name], [error.message] and [error.type]; [None] is [undefined]. *)
Definition error_name (e : JsError) : option string :=
  match e with
  | DomError n _ => Some n
  | _ => None
  end.

Definition error_message (e : JsError) : string :=
  match e with
  | DomError _ m | CameraError _ m _ | WebAuthnError _ m _ => m
  end.

Definition error_type (e : JsError) : option string :=
  match e with
  | DomError _ _ => None
  | CameraError t _ _ => Some (camera_type_string t)
  | WebAuthnError t _ _ => Some (webauthn_type_string t)
  end.

(** [s || d] on strings: the empty string is falsy. *)
Definition or_default (s d : string) : string :=
  if String.eqb s EmptyString then d else s.

(** [switch (error.name) { case c: ... }]: [undefined] matches no case. *)
Definition name_is (e : JsError) (c : string) : bool :=
  match error_name e with
  | Some n => String.eqb n c
  | None => false
  end.

Record MediaStream : Type := {
  stream_id : nat;
  getTracks : list nat
}.

Record PublicKeyCredential : Type := {
  rawId : Uint8Array
}.

Record AuthenticationResult : Type := {
  success : bool;
  credential : option PublicKeyCredential;
  isNewRegistration : option bool
}.

Record PublicKeyCredentialCreationOptions : Type := {
  create_challenge : Uint8Array;
  rp_name : string;
  rp_id : string;
  user_id : Uint8Array;
  user_name : string;
  user_displayName : string;
  pubKeyCredParams : list (string * Z);
  authenticatorAttachment : string;
  create_userVerification : string;
  create_timeout : Z;
  attestation : string
}.

Record PublicKeyCredentialDescriptor : Type := {
  descriptor_type : string;
  descriptor_id : Uint8Array
}.

Record PublicKeyCredentialRequestOptions : Type := {
  get_challenge : Uint8Array;
  allowCredentials : list PublicKeyCredentialDescriptor;
  get_userVerification : string;
  get_timeout : Z
}.

Record MediaStreamConstraints : Type := {
  facingMode : string;
  width_ideal : nat;
  height_ideal : nat
}.

(** The platform promises the program awaits. *)
Inductive Op : Type :=
  | CredentialsCreate (publicKey : PublicKeyCredentialCreationOptions)
  | CredentialsGet (publicKey : PublicKeyCredentialRequestOptions)
  | GetUserMedia (constraints : MediaStreamConstraints).

(** What each promise resolves to; [credentials.create] and
    [credentials.get] may resolve to [null]. *)
Definition Resp (op : Op) : Type :=
  match op with
  | CredentialsCreate _ | CredentialsGet _ => option PublicKeyCredential
  | GetUserMedia _ => MediaStream
  end.

(** A settled promise; a platform promise rejects with a platform exception. *)
Inductive Settled (A : Type) : Type :=
  | Fulfilled (a : A)
  | Rejected (name message : string).
Arguments Fulfilled {A} a.
Arguments Rejected {A} name message.

Definition is_credential_op (op : Op) : bool :=
  match op with
  | CredentialsCreate _ | CredentialsGet _ => true
  | GetUserMedia _ => false
  end.

Definition is_camera_op (op : Op) : bool :=
  match op with
  | GetUserMedia _ => true
  | _ => false
  end.

(** ** The world: browser environment, module variables and the page *)

(** What the program reads from the browser and never writes.  The two help
    panels are what [detectBrowser()] and [detectWebAuthnBrowser()] render
    for this browser's user agent: fixed texts for a given browser. *)
Record Env : Type := {
  has_mediaDevices : bool;          (* navigator.mediaDevices *)
  has_getUserMedia : bool;          (* navigator.mediaDevices.getUserMedia *)
  has_PublicKeyCredential : bool;   (* window.PublicKeyCredential *)
  has_credentials : bool;           (* navigator.credentials *)
  hostname : string;                (* window.location.hostname *)
  entropy : nat -> Byte.byte;       (* the source behind crypto.getRandomValues *)
  cameraHelp : string;
  webauthnHelp : string
}.

(** A DOM element, as far as main.ts touches it. *)
Record Element : Type := {
  classList : gset string;
  content : string;                 (* textContent / innerHTML *)
  disabled : bool
}.

Definition classList_add (c : string) (e : Element) : Element :=
  {| classList := {[ c ]} ∪ classList e; content := content e;
     disabled := disabled e |}.

Definition classList_remove (c : string) (e : Element) : Element :=
  {| classList := classList e ∖ {[ c ]}; content := content e;
     disabled := disabled e |}.

Definition set_content (t : string) (e : Element) : Element :=
  {| classList := classList e; content := t; disabled := disabled e |}.

Definition set_disabled (b : bool) (e : Element) : Element :=
  {| classList := classList e; content := content e; disabled := b |}.

Record Dom : Type := {
  video_srcObject : option MediaStream;
  video : Element;
  toggleButton : Element;
  webauthnButton : Element;
  statusMessage : Element;
  errorMessage : Element;
  helpInstructions : Element
}.

Inductive ConsoleEntry : Type :=
  | ConsoleLog (b : bool)
  | ConsoleWarn (s : string)
  | ConsoleError (s : string).

(** The callbacks main.ts hands to [setTimeout]: both are the same closure,
    which stops the camera and clears the preview. *)
Inductive TimerCallback : Type :=
  | AutoStopPreview.

Record World : Type := {
  env : Env;
  localStorage : gmap string string;
  entropyUsed : nat;
  console : list ConsoleEntry;
  (* camera.ts *)
  currentStream : option MediaStream;
  (* the tracks the platform holds open *)
  liveTracks : gset nat;
  (* main.ts *)
  isCameraActive : bool;
  isAuthenticating : bool;
  isAuthenticated : bool;
  dom : Dom;
  timers : list (Z * TimerCallback)
}.

Definition set_localStorage (v : gmap string string) (w : World) : World :=
  Build_World (env w) v (entropyUsed w) (console w) (currentStream w)
    (liveTracks w) (isCameraActive w) (isAuthenticating w) (isAuthenticated w)
    (dom w) (timers w).

Definition set_entropyUsed (v : nat) (w : World) : World :=
  Build_World (env w) (localStorage w) v (console w) (currentStream w)
    (liveTracks w) (isCameraActive w) (isAuthenticating w) (isAuthenticated w)
    (dom w) (timers w).

Definition set_console (v : list ConsoleEntry) (w : World) : World :=
  Build_World (env w) (localStorage w) (entropyUsed w) v (currentStream w)
    (liveTracks w) (isCameraActive w) (isAuthenticating w) (isAuthenticated w)
    (dom w) (timers w).

Definition set_currentStream (v : option MediaStream) (w : World) : World :=
  Build_World (env w) (localStorage w) (entropyUsed w) (console w) v
    (liveTracks w) (isCameraActive w) (isAuthenticating w) (isAuthenticated w)
    (dom w) (timers w).

Definition set_liveTracks (v : gset nat) (w : World) : World :=
  Build_World (env w) (localStorage w) (entropyUsed w) (console w)
    (currentStream w) v (isCameraActive w) (isAuthenticating w)
    (isAuthenticated w) (dom w) (timers w).

Definition set_isCameraActive (v : bool) (w : World) : World :=
  Build_World (env w) (localStorage w) (entropyUsed w) (console w)
    (currentStream w) (liveTracks w) v (isAuthenticating w)
    (isAuthenticated w) (dom w) (timers w).

Definition set_isAuthenticating (v : bool) (w : World) : World :=
  Build_World (env w) (localStorage w) (entropyUsed w) (console w)
    (currentStream w) (liveTracks w) (isCameraActive w) v
    (isAuthenticated w) (dom w) (timers w).

Definition set_isAuthenticated (v : bool) (w : World) : World :=
  Build_World (env w) (localStorage w) (entropyUsed w) (console w)
    (currentStream w) (liveTracks w) (isCameraActive w) (isAuthenticating w)
    v (dom w) (timers w).

Definition set_dom (v : Dom) (w : World) : World :=
  Build_World (env w) (localStorage w) (entropyUsed w) (console w)
    (currentStream w) (liveTracks w) (isCameraActive w) (isAuthenticating w)
    (isAuthenticated w) v (timers w).

Definition set_timers (v : list (Z * TimerCallback)) (w : World) : World :=
  Build_World (env w) (localStorage w) (entropyUsed w) (console w)
    (currentStream w) (liveTracks w) (isCameraActive w) (isAuthenticating w)
    (isAuthenticated w) (dom w) v.

(** Updates of one element of the page. *)
Definition on_video_srcObject (v : option MediaStream) (w : World) : World :=
  let d := dom w in
  set_dom (Build_Dom v (video d) (toggleButton d) (webauthnButton d)
             (statusMessage d) (errorMessage d) (helpInstructions d)) w.

Definition on_video (f : Element -> Element) (w : World) : World :=
  let d := dom w in
  set_dom (Build_Dom (video_srcObject d) (f (video d)) (toggleButton d)
             (webauthnButton d) (statusMessage d) (errorMessage d)
             (helpInstructions d)) w.

Definition on_toggleButton (f : Element -> Element) (w : World) : World :=
  let d := dom w in
  set_dom (Build_Dom (video_srcObject d) (video d) (f (toggleButton d))
             (webauthnButton d) (statusMessage d) (errorMessage d)
             (helpInstructions d)) w.

Definition on_webauthnButton (f : Element -> Element) (w : World) : World :=
  let d := dom w in
  set_dom (Build_Dom (video_srcObject d) (video d) (toggleButton d)
             (f (webauthnButton d)) (statusMessage d) (errorMessage d)
             (helpInstructions d)) w.

Definition on_statusMessage (f : Element -> Element) (w : World) : World :=
  let d := dom w in
  set_dom (Build_Dom (video_srcObject d) (video d) (toggleButton d)
             (webauthnButton d) (f (statusMessage d)) (errorMessage d)
             (helpInstructions d)) w.

Definition on_errorMessage (f : Element -> Element) (w : World) : World :=
  let d := dom w in
  set_dom (Build_Dom (video_srcObject d) (video d) (toggleButton d)
             (webauthnButton d) (statusMessage d) (f (errorMessage d))
             (helpInstructions d)) w.

Definition on_helpInstructions (f : Element -> Element) (w : World) : World :=
  let d := dom w in
  set_dom (Build_Dom (video_srcObject d) (video d) (toggleButton d)
             (webauthnButton d) (statusMessage d) (errorMessage d)
             (f (helpInstructions d))) w.

Definition console_push (e : ConsoleEntry) (w : World) : World :=
  set_console (console w ++ [e]) w.

(** ** Async functions

    An [async] function runs synchronously until its first [await] of a
    pending platform promise.  There it suspends: the world it leaves behind
    and the rest of the function are handed to the event loop, which resumes
    the rest, once the promise has settled, in the world of that later time.
    Awaiting another [async] function of the program runs that function's
    body in place, so the first suspension of the callee is the first
    suspension of the caller. *)

Inductive Completion (A : Type) : Type :=
  | Return (a : A)
  | Throw (e : JsError).
Arguments Return {A} a.
Arguments Throw {A} e.

Inductive Step (A : Type) : Type :=
  | Done (w : World) (c : Completion A)
  | Suspend (w : World) (op : Op) (k : Settled (Resp op) -> World -> Step A).
Arguments Done {A} w c.
Arguments Suspend {A} w op k.

Definition Async (A : Type) : Type := World -> Step A.

Fixpoint bind_step {A B} (f : A -> Async B) (s : Step A) : Step B :=
  match s with
  | Done w (Return a) => f a w
  | Done w (Throw e) => Done w (Throw e)
  | Suspend w op k => Suspend w op (fun r w' => bind_step f (k r w'))
  end.

(** [try { s } catch (err) { h err }] *)
Fixpoint catch_step {A} (h : JsError -> Async A) (s : Step A) : Step A :=
  match s with
  | Done w (Return a) => Done w (Return a)
  | Done w (Throw e) => h e w
  | Suspend w op k => Suspend w op (fun r w' => catch_step h (k r w'))
  end.

(** [try { s } finally { fin }] for a synchronous block [fin] that
    completes normally. *)
Fixpoint finally_step {A} (fin : World -> World) (s : Step A) : Step A :=
  match s with
  | Done w c => Done (fin w) c
  | Suspend w op k => Suspend w op (fun r w' => finally_step fin (k r w'))
  end.

#[global] Instance Async_ret : MRet Async :=
  fun A a w => Done w (Return a).

#[global] Instance Async_bind : MBind Async :=
  fun A B f m w => bind_step f (m w).

Definition throw {A} (e : JsError) : Async A :=
  fun w => Done w (Throw e).

Definition try_catch {A} (m : Async A) (h : JsError -> Async A) : Async A :=
  fun w => catch_step h (m w).

Definition try_finally {A} (m : Async A) (fin : World -> World) : Async A :=
  fun w => finally_step fin (m w).

(** [await] of a platform promise. *)
Definition await (op : Op) : Async (Resp op) :=
  fun w =>
    Suspend w op (fun r w' =>
      match r with
      | Fulfilled a => Done w' (Return a)
      | Rejected n m => Done w' (Throw (DomError n m))
      end).

Definition modify (f : World -> World) : Async unit :=
  fun w => Done (f w) (Return tt).

Definition gets {A} (f : World -> A) : Async A :=
  fun w => Done w (Return (f w)).

(** ** camera.ts *)

Definition cameraConstraints : MediaStreamConstraints :=
  {| facingMode := "user"; width_ideal := 1280; height_ideal := 720 |}.

(** The [catch] block of [requestCameraAccess]: the [switch] on
    [error.name]. *)
Definition classifyCameraError (error : JsError) : JsError :=
  if name_is error "NotAllowedError" || name_is error "PermissionDeniedError"
  then CameraError CamPermissionDenied
         "Camera access was denied. Please allow camera access to continue."
         (Some error)
  else if name_is error "NotFoundError" || name_is error "DevicesNotFoundError"
  then CameraError CamNotFound
         "No camera device found. Please connect a camera and try again."
         (Some error)
  else if name_is error "NotReadableError" || name_is error "TrackStartError"
  then CameraError CamInUse
         "Camera is currently in use by another application. Please close other apps using the camera and try again."
         (Some error)
  else CameraError CamUnknown
         ("Unable to access camera: "
            ++ or_default (error_message error) "Unknown error")
         (Some error).

Definition requestCameraAccess : Async MediaStream :=
  try_catch
    (e ← gets env;
     if negb (has_mediaDevices e) || negb (has_getUserMedia e)
     then throw (CameraError CamNotSupported
                   "Camera access is not supported in this browser. Please use a modern browser like Chrome, Firefox, Safari, or Edge."
                   None)
     else
       stream ← await (GetUserMedia cameraConstraints);
       modify (set_currentStream (Some stream));;
       mret stream)
    (fun err => throw (classifyCameraError err)).

(** [track.stop()] *)
Definition stop_track (live : gset nat) (track : nat) : gset nat :=
  live ∖ {[ track ]}.

Definition stopCamera (w : World) : World :=
  match currentStream w with
  | Some s =>
      set_currentStream None
        (set_liveTracks (foldl stop_track (liveTracks w) (getTracks s)) w)
  | None => w
  end.

(** ** webauthn.ts *)

Definition CREDENTIAL_STORAGE_KEY : string := "webauthn_credential_id".

Definition checkWebAuthnSupport (w : World) : bool :=
  has_PublicKeyCredential (env w) && has_credentials (env w).

(** [crypto.getRandomValues(new Uint8Array(n))] *)
Definition getRandomValues (n : nat) : Async Uint8Array :=
  fun w =>
    Done (set_entropyUsed (entropyUsed w + n) w)
         (Return (map (entropy (env w)) (seq (entropyUsed w) n))).

Definition generateChallenge : Async Uint8Array := getRandomValues 32.

Definition generateUserId : Async Uint8Array := getRandomValues 16.

(** [None] when [atob] raises. *)
Definition base64ToUint8Array (base64 : string) : option Uint8Array :=
  (fun binaryString => map byte_of_ascii (list_ascii_of_string binaryString))
    <$> atob base64.

Definition uint8ArrayToBase64 (buffer : Uint8Array) : string :=
  btoa (string_of_list_ascii (map ascii_of_byte buffer)).

Definition getStoredCredentialId : Async (option Uint8Array) :=
  stored ← gets (fun w => localStorage w !! CREDENTIAL_STORAGE_KEY);
  match stored with
  | None => mret None
  | Some stored =>
      if String.eqb stored EmptyString then mret None
      else
        match base64ToUint8Array stored with
        | Some bytes => mret (Some bytes)
        | None =>
            modify (console_push
                      (ConsoleError "Failed to parse stored credential:"));;
            mret None
        end
  end.

Definition storeCredentialId (credentialId : Uint8Array) : Async unit :=
  modify (fun w =>
    set_localStorage
      (<[CREDENTIAL_STORAGE_KEY := uint8ArrayToBase64 credentialId]>
         (localStorage w)) w).

Definition clearStoredCredential : Async unit :=
  modify (fun w =>
    set_localStorage (delete CREDENTIAL_STORAGE_KEY (localStorage w)) w).

(** [if ((err as WebAuthnError).type)]: [undefined] and the empty string
    are falsy. *)
Definition has_type (err : JsError) : bool :=
  match error_type err with
  | Some t => negb (String.eqb t EmptyString)
  | None => false
  end.

(** The [switch] on [error.name] in the [catch] block of
    [registerCredential]. *)
Definition classifyRegisterError (error : JsError) : JsError :=
  if name_is error "NotAllowedError"
  then WebAuthnError WaNotAllowed
         "Biometric authentication was cancelled or denied. Please ensure you have Face ID, Touch ID, or Windows Hello set up on your device."
         (Some error)
  else if name_is error "NotSupportedError"
  then WebAuthnError WaNotSupported
         "This device does not support biometric authentication. Please ensure Face ID, Touch ID, or Windows Hello is enabled."
         (Some error)
  else if name_is error "InvalidStateError"
  then WebAuthnError WaInvalidState
         "A credential is already registered for this device."
         (Some error)
  else if name_is error "TimeoutError" || name_is error "AbortError"
  then WebAuthnError WaTimeout
         "Authentication timed out. Please try again and complete the biometric verification within 60 seconds."
         (Some error)
  else WebAuthnError WaUnknown
         ("Unable to register biometric authentication: "
            ++ or_default (error_message error) "Unknown error")
         (Some error).

Definition registerCatch (err : JsError) : Async AuthenticationResult :=
  if has_type err then throw err
  else throw (classifyRegisterError err).

Definition creationOptions (challenge userId : Uint8Array) (host : string)
  : PublicKeyCredentialCreationOptions :=
  {| create_challenge := challenge;
     rp_name := "Camera Access App ðŸ“¸";
     rp_id := if String.eqb host "localhost" then "localhost" else host;
     user_id := userId;
     user_name := "user@example.com";
     user_displayName := "Demo User";
     pubKeyCredParams := [("public-key", (-7)%Z); ("public-key", (-257)%Z)];
     authenticatorAttachment := "platform";
     create_userVerification := "required";
     create_timeout := 60000%Z;
     attestation := "none" |}.

Definition registerCredential : Async AuthenticationResult :=
  try_catch
    (supported ← gets checkWebAuthnSupport;
     if negb supported
     then throw (WebAuthnError WaNotSupported
                   "WebAuthn is not supported in this browser. Please use a modern browser like Chrome, Firefox, Safari, or Edge."
                   None)
     else
       challenge ← generateChallenge;
       userId ← generateUserId;
       host ← gets (fun w => hostname (env w));
       credential ← await (CredentialsCreate
                             (creationOptions challenge userId host));
       match credential with
       | None =>
           throw (WebAuthnError WaUnknown
                    "Failed to create credential. Please try again." None)
       | Some credential =>
           storeCredentialId (rawId credential);;
           mret {| success := true;
                   credential := Some credential;
                   isNewRegistration := Some true |}
       end)
    registerCatch.

(** The [switch] on [error.name] in the [catch] block of
    [authenticateUser]. *)
Definition classifyAuthenticateError (error : JsError) : JsError :=
  if name_is error "NotAllowedError"
  then WebAuthnError WaNotAllowed
         "Biometric authentication was cancelled or denied." (Some error)
  else if name_is error "NotSupportedError"
  then WebAuthnError WaNotSupported
         "This device does not support biometric authentication." (Some error)
  else if name_is error "InvalidStateError"
  then WebAuthnError WaInvalidState
         "Invalid credential state. Please try registering again." (Some error)
  else if name_is error "TimeoutError" || name_is error "AbortError"
  then WebAuthnError WaTimeout
         "Authentication timed out. Please try again." (Some error)
  else WebAuthnError WaUnknown
         ("Unable to authenticate: "
            ++ or_default (error_message error) "Unknown error")
         (Some error).

Definition authenticateCatch (err : JsError) : Async AuthenticationResult :=
  if has_type err then throw err
  else throw (classifyAuthenticateError err).

Definition requestOptions (challenge storedCredentialId : Uint8Array)
  : PublicKeyCredentialRequestOptions :=
  {| get_challenge := challenge;
     allowCredentials :=
       [ {| descriptor_type := "public-key";
            descriptor_id := storedCredentialId |} ];
     get_userVerification := "required";
     get_timeout := 60000%Z |}.

Definition authenticateUser : Async AuthenticationResult :=
  try_catch
    (supported ← gets checkWebAuthnSupport;
     if negb supported
     then throw (WebAuthnError WaNotSupported
                   "WebAuthn is not supported in this browser. Please use a modern browser like Chrome, Firefox, Safari, or Edge."
                   None)
     else
       storedCredentialId ← getStoredCredentialId;
       match storedCredentialId with
       | None =>
           throw (WebAuthnError WaInvalidState
                    "No credential found. Please register first." None)
       | Some storedCredentialId =>
           challenge ← generateChallenge;
           credential ← await (CredentialsGet
                                 (requestOptions challenge storedCredentialId));
           match credential with
           | None =>
               throw (WebAuthnError WaUnknown
                        "Failed to authenticate. Please try again." None)
           | Some credential =>
               mret {| success := true;
                       credential := Some credential;
                       isNewRegistration := Some false |}
           end
       end)
    authenticateCatch.

(** ** main.ts *)

(** The double-quote character. *)
Definition dquote : string := String (ascii_of_nat 34) EmptyString.

Definition hideMessages (w : World) : World :=
  on_helpInstructions (classList_add "hidden")
    (on_errorMessage (classList_add "hidden")
       (on_statusMessage (classList_add "hidden") w)).

Inductive StatusType : Type :=
  | StatusSuccess | StatusInfo.

Definition showStatusMessage (message : string) (type : StatusType)
    (w : World) : World :=
  let w := on_statusMessage (classList_remove "hidden") w in
  let w :=
    match type with
    | StatusInfo => on_statusMessage (classList_add "info") w
    | StatusSuccess => on_statusMessage (classList_remove "info") w
    end in
  on_statusMessage (set_content message) w.

Definition type_is (error : JsError) (t : string) : bool :=
  match error_type error with
  | Some t' => String.eqb t' t
  | None => false
  end.

(** [errorMessage.innerHTML] is reduced to its text, and the help list to
    the one the environment renders for this browser. *)
Definition showError (error : JsError) (w : World) : World :=
  let w := on_errorMessage (classList_remove "hidden") w in
  let w :=
    on_errorMessage
      (set_content ("<strong>Error:</strong> " ++ error_message error)) w in
  if type_is error "permission-denied" then
    on_helpInstructions (set_content (cameraHelp (env w)))
      (on_helpInstructions (classList_remove "hidden") w)
  else if type_is error "not-allowed" || type_is error "not-supported" then
    on_helpInstructions (set_content (webauthnHelp (env w)))
      (on_helpInstructions (classList_remove "hidden") w)
  else w.

Definition startCamera : Async unit :=
  try_catch
    (modify (on_toggleButton (set_disabled true));;
     modify (on_toggleButton (set_content "Requesting access..."));;
     modify hideMessages;;
     stream ← requestCameraAccess;
     modify (on_video_srcObject (Some stream));;
     modify (set_isCameraActive true);;
     modify (on_toggleButton (set_content "Stop Camera"));;
     modify (on_toggleButton (set_disabled false));;
     modify (on_toggleButton (classList_add "active"));;
     modify (on_video (classList_add "active")))
    (fun error =>
       modify (showError error);;
       modify (on_toggleButton (set_content "Enable Camera"));;
       modify (on_toggleButton (set_disabled false));;
       modify (on_toggleButton (classList_remove "active"));;
       modify (on_video (classList_remove "active"));;
       modify (set_isCameraActive false)).

Definition handleStopCamera (w : World) : World :=
  let w := stopCamera w in
  let w := on_video_srcObject None w in
  let w := set_isCameraActive false w in
  let w := on_toggleButton (set_content "Enable Camera") w in
  let w := on_toggleButton (classList_remove "active") w in
  let w := on_video (classList_remove "active") w in
  hideMessages w.

(** The click listener of the camera button. *)
Definition toggleCamera : Async unit :=
  fun w =>
    if isCameraActive w then Done (handleStopCamera w) (Return tt)
    else startCamera w.

Definition setTimeout (callback : TimerCallback) (delay : Z) (w : World)
  : World :=
  set_timers (timers w ++ [(delay, callback)]) w.

Definition run_timer (callback : TimerCallback) (w : World) : World :=
  match callback with
  | AutoStopPreview =>
      on_video (classList_remove "active")
        (on_video_srcObject None (stopCamera w))
  end.

(** The best-effort preview after a biometric success; main.ts has this
    block twice, once per branch, with a different warning. *)
Definition previewCamera (warning : string) : Async unit :=
  try_catch
    (stream ← requestCameraAccess;
     modify (on_video_srcObject (Some stream));;
     modify (on_video (classList_add "active"));;
     modify (setTimeout AutoStopPreview 3000))
    (fun cameraError => modify (console_push (ConsoleWarn warning))).

Definition handlerTry : Async unit :=
  modify (set_isAuthenticating true);;
  modify (on_webauthnButton (set_disabled true));;
  modify hideMessages;;
  supported ← gets checkWebAuthnSupport;
  if negb supported
  then throw (WebAuthnError WaNotSupported
                "Your browser does not support biometric authentication. Please use a modern browser like Chrome, Safari, Firefox, or Edge."
                None)
  else
    stored ← getStoredCredentialId;
    let hasCredential := match stored with Some _ => true | None => false end in
    if hasCredential then
      modify (on_webauthnButton (set_content "Authenticating..."));;
      result ← authenticateUser;
      if success result then
        modify (set_isAuthenticated true);;
        modify (on_webauthnButton (set_content "Authenticated âœ“"));;
        modify (on_webauthnButton (classList_add "authenticated"));;
        modify (showStatusMessage
                  "Authentication successful! You have been verified with biometrics."
                  StatusSuccess);;
        previewCamera "Camera access denied after authentication"
      else mret tt
    else
      modify (on_webauthnButton (set_content "Registering..."));;
      result ← registerCredential;
      if success result then
        modify (on_webauthnButton (set_content "Authenticate with FaceID"));;
        modify (showStatusMessage
                  ("Biometric credential registered successfully! Click " ++ dquote
                     ++ "Authenticate with FaceID" ++ dquote
                     ++ " again to verify.")
                  StatusInfo);;
        previewCamera "Camera access denied after registration"
      else mret tt.

Definition handlerCatch (error : JsError) : Async unit :=
  modify (showError error);;
  modify (on_webauthnButton (set_content "Authenticate with FaceID"));;
  modify (on_webauthnButton (classList_remove "authenticated"));;
  modify (set_isAuthenticated false);;
  modify (fun w =>
    match video_srcObject (dom w) with
    | Some _ =>
        on_video (classList_remove "active")
          (on_video_srcObject None (stopCamera w))
    | None => w
    end).

Definition handlerFinally (w : World) : World :=
  let w := set_isAuthenticating false w in
  let w := on_webauthnButton (set_disabled false) w in
  console_push (ConsoleLog (isAuthenticated w)) w.

Definition handleWebAuthnAuthentication : Async unit :=
  fun w =>
    if isAuthenticating w then Done w (Return tt)
    else try_finally (try_catch handlerTry handlerCatch) handlerFinally w.

(** ** Running a flow

    The platform's part of an execution: how each promise settles, and what
    happens to the world while the flow is suspended. *)

Definition Answers : Type := forall op : Op, Settled (Resp op).

Definition answers (credential : Settled (option PublicKeyCredential))
    (stream : Settled MediaStream) : Answers :=
  fun op =>
    match op as o return Settled (Resp o) with
    | CredentialsCreate _ => credential
    | CredentialsGet _ => credential
    | GetUserMedia _ => stream
    end.

(** The platform's own effect when a promise settles: the tracks of a
    stream it hands out are live. *)
Definition settle (op : Op) : Settled (Resp op) -> World -> World :=
  match op as o return Settled (Resp o) -> World -> World with
  | GetUserMedia _ => fun r w =>
      match r with
      | Fulfilled stream =>
          set_liveTracks (list_to_set (getTracks stream) ∪ liveTracks w) w
      | Rejected _ _ => w
      end
  | _ => fun _ w => w
  end.

(** Did the promise resolve to a usable value? *)
Definition succeeded (op : Op) : Settled (Resp op) -> bool :=
  match op as o return Settled (Resp o) -> bool with
  | GetUserMedia _ => fun r =>
      match r with Fulfilled _ => true | Rejected _ _ => false end
  | _ => fun r =>
      match r with Fulfilled (Some _) => true | _ => false end
  end.

Record Schedule : Type := {
  answer : Answers;
  meanwhile : Op -> World -> World   (* the other flows, during the wait *)
}.

(** Nothing else runs during the waits. *)
Definition alone (a : Answers) : Schedule :=
  {| answer := a; meanwhile := fun _ w => w |}.

Fixpoint run {A} (sch : Schedule) (s : Step A) : World * Completion A :=
  match s with
  | Done w c => (w, c)
  | Suspend w op k =>
      run sch (k (answer sch op)
                 (settle op (answer sch op) (meanwhile sch op w)))
  end.

Definition first_suspension {A} (s : Step A) : option Op :=
  match s with
  | Done _ _ => None
  | Suspend _ op _ => Some op
  end.

(** No execution of [s] ever requests the camera. *)
Fixpoint camera_free {A} (s : Step A) : Prop :=
  match s with
  | Done _ _ => True
  | Suspend _ op k =>
      is_camera_op op = false /\ forall r w, camera_free (k r w)
  end.

(** [s] suspends on nothing but one camera request. *)
Definition camera_then_done {A} (s : Step A) : Prop :=
  match s with
  | Done _ _ => True
  | Suspend _ op k =>
      is_camera_op op = true /\
      forall r w, first_suspension (k r w) = None
  end.

(** The order the gesture requires: if the flow suspends at all, it does so
    first on a credential call; the camera is requested, if ever, in the
    continuation of that call, and only when the call succeeded. *)
Definition gesture_order {A} (s : Step A) : Prop :=
  match s with
  | Done _ _ => True
  | Suspend _ op k =>
      is_credential_op op = true /\
      forall r w,
        if succeeded op r then camera_then_done (k r w)
        else camera_free (k r w)
  end.

(** ** The event loop

    One thread: a click runs its listener up to the first suspension; a
    settled promise resumes the flow that awaits it; a timer runs its
    callback.  Each of these runs to its next suspension before anything
    else happens.  A click is delivered to its listener whatever the state
    of the button, promises settle and timers fire in any order: the
    reachable states include those of every real run. *)

Inductive FlowKind : Type :=
  | BiometricFlow      (* started by the click on the biometric button *)
  | CameraFlow.        (* started by the click on the camera button *)

Record Task : Type := {
  task_flow : FlowKind;
  task_op : Op;
  task_k : Settled (Resp task_op) -> World -> Step unit
}.

Record System : Type := {
  sys_world : World;
  sys_pending : list Task;     (* suspended flows, each on its promise *)
  sys_issued : list Op         (* every platform call made so far *)
}.

Inductive Event : Type :=
  | ClickWebauthn
  | ClickToggle
  | Settle (i : nat) (a : Answers)   (* the i-th pending promise settles *)
  | Fire (i : nat).                  (* the i-th pending timer fires *)

Definition park (flow : FlowKind) (s : Step unit) (pending : list Task)
    (issued : list Op) : System :=
  match s with
  | Done w _ =>
      {| sys_world := w; sys_pending := pending; sys_issued := issued |}
  | Suspend w op k =>
      {| sys_world := w;
         sys_pending := pending ++ [Build_Task flow op k];
         sys_issued := issued ++ [op] |}
  end.

Definition step (e : Event) (sys : System) : option System :=
  let w := sys_world sys in
  match e with
  | ClickWebauthn =>
      Some (park BiometricFlow (handleWebAuthnAuthentication w)
              (sys_pending sys) (sys_issued sys))
  | ClickToggle =>
      Some (park CameraFlow (toggleCamera w)
              (sys_pending sys) (sys_issued sys))
  | Settle i a =>
      match sys_pending sys !! i with
      | Some t =>
          let r := a (task_op t) in
          Some (park (task_flow t) (task_k t r (settle (task_op t) r w))
                  (delete i (sys_pending sys)) (sys_issued sys))
      | None => None
      end
  | Fire i =>
      match timers w !! i with
      | Some (_, callback) =>
          Some {| sys_world :=
                    run_timer callback (set_timers (delete i (timers w)) w);
                  sys_pending := sys_pending sys;
                  sys_issued := sys_issued sys |}
      | None => None
      end
  end.

Fixpoint steps (es : list Event) (sys : System) : option System :=
  match es with
  | [] => Some sys
  | e :: es' =>
      match step e sys with
      | Some sys' => steps es' sys'
      | None => None
      end
  end.

(** The page as the template of main.ts builds it. *)
Definition initialDom : Dom :=
  {| video_srcObject := None;
     video := {| classList := ∅; content := EmptyString; disabled := false |};
     toggleButton :=
       {| classList := {[ "button" ]}; content := "Enable Camera";
          disabled := false |};
     webauthnButton :=
       {| classList := {[ "button"; "button-secondary" ]};
          content := "Authenticate with FaceID"; disabled := false |};
     statusMessage :=
       {| classList := {[ "status-message"; "hidden" ]};
          content := EmptyString; disabled := false |};
     errorMessage :=
       {| classList := {[ "error-message"; "hidden" ]};
          content := EmptyString; disabled := false |};
     helpInstructions :=
       {| classList := {[ "help-instructions"; "hidden" ]};
          content := EmptyString; disabled := false |} |}.

(** The world when the page has loaded, for a given browser and a given
    content of [localStorage]. *)
Definition initialWorld (e : Env) (storage : gmap string string) : World :=
  {| env := e; localStorage := storage; entropyUsed := 0; console := [];
     currentStream := None; liveTracks := ∅;
     isCameraActive := false; isAuthenticating := false;
     isAuthenticated := false; dom := initialDom; timers := [] |}.

Definition initialSystem (e : Env) (storage : gmap string string) : System :=
  {| sys_world := initialWorld e storage; sys_pending := [];
     sys_issued := [] |}.

Inductive reachable : System -> Prop :=
  | reachable_initial e storage : reachable (initialSystem e storage)
  | reachable_step sys ev sys' :
      reachable sys -> step ev sys = Some sys' -> reachable sys'.

Definition in_flow (flow : FlowKind) (t : Task) : bool :=
  match task_flow t, flow with
  | BiometricFlow, BiometricFlow => true
  | CameraFlow, CameraFlow => true
  | _, _ => false
  end.

Definition flows_in_flight (flow : FlowKind) (sys : System) : nat :=
  length (List.filter (in_flow flow) (sys_pending sys)).

Definition credential_calls_in_flight (sys : System) : nat :=
  length (List.filter (fun t => is_credential_op (task_op t))
            (sys_pending sys)).

Definition credential_calls_issued (sys : System) : nat :=
  length (List.filter is_credential_op (sys_issued sys)).

(** ** Vocabulary of the statements *)

(** [navigator.mediaDevices && navigator.mediaDevices.getUserMedia] *)
Definition camera_supported (w : World) : bool :=
  has_mediaDevices (env w) && has_getUserMedia (env w).

(** The bytes [crypto.getRandomValues] hands out from position [from]. *)
Definition random_bytes (w : World) (from n : nat) : Uint8Array :=
  map (entropy (env w)) (seq from n).

Definition camera_kind (e : JsError) : option CameraErrorType :=
  match e with
  | CameraError t _ _ => Some t
  | _ => None
  end.

Definition webauthn_kind (e : JsError) : option WebAuthnErrorType :=
  match e with
  | WebAuthnError t _ _ => Some t
  | _ => None
  end.

(** The documented mapping from platform error names to kinds. *)
Definition camera_table : list (string * CameraErrorType) :=
  [ ("NotAllowedError", CamPermissionDenied);
    ("PermissionDeniedError", CamPermissionDenied);
    ("NotFoundError", CamNotFound);
    ("DevicesNotFoundError", CamNotFound);
    ("NotReadableError", CamInUse);
    ("TrackStartError", CamInUse) ].

Definition biometric_table : list (string * WebAuthnErrorType) :=
  [ ("NotAllowedError", WaNotAllowed);
    ("NotSupportedError", WaNotSupported);
    ("InvalidStateError", WaInvalidState);
    ("TimeoutError", WaTimeout);
    ("AbortError", WaTimeout) ].

(** Every platform promise rejects with the exception [name], [message]. *)
Definition platform_rejects (name message : string) : Answers :=
  answers (Rejected name message) (Rejected name message).

(** What an execution raised, if it raised. *)
Definition raised {A} (r : World * Completion A) : option JsError :=
  match snd r with
  | Throw e => Some e
  | Return _ => None
  end.

(** ** Concrete browsers, used to run the model *)

(** A browser with a camera and a platform authenticator. *)
Definition fullEnv : Env :=
  {| has_mediaDevices := true; has_getUserMedia := true;
     has_PublicKeyCredential := true; has_credentials := true;
     hostname := "localhost"; entropy := fun _ => Byte.x2a;
     cameraHelp := "camera help"; webauthnHelp := "biometric help" |}.

(** A browser without [navigator.mediaDevices]. *)
Definition noCameraEnv : Env :=
  {| has_mediaDevices := false; has_getUserMedia := false;
     has_PublicKeyCredential := true; has_credentials := true;
     hostname := "localhost"; entropy := fun _ => Byte.x2a;
     cameraHelp := "camera help"; webauthnHelp := "biometric help" |}.

Definition someCredential : PublicKeyCredential :=
  {| rawId := [Byte.x01; Byte.x02] |}.

(** A credential whose identifier has no bytes; the code accepts any
    credential the platform returns that is not [null]. *)
Definition emptyCredential : PublicKeyCredential := {| rawId := [] |}.

Definition stream1 : MediaStream := {| stream_id := 1; getTracks := [1] |}.

Definition stream2 : MediaStream := {| stream_id := 2; getTracks := [2] |}.

(** Nothing stored yet, and the identifier of [someCredential] stored. *)
Definition freshWorld : World := initialWorld fullEnv ∅.

Definition registeredWorld : World :=
  initialWorld fullEnv {[ CREDENTIAL_STORAGE_KEY := "AQI=" ]}.

(** Every execution of [s] that returns normally returns a value in [P]. *)
Fixpoint always_returns {A} (P : A -> Prop) (s : Step A) : Prop :=
  match s with
  | Done _ (Return a) => P a
  | Done _ (Throw _) => True
  | Suspend _ _ k => forall r w, always_returns P (k r w)
  end.

(** What the two biometric operations return. *)
Definition registered (r : AuthenticationResult) : Prop :=
  success r = true /\ isNewRegistration r = Some true.

Definition authenticated (r : AuthenticationResult) : Prop :=
  success r = true /\ isNewRegistration r = Some false.

(** The identifier [getStoredCredentialId] finds in the store, if any. *)
Definition stored_credential (w : World) : option Uint8Array :=
  match localStorage w !! CREDENTIAL_STORAGE_KEY with
  | Some stored =>
      if String.eqb stored EmptyString then None
      else base64ToUint8Array stored
  | None => None
  end.

(** ** The busy flag along a flow

    [flow_ok flow b s]: the flow [s], resumed in a world where
    [isAuthenticating] was [b], leaves the flag alone while it runs; a
    biometric flow clears it when it ends, a camera flow never writes it.
    A camera flow awaits no credential call. *)
Fixpoint flow_ok (flow : FlowKind) (b : bool) (s : Step unit) : Prop :=
  match s with
  | Done w _ =>
      isAuthenticating w
      = match flow with BiometricFlow => false | CameraFlow => b end
  | Suspend w op k =>
      isAuthenticating w = b /\
      (flow = CameraFlow -> is_credential_op op = false) /\
      forall r w', flow_ok flow (isAuthenticating w') (k r w')
  end.

(** What the event loop maintains. *)
Definition task_ok (t : Task) : Prop :=
  (task_flow t = CameraFlow -> is_credential_op (task_op t) = false) /\
  forall r w, flow_ok (task_flow t) (isAuthenticating w) (task_k t r w).

Definition busy_invariant (sys : System) : Prop :=
  Forall task_ok (sys_pending sys) /\
  flows_in_flight BiometricFlow sys
  = if isAuthenticating (sys_world sys) then 1 else 0.

(** The invariant as the data model of the specification words it: busy
    exactly while one credential call is in flight. *)
Definition busy_exactly_during_call (sys : System) : Prop :=
  isAuthenticating (sys_world sys) = true <->
  credential_calls_in_flight sys = 1.

(** The event loop of a browser in which [someCredential] is registered. *)
Definition registeredSystem : System :=
  initialSystem fullEnv {[ CREDENTIAL_STORAGE_KEY := "AQI=" ]}.

(** A click on the biometric button, and the platform then returning
    [someCredential]: the flow is past its credential call and waits for
    the camera. *)
Definition authenticateThenAwaitCamera : list Event :=
  [ ClickWebauthn;
    Settle 0 (answers (Fulfilled (Some someCredential)) (Fulfilled stream1)) ].

(** ** The stored identifier

    The claim on the stored identifier as the specification words it, for
    a registration in [w] that the platform answers with [c]: whenever the
    registration succeeds, the stored identifier is non-empty and decodes
    to the identifier of [c], and an authenticate call that follows allows
    exactly that identifier. *)
Definition stored_id_is_the_platform_id (w : World) (c : PublicKeyCredential)
  : Prop :=
  forall stream w' r,
    run (alone (answers (Fulfilled (Some c)) stream)) (registerCredential w)
    = (w', Return r) ->
    (exists stored,
        localStorage w' !! CREDENTIAL_STORAGE_KEY = Some stored /\
        stored <> EmptyString /\
        base64ToUint8Array stored = Some (rawId c)) /\
    exists options,
      first_suspension (authenticateUser w') = Some (CredentialsGet options) /\
      allowCredentials options
      = [ {| descriptor_type := "public-key"; descriptor_id := rawId c |} ].

(** ** Live streams

    A stream is live while one of its tracks is. *)
Definition is_live (w : World) (s : MediaStream) : bool :=
  existsb (fun t => bool_decide (t ∈ liveTracks w)) (getTracks s).

(** The claim on live streams, for a given list of acquired streams. *)
Definition at_most_one_live (streams : list MediaStream) (w : World) : Prop :=
  length (List.filter (is_live w) streams) <= 1.

(** Every live track belongs to the tracked stream. *)
Definition tracked_only (w : World) : Prop :=
  forall t, t ∈ liveTracks w ->
    exists s, currentStream w = Some s /\ t ∈ getTracks s.

(** A client of camera.ts.  It calls [requestCameraAccess] and [stopCamera]
    when it likes: a request stays pending until the platform settles it,
    and anything - a stop, another request - may be called in between. *)
Record GatewayTask : Type := {
  gt_op : Op;
  gt_k : Settled (Resp gt_op) -> World -> Step MediaStream
}.

Record Gateway : Type := {
  gw_world : World;
  gw_pending : list GatewayTask       (* the requests not settled yet *)
}.

Inductive GatewayEvent : Type :=
  | CallRequest                            (* requestCameraAccess() *)
  | RequestSettles (i : nat) (a : Answers) (* the i-th pending one settles *)
  | CallStop.                              (* stopCamera() *)

Definition gateway_park (s : Step MediaStream) (pending : list GatewayTask)
  : Gateway :=
  match s with
  | Done w _ => {| gw_world := w; gw_pending := pending |}
  | Suspend w op k =>
      {| gw_world := w; gw_pending := pending ++ [Build_GatewayTask op k] |}
  end.

Definition gateway_step (e : GatewayEvent) (g : Gateway) : option Gateway :=
  let w := gw_world g in
  match e with
  | CallRequest => Some (gateway_park (requestCameraAccess w) (gw_pending g))
  | RequestSettles i a =>
      match gw_pending g !! i with
      | Some t =>
          let r := a (gt_op t) in
          Some (gateway_park (gt_k t r (settle (gt_op t) r w))
                  (delete i (gw_pending g)))
      | None => None
      end
  | CallStop => Some {| gw_world := stopCamera w; gw_pending := gw_pending g |}
  end.

Fixpoint gateway_steps (es : list GatewayEvent) (g : Gateway)
  : option Gateway :=
  match es with
  | [] => Some g
  | e :: es' =>
      match gateway_step e g with
      | Some g' => gateway_steps es' g'
      | None => None
      end
  end.

(** The gateway with no request pending. *)
Definition idleGateway (w : World) : Gateway :=
  {| gw_world := w; gw_pending := [] |}.

(** The client requests the camera only while no stream is tracked and no
    earlier request is pending. *)
Fixpoint requests_one_at_a_time (es : list GatewayEvent) (g : Gateway)
  : Prop :=
  match es with
  | [] => True
  | e :: es' =>
      match e with
      | CallRequest => currentStream (gw_world g) = None /\ gw_pending g = []
      | _ => True
      end /\
      match gateway_step e g with
      | Some g' => requests_one_at_a_time es' g'
      | None => True
      end
  end.

(** A pending request that, settled while nothing is tracked, ends at once
    and leaves every live track with the tracked stream. *)
Definition request_task_ok (t : GatewayTask) : Prop :=
  forall r w,
    currentStream w = None -> tracked_only w ->
    exists w' c,
      gt_k t r (settle (gt_op t) r w) = Done w' c /\ tracked_only w'.

(** What the gateway maintains under that discipline. *)
Definition gateway_invariant (g : Gateway) : Prop :=
  tracked_only (gw_world g) /\
  (gw_pending g = [] \/
   currentStream (gw_world g) = None /\
   exists t, gw_pending g = [t] /\ request_task_ok t).

(** The platform grants [stream1], or [stream2]. *)
Definition grants (s : MediaStream) : Answers :=
  answers (Fulfilled None) (Fulfilled s).

(** Request, stop, request, stop, each request settled before the next
    call. *)
Definition requestStopTwice : list GatewayEvent :=
  [ CallRequest; RequestSettles 0 (grants stream1); CallStop;
    CallRequest; RequestSettles 0 (grants stream2); CallStop ].

(** A second request after the first was granted, with no stop between. *)
Definition requestWhileTracked : list GatewayEvent :=
  [ CallRequest; RequestSettles 0 (grants stream1);
    CallRequest; RequestSettles 0 (grants stream2) ].

(** Two requests in flight together, both made while nothing is tracked. *)
Definition requestWhilePending : list GatewayEvent :=
  [ CallRequest; CallRequest;
    RequestSettles 0 (grants stream1); RequestSettles 0 (grants stream2) ].

(** Camera on through its own button, then a successful registration with
    its preview: the events up to the second stream, and the preview's
    timer after them. *)
Definition previewOverActiveCamera : list Event :=
  [ ClickToggle;
    Settle 0 (answers (Fulfilled None) (Fulfilled stream1));
    ClickWebauthn;
    Settle 0 (answers (Fulfilled (Some someCredential)) (Fulfilled stream2));
    Settle 0 (answers (Fulfilled None) (Fulfilled stream2)) ].


(** ** Browser detection (camera.ts and webauthn.ts)

    [detectBrowser] and [detectWebAuthnBrowser] read
    [navigator.userAgent]; here the user agent is their argument.  A user
    agent is a string of code units below 256, on which [toLowerCase] maps
    A-Z and the capital letters of Latin-1 to their small forms. *)

Inductive BrowserName : Type :=
  | Chrome | Firefox | Safari | Edge | UnknownBrowser.

Record BrowserInfo : Type := {
  browser_name : BrowserName;
  instructions : list string
}.

Definition toLowerCase_char (c : ascii) : ascii :=
  let n := nat_of_ascii c in
  if Nat.leb 65 n && Nat.leb n 90
     || Nat.leb 192 n && Nat.leb n 214
     || Nat.leb 216 n && Nat.leb n 222
  then ascii_of_nat (n + 32)
  else c.

Fixpoint toLowerCase (s : string) : string :=
  match s with
  | EmptyString => EmptyString
  | String c s' => String (toLowerCase_char c) (toLowerCase s')
  end.

(** [s.includes(sub)] *)
Fixpoint includes (s sub : string) : bool :=
  String.prefix sub s ||
  match s with
  | EmptyString => false
  | String _ s' => includes s' sub
  end.

Definition detectBrowser (navigator_userAgent : string) : BrowserInfo :=
  let userAgent := toLowerCase navigator_userAgent in
  if includes userAgent "edg/" then
    {| browser_name := Edge;
       instructions :=
         [ "Click the lock icon in the address bar";
           "Click " +:+ dquote +:+ "Permissions for this site" +:+ dquote;
           "Find " +:+ dquote +:+ "Camera" +:+ dquote +:+ " and select "
             +:+ dquote +:+ "Allow" +:+ dquote;
           "Refresh the page and try again" ] |}
  else if includes userAgent "chrome" && negb (includes userAgent "edg") then
    {| browser_name := Chrome;
       instructions :=
         [ "Click the camera icon in the address bar";
           "Select " +:+ dquote +:+ "Always allow camera access" +:+ dquote;
           "Click " +:+ dquote +:+ "Done" +:+ dquote;
           "Refresh the page and try again" ] |}
  else if includes userAgent "firefox" then
    {| browser_name := Firefox;
       instructions :=
         [ "Click the camera icon in the address bar";
           "Remove the blocked permission";
           "Click " +:+ dquote +:+ "Enable Camera" +:+ dquote
             +:+ " again to allow access" ] |}
  else if includes userAgent "safari" then
    {| browser_name := Safari;
       instructions :=
         [ "Go to Safari menu â†’ Settings for This Website";
           "Find " +:+ dquote +:+ "Camera" +:+ dquote +:+ " and select "
             +:+ dquote +:+ "Allow" +:+ dquote;
           "Refresh the page and try again" ] |}
  else
    {| browser_name := UnknownBrowser;
       instructions :=
         [ "Look for a camera icon in your address bar";
           "Click it and allow camera access";
           "Refresh the page and try again" ] |}.

Definition detectWebAuthnBrowser (navigator_userAgent : string)
  : BrowserInfo :=
  let userAgent := toLowerCase navigator_userAgent in
  if includes userAgent "edg/" then
    {| browser_name := Edge;
       instructions :=
         [ "Go to Settings â†’ Accounts â†’ Sign-in options";
           "Set up Windows Hello (Face, Fingerprint, or PIN)";
           "Ensure " +:+ dquote
             +:+ "Use Windows Hello for passkey verification" +:+ dquote
             +:+ " is enabled";
           "Refresh the page and try again" ] |}
  else if includes userAgent "chrome" && negb (includes userAgent "edg") then
    {| browser_name := Chrome;
       instructions :=
         [ "Ensure you have a screen lock set up (PIN, pattern, or password)";
           "On Windows: Set up Windows Hello in Settings";
           "On Mac: Ensure Touch ID is enabled in System Settings";
           "On mobile: Ensure biometric authentication is enabled";
           "Refresh the page and try again" ] |}
  else if includes userAgent "firefox" then
    {| browser_name := Firefox;
       instructions :=
         [ "Ensure you have biometric authentication configured on your device";
           "On Windows: Set up Windows Hello";
           "On Mac: Ensure Touch ID is enabled";
           "Allow Firefox to access your security key or biometric authenticator";
           "Refresh the page and try again" ] |}
  else if includes userAgent "safari" then
    {| browser_name := Safari;
       instructions :=
         [ "On Mac: Go to System Settings â†’ Touch ID & Password";
           "Ensure Touch ID is enabled and configured";
           "On iPhone/iPad: Ensure Face ID or Touch ID is enabled in Settings";
           "Make sure Safari can use biometric authentication";
           "Refresh the page and try again" ] |}
  else
    {| browser_name := UnknownBrowser;
       instructions :=
         [ "Ensure your device has biometric authentication enabled (Face ID, Touch ID, Windows Hello)";
           "Check that your browser is up to date";
           "Make sure your browser can access biometric authentication";
           "Try using Chrome, Safari, Firefox, or Edge for best compatibility" ] |}.

(** User agents as browsers send them. *)
Definition edgeDesktopUserAgent : string :=
  "Mozilla/5.0 (Windows NT 10.0; Win64; x64) AppleWebKit/537.36 (KHTML, like Gecko) Chrome/120.0.0.0 Safari/537.36 Edg/120.0.0.0".

Definition chromeUserAgent : string :=
  "Mozilla/5.0 (X11; Linux x86_64) AppleWebKit/537.36 (KHTML, like Gecko) Chrome/120.0.0.0 Safari/537.36".

Definition edgeAndroidUserAgent : string :=
  "Mozilla/5.0 (Linux; Android 10; K) AppleWebKit/537.36 (KHTML, like Gecko) Chrome/120.0.0.0 Mobile Safari/537.36 EdgA/120.0.0.0".

(** No execution of [s] ends by raising. *)
Fixpoint never_throws {A} (s : Step A) : Prop :=
  match s with
  | Done _ (Return _) => True
  | Done _ (Throw _) => False
  | Suspend _ _ k => forall r w, never_throws (k r w)
  end.

(** ** What the page shows and what the program holds

    Four pairs the code keeps in step: the video element and the tracked
    stream, the biometric button's [disabled] and the busy flag, its
    [authenticated] mark and [isAuthenticated], the camera button's
    [active] mark and [isCameraActive]; and what the camera button reads
    while [isCameraActive] is set. *)
Definition page_consistent (w : World) : Prop :=
  video_srcObject (dom w) = currentStream w /\
  disabled (webauthnButton (dom w)) = isAuthenticating w /\
  (isAuthenticated w = true <->
   "authenticated" ∈ classList (webauthnButton (dom w))) /\
  (isCameraActive w = true <->
   "active" ∈ classList (toggleButton (dom w))) /\
  (isCameraActive w = true ->
   content (toggleButton (dom w)) = "Stop Camera" /\
   disabled (toggleButton (dom w)) = false).

(** [keeps I s]: the flow [s] leaves a world in [I] at each of its
    suspensions and at its end, when every world it is resumed in (after
    the platform's own effect of the settled promise) is in [I]. *)
Fixpoint keeps (I : World -> Prop) (s : Step unit) : Prop :=
  match s with
  | Done w _ => I w
  | Suspend w op k =>
      I w /\ forall r w', I w' -> keeps I (k r (settle op r w'))
  end.

Definition task_keeps (I : World -> Prop) (t : Task) : Prop :=
  forall r w, I w -> keeps I (task_k t r (settle (task_op t) r w)).

(** What the event loop maintains for [I]: the world is in [I] and every
    suspended flow keeps [I] when it is resumed. *)
Definition system_keeps (I : World -> Prop) (sys : System) : Prop :=
  I (sys_world sys) /\ Forall (task_keeps I) (sys_pending sys).

(** ** main.ts before the biometric button

    src/src/main.ts holds the earlier page too: the camera button alone,
    with no status message, and a [showError] that knows
    [permission-denied] only.  It runs on the same world; the elements it
    does not have are left alone. *)
Module MainV1.

Definition hideMessages (w : World) : World :=
  on_helpInstructions (classList_add "hidden")
    (on_errorMessage (classList_add "hidden") w).

Definition showError (error : JsError) (w : World) : World :=
  let w := on_errorMessage (classList_remove "hidden") w in
  let w :=
    on_errorMessage
      (set_content ("<strong>Error:</strong> " ++ error_message error)) w in
  if type_is error "permission-denied" then
    on_helpInstructions (set_content (cameraHelp (env w)))
      (on_helpInstructions (classList_remove "hidden") w)
  else w.

Definition startCamera : Async unit :=
  try_catch
    (modify (on_toggleButton (set_disabled true));;
     modify (on_toggleButton (set_content "Requesting access..."));;
     modify hideMessages;;
     stream ← requestCameraAccess;
     modify (on_video_srcObject (Some stream));;
     modify (set_isCameraActive true);;
     modify (on_toggleButton (set_content "Stop Camera"));;
     modify (on_toggleButton (set_disabled false));;
     modify (on_toggleButton (classList_add "active"));;
     modify (on_video (classList_add "active")))
    (fun error =>
       modify (showError error);;
       modify (on_toggleButton (set_content "Enable Camera"));;
       modify (on_toggleButton (set_disabled false));;
       modify (on_toggleButton (classList_remove "active"));;
       modify (on_video (classList_remove "active"));;
       modify (set_isCameraActive false)).

Definition handleStopCamera (w : World) : World :=
  let w := stopCamera w in
  let w := on_video_srcObject None w in
  let w := set_isCameraActive false w in
  let w := on_toggleButton (set_content "Enable Camera") w in
  let w := on_toggleButton (classList_remove "active") w in
  let w := on_video (classList_remove "active") w in
  hideMessages w.

Definition toggleCamera : Async unit :=
  fun w =>
    if isCameraActive w then Done (handleStopCamera w) (Return tt)
    else startCamera w.

End MainV1.

(** ** The store along a run

    [storage_kept storage w]: the world's [localStorage] is [storage] at
    every key but the program's own, and there it holds what [storage]
    held or the base64 text of an identifier. *)
Definition storage_kept (storage : gmap string string) (w : World) : Prop :=
  (forall key,
      key <> CREDENTIAL_STORAGE_KEY ->
      localStorage w !! key = storage !! key) /\
  (localStorage w !! CREDENTIAL_STORAGE_KEY
   = storage !! CREDENTIAL_STORAGE_KEY \/
   exists id,
     localStorage w !! CREDENTIAL_STORAGE_KEY
     = Some (uint8ArrayToBase64 id)).

(* ===================================================================== *)
(** * Part II: lemmas and theorems                                        *)
(* ===================================================================== *)

#[local] Arguments mbind {_ _ _ _} _ _ / : assert.
#[local] Arguments mret {_ _ _} _ / : assert.
#[local] Arguments Async_bind {A B} f m w /.
#[local] Arguments Async_ret {A} a w /.
#[local] Arguments modify f w /.
#[local] Arguments gets {A} f w /.
#[local] Arguments throw {A} e w /.
#[local] Arguments await op w /.
#[local] Arguments try_catch {A} m h w /.
#[local] Arguments try_finally {A} m fin w /.
#[local] Arguments getStoredCredentialId : simpl never.
#[local] Arguments requestCameraAccess : simpl never.
#[local] Arguments registerCredential : simpl never.
#[local] Arguments authenticateUser : simpl never.

(** ** Base64 round trip *)
Section Base64Facts.
Import Base64.

Lemma list_ind3 {A} (P : list A -> Prop) :
  P [] -> (forall a, P [a]) -> (forall a b, P [a; b]) ->
  (forall a b c l, P l -> P (a :: b :: c :: l)) ->
  forall l, P l.
Proof.
  intros H0 H1 H2 H3.
  fix IH 1.
  intros [|a [|b [|c l]]].
  - exact H0.
  - exact (H1 a).
  - exact (H2 a b).
  - exact (H3 a b c l (IH l)).
Qed.

Lemma decode_encode_sextet s : decode_char (encode_sextet s) = Some s.
Proof. destruct s as [[] [] [] [] [] []]; vm_compute; reflexivity. Qed.

Lemma encode_sextet_not_ws s : is_ascii_whitespace (encode_sextet s) = false.
Proof. destruct s as [[] [] [] [] [] []]; vm_compute; reflexivity. Qed.

Lemma encode_sextet_not_eq s : Ascii.eqb (encode_sextet s) "="%char = false.
Proof. destruct s as [[] [] [] [] [] []]; vm_compute; reflexivity. Qed.

Lemma decode_sextets_encode ss :
  decode_sextets (map encode_sextet ss) = Some ss.
Proof.
  induction ss as [|s ss IH]; simpl; [reflexivity|].
  rewrite decode_encode_sextet, IH. reflexivity.
Qed.

Lemma of_to_sextets bs : of_sextets (to_sextets bs) = bs.
Proof.
  induction bs as [| [] | [] [] | [] [] [] l IH] using list_ind3;
    simpl; try reflexivity.
  rewrite IH. reflexivity.
Qed.

Lemma padding_cases bs :
  padding bs = [] \/ padding bs = ["="%char] \/
  padding bs = ["="%char; "="%char].
Proof.
  induction bs as [| a | a b | a b c l IH] using list_ind3; simpl; auto.
Qed.

Lemma mod4_step n : (S (S (S (S n)))) mod 4 = n mod 4.
Proof.
  replace (S (S (S (S n)))) with (n + 1 * 4) by lia.
  apply Nat.Div0.mod_add.
Qed.

Lemma encode_length bs :
  (length (to_sextets bs) + length (padding bs)) mod 4 = 0.
Proof.
  induction bs as [| [] | [] [] | [] [] [] l IH] using list_ind3;
    try reflexivity.
  cbn [to_sextets padding length Nat.add].
  rewrite mod4_step. exact IH.
Qed.

Lemma to_sextets_length bs : length (to_sextets bs) mod 4 <> 1.
Proof.
  induction bs as [| [] | [] [] | [] [] [] l IH] using list_ind3;
    try (intro; discriminate).
  cbn [to_sextets length]. rewrite mod4_step. exact IH.
Qed.

Lemma filter_encode_sextets ss :
  List.filter (fun c => negb (is_ascii_whitespace c)) (map encode_sextet ss)
  = map encode_sextet ss.
Proof.
  induction ss as [|s ss IH]; simpl; [reflexivity|].
  rewrite encode_sextet_not_ws. simpl. rewrite IH. reflexivity.
Qed.

Lemma strip_eq_body ss :
  strip_eq (map encode_sextet ss) = map encode_sextet ss.
Proof.
  unfold strip_eq.
  destruct (rev (map encode_sextet ss)) as [|c r] eqn:E; [reflexivity|].
  assert (Hin : In c (map encode_sextet ss)).
  { apply in_rev. rewrite E. left. reflexivity. }
  apply in_map_iff in Hin. destruct Hin as [s [<- _]].
  rewrite encode_sextet_not_eq. reflexivity.
Qed.

Lemma strip_eq_snoc d : strip_eq (d ++ ["="%char]) = d.
Proof.
  unfold strip_eq. rewrite rev_app_distr. simpl.
  apply rev_involutive.
Qed.

Lemma strip_padding bs :
  strip_eq (strip_eq (encode bs)) = map encode_sextet (to_sextets bs).
Proof.
  unfold encode.
  destruct (padding_cases bs) as [-> | [-> | ->]].
  - rewrite app_nil_r. rewrite !strip_eq_body. reflexivity.
  - rewrite strip_eq_snoc. apply strip_eq_body.
  - change ["="%char; "="%char] with (["="%char] ++ ["="%char]).
    rewrite app_assoc. rewrite !strip_eq_snoc. reflexivity.
Qed.

Lemma filter_encode bs :
  List.filter (fun c => negb (is_ascii_whitespace c)) (encode bs) = encode bs.
Proof.
  unfold encode. rewrite List.filter_app, filter_encode_sextets.
  destruct (padding_cases bs) as [-> | [-> | ->]]; reflexivity.
Qed.

Lemma decode_encode bs : decode (encode bs) = Some bs.
Proof.
  unfold decode. rewrite filter_encode.
  assert (Hlen : length (encode bs) mod 4 = 0).
  { unfold encode. rewrite length_app, length_map. apply encode_length. }
  cbv zeta. rewrite Hlen, Nat.eqb_refl.
  rewrite strip_padding, length_map.
  destruct (Nat.eqb_spec (length (to_sextets bs) mod 4) 1) as [E|_].
  - exfalso. exact (to_sextets_length bs E).
  - rewrite decode_sextets_encode. simpl. rewrite of_to_sextets. reflexivity.
Qed.

End Base64Facts.

Lemma atob_btoa s : atob (btoa s) = Some s.
Proof.
  unfold atob, btoa.
  rewrite list_ascii_of_string_of_list_ascii, decode_encode. simpl.
  rewrite string_of_list_ascii_of_string. reflexivity.
Qed.

Lemma base64_bytes_roundtrip (bytes : Uint8Array) :
  base64ToUint8Array (uint8ArrayToBase64 bytes) = Some bytes.
Proof.
  unfold base64ToUint8Array, uint8ArrayToBase64.
  rewrite atob_btoa. cbn.
  rewrite list_ascii_of_string_of_list_ascii, map_map.
  f_equal. rewrite <- (map_id bytes) at 2.
  apply map_ext. intros b. apply byte_of_ascii_of_byte.
Qed.

Lemma base64_nonempty (bytes : Uint8Array) :
  bytes <> [] -> String.eqb (uint8ArrayToBase64 bytes) EmptyString = false.
Proof.
  intros Hne. unfold uint8ArrayToBase64, btoa.
  rewrite list_ascii_of_string_of_list_ascii.
  destruct bytes as [|b0 [|b1 [|b2 rest]]]; [congruence| | |];
    cbn [map Base64.encode Base64.to_sextets];
    destruct (ascii_of_byte b0); try destruct (ascii_of_byte b1);
    try destruct (ascii_of_byte b2); reflexivity.
Qed.

(** ** The gateways, one suspension at a time *)

Lemma requestCameraAccess_unsupported w :
  camera_supported w = false ->
  requestCameraAccess w =
  Done w (Throw (classifyCameraError
                   (CameraError CamNotSupported
                      "Camera access is not supported in this browser. Please use a modern browser like Chrome, Firefox, Safari, or Edge."
                      None))).
Proof.
  unfold camera_supported, requestCameraAccess. cbn.
  destruct (has_mediaDevices (env w)), (has_getUserMedia (env w));
    cbn; intros; try discriminate; reflexivity.
Qed.

Lemma requestCameraAccess_supported w :
  camera_supported w = true ->
  exists k,
    requestCameraAccess w = Suspend w (GetUserMedia cameraConstraints) k /\
    (forall s w', k (Fulfilled s) w'
                  = Done (set_currentStream (Some s) w') (Return s)) /\
    (forall n m w', k (Rejected n m) w'
                    = Done w' (Throw (classifyCameraError (DomError n m)))).
Proof.
  unfold camera_supported, requestCameraAccess. cbn.
  destruct (has_mediaDevices (env w)), (has_getUserMedia (env w));
    cbn; intros; try discriminate.
  eexists. split; [reflexivity|]. split; intros; reflexivity.
Qed.

Lemma registerCredential_unsupported w :
  checkWebAuthnSupport w = false ->
  registerCredential w =
  Done w (Throw (WebAuthnError WaNotSupported
                   "WebAuthn is not supported in this browser. Please use a modern browser like Chrome, Firefox, Safari, or Edge."
                   None)).
Proof.
  intros H. unfold registerCredential. cbn. rewrite H. cbn. reflexivity.
Qed.

Lemma registerCredential_supported w :
  checkWebAuthnSupport w = true ->
  exists k,
    registerCredential w
    = Suspend (set_entropyUsed (entropyUsed w + 32 + 16)
                 (set_entropyUsed (entropyUsed w + 32) w))
        (CredentialsCreate
           (creationOptions (random_bytes w (entropyUsed w) 32)
              (random_bytes w (entropyUsed w + 32) 16) (hostname (env w))))
        k /\
    (forall c w',
        k (Fulfilled (Some c)) w'
        = Done (set_localStorage
                  (<[CREDENTIAL_STORAGE_KEY := uint8ArrayToBase64 (rawId c)]>
                     (localStorage w')) w')
            (Return {| success := true; credential := Some c;
                       isNewRegistration := Some true |})) /\
    (forall w',
        k (Fulfilled None) w'
        = Done w' (Throw (WebAuthnError WaUnknown
                            "Failed to create credential. Please try again."
                            None))) /\
    (forall n m w',
        k (Rejected n m) w'
        = Done w' (Throw (classifyRegisterError (DomError n m)))).
Proof.
  intros H. unfold registerCredential. cbn. rewrite H. cbn.
  eexists. split; [reflexivity|]. repeat split; intros; reflexivity.
Qed.

Lemma getStoredCredentialId_done w :
  exists w' o,
    getStoredCredentialId w = Done w' (Return o) /\
    env w' = env w /\ localStorage w' = localStorage w /\
    isAuthenticating w' = isAuthenticating w /\
    (o <> None -> w' = w).
Proof.
  unfold getStoredCredentialId. cbn.
  destruct (localStorage w !! CREDENTIAL_STORAGE_KEY) as [stored|]; cbn;
    [|eexists _, _; repeat split; congruence].
  destruct (String.eqb stored EmptyString); cbn;
    [eexists _, _; repeat split; congruence|].
  destruct (base64ToUint8Array stored); cbn;
    eexists _, _; repeat split; congruence.
Qed.

Lemma authenticateUser_unsupported w :
  checkWebAuthnSupport w = false ->
  authenticateUser w =
  Done w (Throw (WebAuthnError WaNotSupported
                   "WebAuthn is not supported in this browser. Please use a modern browser like Chrome, Firefox, Safari, or Edge."
                   None)).
Proof.
  intros H. unfold authenticateUser. cbn. rewrite H. cbn. reflexivity.
Qed.

Lemma authenticateUser_unregistered w w' :
  checkWebAuthnSupport w = true ->
  getStoredCredentialId w = Done w' (Return None) ->
  authenticateUser w =
  Done w' (Throw (WebAuthnError WaInvalidState
                    "No credential found. Please register first." None)).
Proof.
  intros H Hid. unfold authenticateUser. cbn. rewrite H. cbn.
  rewrite Hid. cbn. reflexivity.
Qed.

Lemma authenticateUser_supported w id :
  checkWebAuthnSupport w = true ->
  getStoredCredentialId w = Done w (Return (Some id)) ->
  exists k,
    authenticateUser w
    = Suspend (set_entropyUsed (entropyUsed w + 32) w)
        (CredentialsGet
           (requestOptions (random_bytes w (entropyUsed w) 32) id)) k /\
    (forall c w',
        k (Fulfilled (Some c)) w'
        = Done w' (Return {| success := true; credential := Some c;
                             isNewRegistration := Some false |})) /\
    (forall w',
        k (Fulfilled None) w'
        = Done w' (Throw (WebAuthnError WaUnknown
                            "Failed to authenticate. Please try again."
                            None))) /\
    (forall n m w',
        k (Rejected n m) w'
        = Done w' (Throw (classifyAuthenticateError (DomError n m)))).
Proof.
  intros H Hid. unfold authenticateUser. cbn. rewrite H. cbn.
  rewrite Hid. cbn.
  eexists. split; [reflexivity|]. repeat split; intros; reflexivity.
Qed.

(** ** Classification of platform errors *)

Ltac table_case :=
  match goal with
  | H : In _ _ |- _ =>
      cbn in H;
      repeat (destruct H as [H|H]; [injection H as <- <-; reflexivity|]);
      contradiction
  end.

Ltac off_table H :=
  repeat match goal with
    | |- context [String.eqb ?n ?c] =>
        destruct (String.eqb_spec n c) as [->|_];
        [exfalso; eapply H; cbn; eauto 10|]
    end.

Lemma classifyCameraError_table n k m :
  In (n, k) camera_table ->
  camera_kind (classifyCameraError (DomError n m)) = Some k.
Proof. intros H. table_case. Qed.

Lemma classifyCameraError_other n m :
  (forall k, ~ In (n, k) camera_table) ->
  classifyCameraError (DomError n m)
  = CameraError CamUnknown
      ("Unable to access camera: " ++ or_default m "Unknown error")
      (Some (DomError n m)).
Proof.
  intros H. unfold classifyCameraError, name_is. cbn [error_name].
  off_table H. reflexivity.
Qed.

Lemma classifyRegisterError_table n k m :
  In (n, k) biometric_table ->
  webauthn_kind (classifyRegisterError (DomError n m)) = Some k.
Proof. intros H. table_case. Qed.

Lemma classifyRegisterError_other n m :
  (forall k, ~ In (n, k) biometric_table) ->
  classifyRegisterError (DomError n m)
  = WebAuthnError WaUnknown
      ("Unable to register biometric authentication: "
         ++ or_default m "Unknown error")
      (Some (DomError n m)).
Proof.
  intros H. unfold classifyRegisterError, name_is. cbn [error_name].
  off_table H. reflexivity.
Qed.

Lemma classifyAuthenticateError_table n k m :
  In (n, k) biometric_table ->
  webauthn_kind (classifyAuthenticateError (DomError n m)) = Some k.
Proof. intros H. table_case. Qed.

Lemma classifyAuthenticateError_other n m :
  (forall k, ~ In (n, k) biometric_table) ->
  classifyAuthenticateError (DomError n m)
  = WebAuthnError WaUnknown
      ("Unable to authenticate: " ++ or_default m "Unknown error")
      (Some (DomError n m)).
Proof.
  intros H. unfold classifyAuthenticateError, name_is. cbn [error_name].
  off_table H. reflexivity.
Qed.

(** The fallback message ends with the platform's message. *)
Lemma or_default_carries m d :
  exists pre : string, or_default m d = (pre ++ m)%string.
Proof.
  unfold or_default. destruct (String.eqb_spec m EmptyString) as [->|_].
  - exists d. clear. induction d as [|c d IH]; [reflexivity|].
    change (String c d = String c (d ++ EmptyString)%string).
    f_equal. exact IH.
  - exists EmptyString. reflexivity.
Qed.

Lemma run_requestCameraAccess_rejected w n m :
  camera_supported w = true ->
  run (alone (platform_rejects n m)) (requestCameraAccess w)
  = (w, Throw (classifyCameraError (DomError n m))).
Proof.
  intros Hs. destruct (requestCameraAccess_supported w Hs) as (k & -> & _ & Hk).
  cbn. rewrite Hk. reflexivity.
Qed.

Lemma run_registerCredential_rejected w n m :
  checkWebAuthnSupport w = true ->
  raised (run (alone (platform_rejects n m)) (registerCredential w))
  = Some (classifyRegisterError (DomError n m)).
Proof.
  intros Hs.
  destruct (registerCredential_supported w Hs) as (k & -> & _ & _ & Hk).
  cbn. rewrite Hk. reflexivity.
Qed.

Lemma run_authenticateUser_rejected w id n m :
  checkWebAuthnSupport w = true ->
  getStoredCredentialId w = Done w (Return (Some id)) ->
  raised (run (alone (platform_rejects n m)) (authenticateUser w))
  = Some (classifyAuthenticateError (DomError n m)).
Proof.
  intros Hs Hid.
  destruct (authenticateUser_supported w id Hs Hid) as (k & -> & _ & _ & Hk).
  cbn. rewrite Hk. reflexivity.
Qed.

(** C3.  When the platform rejects with an exception named in the mapping
    tables, [requestCameraAccess], [registerCredential] and
    [authenticateUser] raise an error of exactly the documented kind; for
    any other name they raise kind [unknown], with a message that ends with
    the platform's own message (or with "Unknown error" when that is
    empty). *)
Theorem platform_errors_classified :
  (forall w n m,
      camera_supported w = true ->
      let e := classifyCameraError (DomError n m) in
      run (alone (platform_rejects n m)) (requestCameraAccess w)
      = (w, Throw e) /\
      (forall k, In (n, k) camera_table -> camera_kind e = Some k) /\
      ((forall k, ~ In (n, k) camera_table) ->
       camera_kind e = Some CamUnknown /\
       error_message e
       = ("Unable to access camera: " ++ or_default m "Unknown error")%string /\
       exists pre : string, error_message e = (pre ++ m)%string)) /\
  (forall w n m,
      checkWebAuthnSupport w = true ->
      let e := classifyRegisterError (DomError n m) in
      raised (run (alone (platform_rejects n m)) (registerCredential w))
      = Some e /\
      (forall k, In (n, k) biometric_table -> webauthn_kind e = Some k) /\
      ((forall k, ~ In (n, k) biometric_table) ->
       webauthn_kind e = Some WaUnknown /\
       error_message e
       = ("Unable to register biometric authentication: "
            ++ or_default m "Unknown error")%string /\
       exists pre : string, error_message e = (pre ++ m)%string)) /\
  (forall w id n m,
      checkWebAuthnSupport w = true ->
      getStoredCredentialId w = Done w (Return (Some id)) ->
      let e := classifyAuthenticateError (DomError n m) in
      raised (run (alone (platform_rejects n m)) (authenticateUser w))
      = Some e /\
      (forall k, In (n, k) biometric_table -> webauthn_kind e = Some k) /\
      ((forall k, ~ In (n, k) biometric_table) ->
       webauthn_kind e = Some WaUnknown /\
       error_message e
       = ("Unable to authenticate: " ++ or_default m "Unknown error")%string /\
       exists pre : string, error_message e = (pre ++ m)%string)).
Proof.
  split; [|split].
  - intros w n m Hs e. subst e. split; [|split].
    + apply run_requestCameraAccess_rejected, Hs.
    + intros k. apply classifyCameraError_table.
    + intros H. rewrite (classifyCameraError_other n m H). cbn.
      split; [reflexivity|]. split; [reflexivity|].
      destruct (or_default_carries m "Unknown error") as [pre ->].
      exists ("Unable to access camera: " ++ pre)%string. reflexivity.
  - intros w n m Hs e. subst e. split; [|split].
    + apply run_registerCredential_rejected, Hs.
    + intros k. apply classifyRegisterError_table.
    + intros H. rewrite (classifyRegisterError_other n m H). cbn.
      split; [reflexivity|]. split; [reflexivity|].
      destruct (or_default_carries m "Unknown error") as [pre ->].
      exists ("Unable to register biometric authentication: " ++ pre)%string.
      reflexivity.
  - intros w id n m Hs Hid e. subst e. split; [|split].
    + apply (run_authenticateUser_rejected w id n m Hs Hid).
    + intros k. apply classifyAuthenticateError_table.
    + intros H. rewrite (classifyAuthenticateError_other n m H). cbn.
      split; [reflexivity|]. split; [reflexivity|].
      destruct (or_default_carries m "Unknown error") as [pre ->].
      exists ("Unable to authenticate: " ++ pre)%string. reflexivity.
Qed.

Lemma platform_errors_classified_witness :
  camera_kind (classifyCameraError (DomError "NotFoundError" "no device"))
  = Some CamNotFound /\
  webauthn_kind (classifyRegisterError (DomError "AbortError" "aborted"))
  = Some WaTimeout /\
  webauthn_kind (classifyAuthenticateError (DomError "OtherError" "boom"))
  = Some WaUnknown.
Proof.
  destruct platform_errors_classified as (Hcam & Hreg & Hauth).
  split; [|split].
  - apply (Hcam freshWorld "NotFoundError" "no device" eq_refl).
    cbn. auto.
  - apply (Hreg freshWorld "AbortError" "aborted" eq_refl).
    cbn. auto 10.
  - apply (Hauth registeredWorld [Byte.x01; Byte.x02] "OtherError" "boom"
             eq_refl eq_refl).
    intros k H. cbn in H.
    repeat (destruct H as [H|H]; [discriminate H|]). exact H.
Defined.

(** ** Camera gateway: absent API *)

(** C4.  The claim asks for kind [not-supported] when the camera API is
    absent.  [requestCameraAccess] builds that error, but raises it inside
    its own [try]; its [catch] block has no test for an error that is
    already classified (the one [registerCredential] and [authenticateUser]
    have), finds no [name] on it and files it under [unknown].  Evaluated
    on a browser without [navigator.mediaDevices]: the raised kind is
    [unknown], the intended error survives only as [originalError]. *)
Theorem camera_absent_raises_unknown :
  requestCameraAccess (initialWorld noCameraEnv ∅)
  = Done (initialWorld noCameraEnv ∅)
      (Throw
         (CameraError CamUnknown
            "Unable to access camera: Camera access is not supported in this browser. Please use a modern browser like Chrome, Firefox, Safari, or Edge."
            (Some
               (CameraError CamNotSupported
                  "Camera access is not supported in this browser. Please use a modern browser like Chrome, Firefox, Safari, or Edge."
                  None)))).
Proof. reflexivity. Qed.

(** The same on every browser that lacks the API. *)
Lemma camera_absent_never_not_supported w :
  camera_supported w = false ->
  exists e,
    requestCameraAccess w = Done w (Throw e) /\
    camera_kind e = Some CamUnknown.
Proof.
  intros H. rewrite (requestCameraAccess_unsupported w H).
  eexists. split; reflexivity.
Qed.

(** ** Biometric gateway: pre-checks and re-raised errors *)

(** C5.  With the credential API present and no credential identifier in
    the store, [authenticateUser] raises [invalid-state] without ever
    suspending: it completes in the world the store lookup left, and no
    platform promise is created. *)
Theorem authenticate_requires_stored_credential w w' :
  checkWebAuthnSupport w = true ->
  getStoredCredentialId w = Done w' (Return None) ->
  authenticateUser w
  = Done w' (Throw (WebAuthnError WaInvalidState
                      "No credential found. Please register first." None)) /\
  first_suspension (authenticateUser w) = None /\
  localStorage w' = localStorage w.
Proof.
  intros Hs Hid.
  rewrite (authenticateUser_unregistered w w' Hs Hid).
  split; [reflexivity|]. split; [reflexivity|].
  destruct (getStoredCredentialId_done w) as (w1 & o & E & _ & Hl & _).
  rewrite Hid in E. injection E as <- _. exact Hl.
Qed.

Lemma authenticate_requires_stored_credential_witness :
  webauthn_kind
    (WebAuthnError WaInvalidState
       "No credential found. Please register first." None)
  = Some WaInvalidState /\
  first_suspension (authenticateUser freshWorld) = None.
Proof.
  destruct (authenticate_requires_stored_credential freshWorld freshWorld
              eq_refl eq_refl) as (_ & H & _).
  split; [reflexivity | exact H].
Defined.

Lemma has_type_WebAuthnError t m o : has_type (WebAuthnError t m o) = true.
Proof. destruct t; reflexivity. Qed.

Lemma registerCatch_classified t m o w :
  registerCatch (WebAuthnError t m o) w
  = Done w (Throw (WebAuthnError t m o)).
Proof. unfold registerCatch. rewrite has_type_WebAuthnError. reflexivity. Qed.

Lemma authenticateCatch_classified t m o w :
  authenticateCatch (WebAuthnError t m o) w
  = Done w (Throw (WebAuthnError t m o)).
Proof.
  unfold authenticateCatch. rewrite has_type_WebAuthnError. reflexivity.
Qed.

Lemma catch_step_reraises {A} (h : JsError -> Async A) :
  (forall t m o w, h (WebAuthnError t m o) w
                   = Done w (Throw (WebAuthnError t m o))) ->
  forall (s : Step A) sch w' t m o,
    run sch s = (w', Throw (WebAuthnError t m o)) ->
    run sch (catch_step h s) = (w', Throw (WebAuthnError t m o)).
Proof.
  intros Hh s. induction s as [w c | w op k IH]; intros sch w' t m o Hrun.
  - destruct c as [a | e]; cbn in *; [exact Hrun|].
    injection Hrun as -> ->. rewrite Hh. reflexivity.
  - cbn in *. apply IH. exact Hrun.
Qed.

(** C6.  In both [registerCredential] and [authenticateUser], an error
    that is already classified passes through the [catch] block unchanged:
    same kind, same message, same [originalError].  This holds for the
    [catch] blocks themselves, for whatever the [try] block raises in any
    execution, and so for the explicit [not-supported] and [invalid-state]
    checks. *)
Theorem classified_errors_reraised_unchanged :
  (forall t m o w,
      registerCatch (WebAuthnError t m o) w
      = Done w (Throw (WebAuthnError t m o)) /\
      authenticateCatch (WebAuthnError t m o) w
      = Done w (Throw (WebAuthnError t m o))) /\
  (forall (body : Async AuthenticationResult) sch w w' t m o,
      run sch (body w) = (w', Throw (WebAuthnError t m o)) ->
      run sch (try_catch body registerCatch w)
      = (w', Throw (WebAuthnError t m o)) /\
      run sch (try_catch body authenticateCatch w)
      = (w', Throw (WebAuthnError t m o))) /\
  (forall w,
      checkWebAuthnSupport w = false ->
      let e := WebAuthnError WaNotSupported
                 "WebAuthn is not supported in this browser. Please use a modern browser like Chrome, Firefox, Safari, or Edge."
                 None in
      registerCredential w = Done w (Throw e) /\
      authenticateUser w = Done w (Throw e)) /\
  (forall w w',
      checkWebAuthnSupport w = true ->
      getStoredCredentialId w = Done w' (Return None) ->
      authenticateUser w
      = Done w' (Throw (WebAuthnError WaInvalidState
                          "No credential found. Please register first."
                          None))).
Proof.
  split; [|split; [|split]].
  - intros. split;
      [apply registerCatch_classified | apply authenticateCatch_classified].
  - intros body sch w w' t m o Hrun. cbn. split.
    + apply catch_step_reraises; [apply registerCatch_classified | exact Hrun].
    + apply catch_step_reraises;
        [apply authenticateCatch_classified | exact Hrun].
  - intros w Hs e. split;
      [apply registerCredential_unsupported
      | apply authenticateUser_unsupported]; exact Hs.
  - intros w w'. apply authenticateUser_unregistered.
Qed.

Lemma classified_errors_reraised_unchanged_witness :
  run (alone (platform_rejects "x" "y"))
    (try_catch
       (throw (WebAuthnError WaTimeout "already classified" None))
       registerCatch freshWorld)
  = (freshWorld, Throw (WebAuthnError WaTimeout "already classified" None))
  /\ authenticateUser (initialWorld noCameraEnv ∅)
     = Done (initialWorld noCameraEnv ∅)
         (Throw (WebAuthnError WaInvalidState
                   "No credential found. Please register first." None)).
Proof.
  destruct classified_errors_reraised_unchanged as (_ & Hbody & _ & Hpre).
  split.
  - apply (Hbody
             (throw (WebAuthnError WaTimeout "already classified" None))
             (alone (platform_rejects "x" "y")) freshWorld freshWorld
             WaTimeout "already classified" None eq_refl).
  - apply (Hpre (initialWorld noCameraEnv ∅) (initialWorld noCameraEnv ∅));
      reflexivity.
Defined.

(** ** Camera gateway: what a request writes *)

(** C8.  A request that fails leaves the world as it found it, and in
    particular the tracked stream: [currentStream] is written at one place
    only, after the platform has handed out a stream.  With other flows
    running during the wait, the request still writes nothing of its own:
    it ends in the world those flows left. *)
Theorem failed_request_keeps_tracked_stream :
  (forall a w w' e,
      run (alone a) (requestCameraAccess w) = (w', Throw e) ->
      w' = w /\ currentStream w' = currentStream w) /\
  (forall sch w w' e,
      run sch (requestCameraAccess w) = (w', Throw e) ->
      w' = w \/ w' = meanwhile sch (GetUserMedia cameraConstraints) w) /\
  (forall sch w w' stream,
      run sch (requestCameraAccess w) = (w', Return stream) ->
      answer sch (GetUserMedia cameraConstraints) = Fulfilled stream /\
      currentStream w' = Some stream).
Proof.
  assert (Hfail : forall sch w w' e,
             run sch (requestCameraAccess w) = (w', Throw e) ->
             w' = w \/ w' = meanwhile sch (GetUserMedia cameraConstraints) w).
  { intros sch w w' e Hrun.
    destruct (camera_supported w) eqn:Hs.
    - destruct (requestCameraAccess_supported w Hs) as (k & E & Hok & Hko).
      rewrite E in Hrun. cbn in Hrun.
      destruct (answer sch (GetUserMedia cameraConstraints)) as [s | n m].
      + rewrite Hok in Hrun. discriminate Hrun.
      + rewrite Hko in Hrun. injection Hrun as <- _. right. reflexivity.
    - rewrite (requestCameraAccess_unsupported w Hs) in Hrun.
      injection Hrun as <- _. left. reflexivity. }
  split; [|split].
  - intros a w w' e Hrun.
    destruct (Hfail _ _ _ _ Hrun) as [-> | ->]; split; reflexivity.
  - exact Hfail.
  - intros sch w w' stream Hrun.
    destruct (camera_supported w) eqn:Hs.
    + destruct (requestCameraAccess_supported w Hs) as (k & E & Hok & Hko).
      rewrite E in Hrun. cbn in Hrun.
      destruct (answer sch (GetUserMedia cameraConstraints)) as [s | n m].
      * rewrite Hok in Hrun. injection Hrun as <- <-.
        split; reflexivity.
      * rewrite Hko in Hrun. discriminate Hrun.
    + rewrite (requestCameraAccess_unsupported w Hs) in Hrun.
      discriminate Hrun.
Qed.

Lemma failed_request_keeps_tracked_stream_witness :
  currentStream
    (fst (run (alone (platform_rejects "NotFoundError" "no camera"))
            (requestCameraAccess (set_currentStream (Some stream1) freshWorld))))
  = Some stream1.
Proof.
  destruct failed_request_keeps_tracked_stream as (Hfail & _ & _).
  destruct (Hfail (platform_rejects "NotFoundError" "no camera")
              (set_currentStream (Some stream1) freshWorld)
              (set_currentStream (Some stream1) freshWorld)
              (classifyCameraError (DomError "NotFoundError" "no camera"))
              eq_refl) as [_ H].
  exact H.
Defined.

(** ** Biometric gateway: results *)

Lemma always_returns_run {A} (P : A -> Prop) (s : Step A) :
  always_returns P s ->
  forall sch w' a, run sch s = (w', Return a) -> P a.
Proof.
  induction s as [w c | w op k IH]; intros HP sch w' a Hrun.
  - destruct c; cbn in *; [|discriminate Hrun].
    injection Hrun as _ <-. exact HP.
  - cbn in *. eapply IH; [apply HP | exact Hrun].
Qed.

Lemma dead_branch {A} (P : AuthenticationResult -> Prop)
    (yes no : AuthenticationResult -> Async A) (s : Step AuthenticationResult) :
  (forall r, P r -> success r = true) ->
  always_returns P s ->
  forall sch,
    run sch (bind_step (fun r => if success r then yes r else no r) s)
    = run sch (bind_step yes s).
Proof.
  intros HP. induction s as [w c | w op k IH]; intros Hs sch.
  - destruct c as [r | e]; cbn in *; [|reflexivity].
    rewrite (HP r Hs). reflexivity.
  - cbn in *. apply IH. apply Hs.
Qed.

Lemma registerCredential_returns w :
  always_returns registered (registerCredential w).
Proof.
  destruct (checkWebAuthnSupport w) eqn:Hs.
  - destruct (registerCredential_supported w Hs)
      as (k & -> & Hok & Hnull & Hko).
    cbn. intros [[c|] | n m] w'.
    + rewrite Hok. cbn. split; reflexivity.
    + rewrite Hnull. exact I.
    + rewrite Hko. exact I.
  - rewrite (registerCredential_unsupported w Hs). exact I.
Qed.

Lemma authenticateUser_returns w :
  always_returns authenticated (authenticateUser w).
Proof.
  destruct (checkWebAuthnSupport w) eqn:Hs.
  - destruct (getStoredCredentialId_done w) as (w1 & o & E & _ & _ & _ & Hw).
    destruct o as [id|].
    + rewrite (Hw ltac:(discriminate)) in E.
      destruct (authenticateUser_supported w id Hs E)
        as (k & -> & Hok & Hnull & Hko).
      cbn. intros [[c|] | n m] w'.
      * rewrite Hok. cbn. split; reflexivity.
      * rewrite Hnull. exact I.
      * rewrite Hko. exact I.
    + rewrite (authenticateUser_unregistered w w1 Hs E). exact I.
  - rewrite (authenticateUser_unsupported w Hs). exact I.
Qed.

(** C10.  In every execution, with any platform answers and any other
    flows running during the wait, a normal return of [registerCredential]
    carries [success = true] and [isNewRegistration = true], and a normal
    return of [authenticateUser] carries [success = true] and
    [isNewRegistration = false].  So a test of [result.success] placed
    after either call, as in the orchestrator, never takes its false
    branch: replacing that branch by anything leaves every execution
    unchanged. *)
Theorem gateway_results_are_successes :
  (forall sch w w' res,
      run sch (registerCredential w) = (w', Return res) ->
      success res = true /\ isNewRegistration res = Some true) /\
  (forall sch w w' res,
      run sch (authenticateUser w) = (w', Return res) ->
      success res = true /\ isNewRegistration res = Some false) /\
  (forall (yes no : AuthenticationResult -> Async unit) sch w,
      run sch (bind_step (fun r => if success r then yes r else no r)
                 (registerCredential w))
      = run sch (bind_step yes (registerCredential w)) /\
      run sch (bind_step (fun r => if success r then yes r else no r)
                 (authenticateUser w))
      = run sch (bind_step yes (authenticateUser w))).
Proof.
  split; [|split].
  - intros sch w w' res.
    apply (always_returns_run registered _ (registerCredential_returns w)).
  - intros sch w w' res.
    apply (always_returns_run authenticated _ (authenticateUser_returns w)).
  - intros yes no sch w. split.
    + apply (dead_branch registered); [intros r [H _]; exact H|].
      apply registerCredential_returns.
    + apply (dead_branch authenticated); [intros r [H _]; exact H|].
      apply authenticateUser_returns.
Qed.

Lemma gateway_results_are_successes_witness :
  snd (run (alone (answers (Fulfilled (Some someCredential))
                     (Fulfilled stream1)))
         (authenticateUser registeredWorld))
  = Return {| success := true; credential := Some someCredential;
              isNewRegistration := Some false |} /\
  success {| success := true; credential := Some someCredential;
             isNewRegistration := Some false |} = true.
Proof.
  split; [reflexivity|].
  destruct gateway_results_are_successes as (_ & Hauth & _).
  apply (Hauth
           (alone (answers (Fulfilled (Some someCredential))
                     (Fulfilled stream1)))
           registeredWorld
           (set_entropyUsed 32 registeredWorld)
           {| success := true; credential := Some someCredential;
              isNewRegistration := Some false |}).
  reflexivity.
Defined.

(** ** Credential store: what is written is what is read *)

Lemma getStoredCredentialId_stored w (id : Uint8Array) :
  localStorage w !! CREDENTIAL_STORAGE_KEY = Some (uint8ArrayToBase64 id) ->
  id <> [] ->
  getStoredCredentialId w = Done w (Return (Some id)).
Proof.
  intros Hst Hne. unfold getStoredCredentialId. cbn. rewrite Hst.
  rewrite (base64_nonempty id Hne), base64_bytes_roundtrip. reflexivity.
Qed.

(** C7, as the code has it.  Take a registration in which the platform
    returns the credential [c], whose identifier is not empty, whatever
    else happens during the wait.  It
    returns [{success: true, isNewRegistration: true}]; the store then holds
    a non-empty string, the base64 of [c.rawId]; decoding that string gives
    [c.rawId] back, so [getStoredCredentialId] returns exactly [c.rawId];
    and in any later world with the same stored value, [authenticateUser]
    calls [credentials.get] with [allowCredentials] holding that identifier
    and nothing else. *)
Theorem registration_stores_the_credential_id w c stream mw :
  checkWebAuthnSupport w = true ->
  rawId c <> [] ->
  let sch := {| answer := answers (Fulfilled (Some c)) stream;
                meanwhile := mw |} in
  exists w',
    run sch (registerCredential w)
    = (w', Return {| success := true; credential := Some c;
                     isNewRegistration := Some true |}) /\
    localStorage w' !! CREDENTIAL_STORAGE_KEY
    = Some (uint8ArrayToBase64 (rawId c)) /\
    String.eqb (uint8ArrayToBase64 (rawId c)) EmptyString = false /\
    base64ToUint8Array (uint8ArrayToBase64 (rawId c)) = Some (rawId c) /\
    getStoredCredentialId w' = Done w' (Return (Some (rawId c))) /\
    forall w2,
      checkWebAuthnSupport w2 = true ->
      localStorage w2 !! CREDENTIAL_STORAGE_KEY
      = localStorage w' !! CREDENTIAL_STORAGE_KEY ->
      exists options,
        first_suspension (authenticateUser w2) = Some (CredentialsGet options) /\
        allowCredentials options
        = [ {| descriptor_type := "public-key";
               descriptor_id := rawId c |} ].
Proof.
  intros Hs Hne sch.
  destruct (registerCredential_supported w Hs) as (k & E & Hok & _ & _).
  rewrite E. cbn. rewrite Hok. cbn.
  eexists. split; [reflexivity|].
  assert (Hst : forall w1 : World,
             localStorage
               (set_localStorage
                  (<[CREDENTIAL_STORAGE_KEY := uint8ArrayToBase64 (rawId c)]>
                     (localStorage w1)) w1)
               !! CREDENTIAL_STORAGE_KEY
             = Some (uint8ArrayToBase64 (rawId c))).
  { intros w1. cbn. apply lookup_insert_eq. }
  split; [apply Hst|].
  split; [apply base64_nonempty, Hne|].
  split; [apply base64_bytes_roundtrip|].
  split; [apply getStoredCredentialId_stored; [apply Hst | exact Hne]|].
  intros w2 Hs2 Hsame. rewrite Hst in Hsame.
  pose proof (getStoredCredentialId_stored w2 (rawId c) Hsame Hne) as Hid.
  destruct (authenticateUser_supported w2 (rawId c) Hs2 Hid) as (k2 & -> & _).
  eexists. split; reflexivity.
Qed.

Lemma registration_stores_the_credential_id_witness :
  exists w',
    run (alone (answers (Fulfilled (Some someCredential)) (Fulfilled stream1)))
      (registerCredential freshWorld)
    = (w', Return {| success := true; credential := Some someCredential;
                     isNewRegistration := Some true |}) /\
    getStoredCredentialId w' = Done w' (Return (Some [Byte.x01; Byte.x02])).
Proof.
  destruct (registration_stores_the_credential_id freshWorld someCredential
              (Fulfilled stream1) (fun _ w => w) eq_refl
              ltac:(discriminate))
    as (w' & Hrun & _ & _ & _ & Hget & _).
  exists w'. split; [exact Hrun | exact Hget].
Defined.

(** C7, as it is worded, fails: [registerCredential] tests the platform's
    answer against [null] only.  A credential with an empty identifier is
    a successful registration; what is stored is the empty string, which
    [getStoredCredentialId] takes for nothing stored, and the authenticate
    call that follows raises [invalid-state] without calling the
    platform. *)
Lemma empty_identifier_is_not_read_back :
  ~ (forall w c, stored_id_is_the_platform_id w c) /\
  exists w',
    run (alone (answers (Fulfilled (Some emptyCredential))
                  (Fulfilled stream1)))
      (registerCredential freshWorld)
    = (w', Return {| success := true; credential := Some emptyCredential;
                     isNewRegistration := Some true |}) /\
    localStorage w' !! CREDENTIAL_STORAGE_KEY = Some EmptyString /\
    getStoredCredentialId w' = Done w' (Return None) /\
    authenticateUser w'
    = Done w' (Throw (WebAuthnError WaInvalidState
                        "No credential found. Please register first." None)).
Proof.
  assert (Hs : checkWebAuthnSupport freshWorld = true) by reflexivity.
  destruct (registerCredential_supported freshWorld Hs) as (k & E & Hok & _).
  assert (Hrun : exists w',
             run (alone (answers (Fulfilled (Some emptyCredential))
                           (Fulfilled stream1)))
               (registerCredential freshWorld)
             = (w', Return {| success := true;
                              credential := Some emptyCredential;
                              isNewRegistration := Some true |}) /\
             checkWebAuthnSupport w' = true /\
             localStorage w' !! CREDENTIAL_STORAGE_KEY = Some EmptyString).
  { rewrite E. cbn. rewrite Hok. cbn. eexists. split; [reflexivity|].
    split; [reflexivity|]. cbn. apply lookup_insert_eq. }
  destruct Hrun as (w' & Hrun & Hs' & Hst).
  assert (Hget : getStoredCredentialId w' = Done w' (Return None))
    by (unfold getStoredCredentialId; cbn; rewrite Hst; reflexivity).
  split.
  - intros H.
    destruct (H freshWorld emptyCredential (Fulfilled stream1) w' _ Hrun)
      as ((stored & Hstored & Hne & _) & _).
    rewrite Hst in Hstored. injection Hstored as <-. apply Hne. reflexivity.
  - exists w'. split; [exact Hrun|]. split; [exact Hst|].
    split; [exact Hget|].
    apply authenticateUser_unregistered; assumption.
Qed.

(** ** The gesture-triggered flow *)

Lemma getStoredCredentialId_spec w :
  exists w',
    getStoredCredentialId w = Done w' (Return (stored_credential w)) /\
    env w' = env w /\ localStorage w' = localStorage w /\
    entropyUsed w' = entropyUsed w /\
    isAuthenticating w' = isAuthenticating w /\
    (stored_credential w <> None -> w' = w).
Proof.
  unfold getStoredCredentialId, stored_credential. cbn.
  destruct (localStorage w !! CREDENTIAL_STORAGE_KEY) as [stored|]; cbn;
    [|eexists; repeat split; congruence].
  destruct (String.eqb stored EmptyString); cbn;
    [eexists; repeat split; congruence|].
  destruct (base64ToUint8Array stored); cbn;
    eexists; repeat split; congruence.
Qed.

Lemma getStoredCredentialId_some w id :
  stored_credential w = Some id ->
  getStoredCredentialId w = Done w (Return (Some id)).
Proof.
  intros H. destruct (getStoredCredentialId_spec w) as (w' & E & _ & _ & _ & _ & Hw).
  rewrite H in *. rewrite (Hw ltac:(discriminate)) in E. exact E.
Qed.

Lemma checkWebAuthnSupport_env w w' :
  env w' = env w -> checkWebAuthnSupport w' = checkWebAuthnSupport w.
Proof. unfold checkWebAuthnSupport. intros ->. reflexivity. Qed.

(** Rewrites the support probe of a later world into that of [w]: the
    program never writes the browser environment. *)
Ltac same_support w :=
  repeat match goal with
    | |- context [checkWebAuthnSupport ?w1] =>
        lazymatch w1 with
        | w => fail
        | _ => change (checkWebAuthnSupport w1) with (checkWebAuthnSupport w)
        end
    end.

(** Splits on whether the camera API is there, at the camera request in
    the goal. *)
Ltac camera_cases Hok Hko :=
  match goal with
  | |- context [requestCameraAccess ?w0] =>
      let Hc := fresh "Hc" in
      let k := fresh "kc" in
      let E := fresh "Ec" in
      destruct (camera_supported w0) eqn:Hc;
      [ destruct (requestCameraAccess_supported w0 Hc) as (k & E & Hok & Hko);
        rewrite E
      | rewrite (requestCameraAccess_unsupported w0 Hc) ]
  end; cbn.

(** Runs the handler up to its credential call, in a world where it is
    neither busy nor unsupported; [tac_auth] and [tac_reg] continue from the
    facts about the continuation of that call. *)
Ltac to_credential_call w Hb Hs :=
  unfold handleWebAuthnAuthentication; rewrite Hb;
  unfold handlerTry; cbn; same_support w; rewrite Hs; cbn;
  let w2 := fresh "w2" in
  let E := fresh "E" in
  let He := fresh "He" in
  let Ha := fresh "Ha" in
  let Hw := fresh "Hw" in
  match goal with
  | |- context [getStoredCredentialId ?w1] =>
      destruct (getStoredCredentialId_spec w1)
        as (w2 & E & He & _ & _ & Ha & Hw);
      change (stored_credential w1) with (stored_credential w) in *
  end;
  rewrite E; cbn.

Lemma handler_gesture_order w :
  gesture_order (handleWebAuthnAuthentication w).
Proof.
  destruct (isAuthenticating w) eqn:Hb;
    [unfold handleWebAuthnAuthentication; rewrite Hb; exact I|].
  destruct (checkWebAuthnSupport w) eqn:Hs.
  2: { unfold handleWebAuthnAuthentication. rewrite Hb.
       unfold handlerTry. cbn. same_support w. rewrite Hs. exact I. }
  to_credential_call w Hb Hs.
  destruct (stored_credential w) as [id|] eqn:Hid; cbn.
  - rewrite (Hw ltac:(discriminate)) in *. clear Hw E.
    match goal with
    | |- context [authenticateUser ?w3] =>
        destruct (authenticateUser_supported w3 id Hs
                    (getStoredCredentialId_some w3 id Hid))
          as (k & -> & Hok & Hnull & Hko)
    end.
    cbn. split; [reflexivity|].
    intros [[c|] | n m] w4; cbn;
      [rewrite Hok | rewrite Hnull | rewrite Hko]; cbn; try exact I.
    unfold previewCamera. cbn. camera_cases Hcok Hcko; [|exact I].
    split; [reflexivity|].
    intros [s | n m] w6; [rewrite Hcok | rewrite Hcko]; reflexivity.
  - match goal with
    | |- context [registerCredential ?w3] =>
        destruct (registerCredential_supported w3)
          as (k & -> & Hok & Hnull & Hko)
    end.
    { rewrite <- Hs. apply checkWebAuthnSupport_env. exact He. }
    cbn. split; [reflexivity|].
    intros [[c|] | n m] w4; cbn;
      [rewrite Hok | rewrite Hnull | rewrite Hko]; cbn; try exact I.
    unfold previewCamera. cbn. camera_cases Hcok Hcko; [|exact I].
    split; [reflexivity|].
    intros [s | n m] w6; [rewrite Hcok | rewrite Hcko]; reflexivity.
Qed.


Lemma handler_guard w :
  isAuthenticating w = true ->
  handleWebAuthnAuthentication w = Done w (Return tt).
Proof. intros Hb. unfold handleWebAuthnAuthentication. rewrite Hb. reflexivity. Qed.

Lemma handler_suspends_on_credential_call w :
  isAuthenticating w = false ->
  checkWebAuthnSupport w = true ->
  exists w1 op k,
    handleWebAuthnAuthentication w = Suspend w1 op k /\
    isAuthenticating w1 = true /\
    is_credential_op op = true /\
    match stored_credential w with
    | Some id => exists challenge, op = CredentialsGet (requestOptions challenge id)
    | None => exists options, op = CredentialsCreate options
    end.
Proof.
  intros Hb Hs. to_credential_call w Hb Hs.
  destruct (stored_credential w) as [id|] eqn:Hid; cbn.
  - rewrite (Hw ltac:(discriminate)) in *. clear Hw E.
    match goal with
    | |- context [authenticateUser ?w3] =>
        destruct (authenticateUser_supported w3 id Hs
                    (getStoredCredentialId_some w3 id Hid))
          as (k & -> & _)
    end.
    cbn. eexists _, (CredentialsGet _), _. split; [reflexivity|].
    split; [reflexivity|]. split; [reflexivity|].
    eexists. reflexivity.
  - match goal with
    | |- context [registerCredential ?w3] =>
        destruct (registerCredential_supported w3) as (k & -> & _)
    end.
    { rewrite <- Hs. apply checkWebAuthnSupport_env. exact He. }
    cbn. eexists _, (CredentialsCreate _), _. split; [reflexivity|].
    split; [exact Ha|]. split; [reflexivity|].
    eexists. reflexivity.
Qed.

Lemma handler_unsupported w :
  isAuthenticating w = false ->
  checkWebAuthnSupport w = false ->
  first_suspension (handleWebAuthnAuthentication w) = None.
Proof.
  intros Hb Hs. unfold handleWebAuthnAuthentication. rewrite Hb.
  unfold handlerTry. cbn. same_support w. rewrite Hs. reflexivity.
Qed.

(** C1.  In every execution of the gesture handler: it either completes
    without suspending (the guard fired, or the support check failed) or
    its first suspension is the [credentials.get] / [credentials.create]
    call; the camera is requested only in the continuation of that call,
    only when the call produced a credential, and nothing else is awaited.
    Past the guard and the support check the call is always made, with the
    busy flag already set: [credentials.get] when a credential identifier
    is stored, [credentials.create] otherwise. *)
Theorem biometric_call_is_first_suspension :
  (forall w, gesture_order (handleWebAuthnAuthentication w)) /\
  (forall w,
      isAuthenticating w = false ->
      checkWebAuthnSupport w = true ->
      exists w1 op k,
        handleWebAuthnAuthentication w = Suspend w1 op k /\
        isAuthenticating w1 = true /\
        is_credential_op op = true /\
        match stored_credential w with
        | Some id =>
            exists challenge, op = CredentialsGet (requestOptions challenge id)
        | None => exists options, op = CredentialsCreate options
        end) /\
  (forall w,
      isAuthenticating w = false ->
      checkWebAuthnSupport w = false ->
      first_suspension (handleWebAuthnAuthentication w) = None).
Proof.
  split; [exact handler_gesture_order|].
  split; [exact handler_suspends_on_credential_call
         | exact handler_unsupported].
Qed.

Lemma biometric_call_is_first_suspension_witness :
  (exists op,
      first_suspension (handleWebAuthnAuthentication registeredWorld) = Some op /\
      is_credential_op op = true) /\
  first_suspension
    (handleWebAuthnAuthentication
       (initialWorld
          {| has_mediaDevices := true; has_getUserMedia := true;
             has_PublicKeyCredential := false; has_credentials := false;
             hostname := "localhost"; entropy := fun _ => Byte.x2a;
             cameraHelp := "camera help"; webauthnHelp := "biometric help" |}
          ∅)) = None.
Proof.
  destruct biometric_call_is_first_suspension as (_ & Hcall & Hnone).
  split.
  - destruct (Hcall registeredWorld eq_refl eq_refl)
      as (w1 & op & k & E & _ & Hop & _).
    exists op. rewrite E. split; [reflexivity | exact Hop].
  - apply Hnone; reflexivity.
Defined.

(** ** The busy flag *)

Lemma handler_flow_ok w :
  isAuthenticating w = false ->
  flow_ok BiometricFlow true (handleWebAuthnAuthentication w).
Proof.
  intros Hb.
  destruct (checkWebAuthnSupport w) eqn:Hs.
  2: { unfold handleWebAuthnAuthentication. rewrite Hb.
       unfold handlerTry. cbn. same_support w. rewrite Hs. reflexivity. }
  to_credential_call w Hb Hs.
  destruct (stored_credential w) as [id|] eqn:Hid; cbn.
  - rewrite (Hw ltac:(discriminate)) in *. clear Hw E.
    match goal with
    | |- context [authenticateUser ?w3] =>
        destruct (authenticateUser_supported w3 id Hs
                    (getStoredCredentialId_some w3 id Hid))
          as (k & -> & Hok & Hnull & Hko)
    end.
    cbn. split; [reflexivity|]. split; [discriminate|].
    intros [[c|] | n m] w4; cbn;
      [rewrite Hok | rewrite Hnull | rewrite Hko]; cbn; try reflexivity.
    unfold previewCamera. cbn. camera_cases Hcok Hcko; [|reflexivity].
    split; [reflexivity|]. split; [discriminate|].
    intros [s | n m] w6; [rewrite Hcok | rewrite Hcko]; reflexivity.
  - match goal with
    | |- context [registerCredential ?w3] =>
        destruct (registerCredential_supported w3)
          as (k & -> & Hok & Hnull & Hko)
    end.
    { rewrite <- Hs. apply checkWebAuthnSupport_env. exact He. }
    cbn. split; [exact Ha|]. split; [discriminate|].
    intros [[c|] | n m] w4; cbn;
      [rewrite Hok | rewrite Hnull | rewrite Hko]; cbn; try reflexivity.
    unfold previewCamera. cbn. camera_cases Hcok Hcko; [|reflexivity].
    split; [reflexivity|]. split; [discriminate|].
    intros [s | n m] w6; [rewrite Hcok | rewrite Hcko]; reflexivity.
Qed.

Lemma stopCamera_isAuthenticating w :
  isAuthenticating (stopCamera w) = isAuthenticating w.
Proof. unfold stopCamera. destruct (currentStream w); reflexivity. Qed.

Lemma toggle_flow_ok w :
  flow_ok CameraFlow (isAuthenticating w) (toggleCamera w).
Proof.
  unfold toggleCamera. destruct (isCameraActive w).
  - cbn. apply stopCamera_isAuthenticating.
  - unfold startCamera. cbn. camera_cases Hcok Hcko.
    + split; [reflexivity|]. split; [reflexivity|].
      intros [s | n m] w'; [rewrite Hcok | rewrite Hcko]; cbn.
      * reflexivity.
      * unfold showError. repeat destruct (type_is _ _); reflexivity.
    + unfold showError. repeat destruct (type_is _ _); reflexivity.
Qed.

Lemma settle_isAuthenticating op r w :
  isAuthenticating (settle op r w) = isAuthenticating w.
Proof. destruct op; cbn; try reflexivity. destruct r; reflexivity. Qed.

Lemma run_timer_isAuthenticating callback ts w :
  isAuthenticating (run_timer callback (set_timers ts w)) = isAuthenticating w.
Proof.
  destruct callback. cbn.
  rewrite stopCamera_isAuthenticating. reflexivity.
Qed.

Lemma filter_length_app {A} (f : A -> bool) l1 l2 :
  length (List.filter f (l1 ++ l2))
  = length (List.filter f l1) + length (List.filter f l2).
Proof. rewrite List.filter_app, length_app. reflexivity. Qed.

Lemma filter_length_le {A} (f g : A -> bool) l :
  Forall (fun x => f x = true -> g x = true) l ->
  length (List.filter f l) <= length (List.filter g l).
Proof.
  induction 1 as [|x l Hx _ IH]; cbn; [lia|].
  destruct (f x) eqn:Hf.
  - rewrite (Hx eq_refl). cbn. lia.
  - destruct (g x); cbn; lia.
Qed.

Lemma busy_invariant_park flow s pending issued (b : bool) :
  Forall task_ok pending ->
  flow_ok flow b s ->
  length (List.filter (in_flow BiometricFlow) pending)
  = match flow with
    | BiometricFlow => 0
    | CameraFlow => if b then 1 else 0
    end ->
  (flow = BiometricFlow -> b = true) ->
  busy_invariant (park flow s pending issued).
Proof.
  intros Hall Hs Hcount Hb.
  destruct s as [w c | w op k]; unfold busy_invariant, flows_in_flight; cbn.
  - cbn in Hs. rewrite Hs. split; [exact Hall|].
    destruct flow; [exact Hcount | exact Hcount].
  - destruct Hs as (Hw & Hop & Hk). split.
    + apply Forall_app. split; [exact Hall|].
      constructor; [|constructor]. split; [exact Hop | exact Hk].
    + rewrite filter_length_app, Hcount, Hw. cbn.
      destruct flow; cbn.
      * rewrite (Hb eq_refl). reflexivity.
      * destruct b; reflexivity.
Qed.

Lemma busy_invariant_step ev sys sys' :
  busy_invariant sys -> step ev sys = Some sys' -> busy_invariant sys'.
Proof.
  intros [Hall Hcount] Hstep. unfold flows_in_flight in Hcount.
  destruct sys as [w pending issued]. cbn in *.
  destruct ev as [| | i a | i]; cbn in Hstep.
  - injection Hstep as <-.
    destruct (isAuthenticating w) eqn:Hb.
    + rewrite (handler_guard w Hb). split; [exact Hall|].
      unfold flows_in_flight. cbn. rewrite Hb. exact Hcount.
    + apply (busy_invariant_park BiometricFlow _ _ _ true);
        [exact Hall | apply handler_flow_ok, Hb | exact Hcount | reflexivity].
  - injection Hstep as <-.
    apply (busy_invariant_park CameraFlow _ _ _ (isAuthenticating w));
      [exact Hall | apply toggle_flow_ok | exact Hcount | discriminate].
  - destruct (pending !! i) as [t|] eqn:Ht; [|discriminate Hstep].
    injection Hstep as <-.
    pose proof (Forall_lookup_1 _ _ _ _ Hall Ht) as [Hop Hk].
    rewrite <- (take_drop_middle _ _ _ Ht), filter_length_app in Hcount.
    cbn [List.filter length] in Hcount.
    assert (Hin : in_flow BiometricFlow t
                  = match task_flow t with
                    | BiometricFlow => true
                    | CameraFlow => false
                    end)
      by (unfold in_flow; destruct (task_flow t); reflexivity).
    rewrite Hin in Hcount.
    apply (busy_invariant_park _ _ _ _ (isAuthenticating w)).
    + apply Forall_delete, Hall.
    + rewrite <- (settle_isAuthenticating (task_op t) (a (task_op t)) w).
      apply Hk.
    + rewrite delete_take_drop, filter_length_app.
      destruct (task_flow t); cbn in Hcount.
      * destruct (isAuthenticating w); lia.
      * exact Hcount.
    + intros Hflow. rewrite Hflow in Hcount. cbn in Hcount.
      destruct (isAuthenticating w); [reflexivity | lia].
  - destruct (timers w !! i) as [[d callback]|]; [|discriminate Hstep].
    injection Hstep as <-. split; [exact Hall|].
    unfold flows_in_flight. cbn.
    rewrite run_timer_isAuthenticating. exact Hcount.
Qed.

Lemma reachable_busy_invariant sys : reachable sys -> busy_invariant sys.
Proof.
  induction 1 as [e storage | sys ev sys' _ IH Hstep].
  - split; [constructor | reflexivity].
  - exact (busy_invariant_step ev sys sys' IH Hstep).
Qed.

Lemma reachable_steps es : forall sys sys',
  reachable sys -> steps es sys = Some sys' -> reachable sys'.
Proof.
  induction es as [|e es IH]; intros sys sys' Hr Hs; cbn in Hs.
  - injection Hs as <-. exact Hr.
  - destruct (step e sys) as [sys1|] eqn:E; [|discriminate Hs].
    exact (IH sys1 sys' (reachable_step sys e sys1 Hr E) Hs).
Qed.

Lemma credential_calls_are_biometric sys :
  busy_invariant sys ->
  credential_calls_in_flight sys <= flows_in_flight BiometricFlow sys.
Proof.
  intros [Hall _]. apply filter_length_le.
  eapply Forall_impl; [exact Hall|].
  intros t [Hop _] Hcred. unfold in_flow.
  destruct (task_flow t); [reflexivity|].
  rewrite (Hop eq_refl) in Hcred. discriminate Hcred.
Qed.

Lemma system_eta sys :
  {| sys_world := sys_world sys; sys_pending := sys_pending sys;
     sys_issued := sys_issued sys |} = sys.
Proof. destruct sys. reflexivity. Qed.

(** C2, as the code has it.  In every reachable state of the event loop:
    the busy flag is set exactly while one biometric flow is in progress -
    from the guard to the end of the flow, which covers the whole of the
    credential call and the camera request that follows a success - and
    is clear when none is; there is never more than one credential call in
    flight, and one in flight means busy.  A trigger while busy changes
    nothing: no world update, no new pending promise, no platform call.
    From an idle state with biometric support, two triggers in a row leave
    the system exactly as one trigger does, with one credential call
    issued. *)
Theorem busy_flag_spans_the_flow sys :
  reachable sys ->
  (isAuthenticating (sys_world sys) = true <->
   flows_in_flight BiometricFlow sys = 1) /\
  (isAuthenticating (sys_world sys) = false <->
   flows_in_flight BiometricFlow sys = 0) /\
  credential_calls_in_flight sys <= 1 /\
  (credential_calls_in_flight sys = 1 ->
   isAuthenticating (sys_world sys) = true) /\
  (isAuthenticating (sys_world sys) = true ->
   step ClickWebauthn sys = Some sys) /\
  (isAuthenticating (sys_world sys) = false ->
   checkWebAuthnSupport (sys_world sys) = true ->
   exists sys1,
     step ClickWebauthn sys = Some sys1 /\
     steps [ClickWebauthn; ClickWebauthn] sys = Some sys1 /\
     isAuthenticating (sys_world sys1) = true /\
     credential_calls_in_flight sys1 = 1 /\
     credential_calls_issued sys1 = S (credential_calls_issued sys)).
Proof.
  intros Hr. pose proof (reachable_busy_invariant sys Hr) as Hinv.
  pose proof (credential_calls_are_biometric sys Hinv) as Hle.
  destruct Hinv as [Hall Hcount].
  split; [|split; [|split; [|split; [|split]]]].
  - rewrite Hcount. destruct (isAuthenticating (sys_world sys));
      split; intros H; try reflexivity; discriminate H.
  - rewrite Hcount. destruct (isAuthenticating (sys_world sys));
      split; intros H; try reflexivity; discriminate H.
  - rewrite Hcount in Hle. destruct (isAuthenticating (sys_world sys)); lia.
  - intros H1. rewrite Hcount in Hle.
    destruct (isAuthenticating (sys_world sys)); [reflexivity | lia].
  - intros Hb. cbn. rewrite (handler_guard _ Hb). cbn.
    rewrite system_eta. reflexivity.
  - intros Hb Hs.
    destruct (handler_suspends_on_credential_call _ Hb Hs)
      as (w1 & op & k & E & Hw1 & Hcred & _).
    eexists. split; [cbn; rewrite E; reflexivity|].
    split; [|split; [exact Hw1|split]].
    + cbn. rewrite E. cbn. rewrite (handler_guard _ Hw1). reflexivity.
    + unfold credential_calls_in_flight in *. cbn.
      rewrite filter_length_app. cbn. rewrite Hcred. cbn.
      rewrite Hcount, Hb in Hle. lia.
    + unfold credential_calls_issued. cbn.
      rewrite filter_length_app. cbn. rewrite Hcred. cbn. lia.
Qed.

Lemma busy_flag_spans_the_flow_witness :
  exists sys1,
    steps [ClickWebauthn; ClickWebauthn] (initialSystem fullEnv ∅) = Some sys1 /\
    credential_calls_issued sys1 = 1.
Proof.
  destruct (busy_flag_spans_the_flow (initialSystem fullEnv ∅)
              (reachable_initial fullEnv ∅))
    as (_ & _ & _ & _ & _ & Htwice).
  destruct (Htwice eq_refl eq_refl) as (sys1 & _ & Hsteps & _ & _ & Hissued).
  exists sys1. split; [exact Hsteps | exact Hissued].
Defined.

(** C2, as it is worded, fails: after a successful authentication the flow
    goes on to await the camera with the busy flag still set, although no
    credential call is in flight any more. *)
Lemma busy_outlasts_the_credential_call :
  ~ (forall sys, reachable sys -> busy_exactly_during_call sys).
Proof.
  intros H.
  assert (E1 : option_map
                 (fun sys => (isAuthenticating (sys_world sys),
                              credential_calls_in_flight sys))
                 (steps authenticateThenAwaitCamera registeredSystem)
               = Some (true, 0)) by (vm_compute; reflexivity).
  destruct (steps authenticateThenAwaitCamera registeredSystem)
    as [sys|] eqn:E; [|discriminate E1].
  cbn in E1. injection E1 as Hb Hc.
  pose proof (reachable_steps authenticateThenAwaitCamera registeredSystem sys
                (reachable_initial _ _) E) as Hr.
  destruct (H sys Hr) as [Hbusy _].
  rewrite (Hbusy Hb) in Hc. discriminate Hc.
Qed.

(** ** Live streams *)

Lemma elem_of_stop_tracks t tracks live :
  t ∈ foldl stop_track live tracks <-> t ∈ live /\ t ∉ tracks.
Proof.
  revert live. induction tracks as [|x tracks IH]; intros live; cbn.
  - split; [intros H; split; [exact H | apply not_elem_of_nil] | tauto].
  - rewrite IH. unfold stop_track.
    rewrite elem_of_difference, elem_of_singleton, not_elem_of_cons. tauto.
Qed.

Lemma tracked_only_stopCamera w : tracked_only w -> tracked_only (stopCamera w).
Proof.
  intros Hw t. unfold stopCamera.
  destruct (currentStream w) as [s|] eqn:Hcur.
  2: { intros Ht. destruct (Hw t Ht) as (s' & Hs' & _). congruence. }
  cbn. rewrite elem_of_stop_tracks. intros [Hlive Hnot].
  destruct (Hw t Hlive) as (s' & Hs' & Hin).
  rewrite Hcur in Hs'. injection Hs' as <-. contradiction.
Qed.

Lemma request_task_of_requestCameraAccess w :
  camera_supported w = true ->
  exists t,
    gateway_park (requestCameraAccess w) []
    = {| gw_world := w; gw_pending := [t] |} /\
    request_task_ok t.
Proof.
  intros Hs.
  destruct (requestCameraAccess_supported w Hs) as (k & -> & Hok & Hko).
  eexists. split; [reflexivity|].
  intros [s | n m] w0 Hnone Hw0; cbn.
  - rewrite Hok. eexists _, _. split; [reflexivity|].
    intros t Ht. cbn in *. exists s. split; [reflexivity|].
    apply elem_of_union in Ht as [Ht | Ht].
    + apply elem_of_list_to_set in Ht. exact Ht.
    + destruct (Hw0 t Ht) as (s' & Hs' & _). congruence.
  - rewrite Hko. eexists _, _. split; [reflexivity | exact Hw0].
Qed.

Lemma gateway_invariant_step e g g' :
  gateway_invariant g ->
  (e = CallRequest ->
   currentStream (gw_world g) = None /\ gw_pending g = []) ->
  gateway_step e g = Some g' ->
  gateway_invariant g'.
Proof.
  intros [Hw Hp] Hidle Hstep. destruct g as [w pending]. cbn in *.
  destruct e as [| i a |]; cbn in Hstep.
  - destruct (Hidle eq_refl) as [Hnone ->]. injection Hstep as <-.
    destruct (camera_supported w) eqn:Hs.
    + destruct (request_task_of_requestCameraAccess w Hs) as (t & -> & Ht).
      split; [exact Hw|]. right. split; [exact Hnone|]. exists t. auto.
    + rewrite (requestCameraAccess_unsupported w Hs).
      split; [exact Hw | left; reflexivity].
  - destruct Hp as [-> | (Hnone & t & -> & Ht)]; [discriminate Hstep|].
    destruct i as [|i]; [|discriminate Hstep]. cbn in Hstep.
    destruct (Ht (a (gt_op t)) w Hnone Hw) as (w' & c & E & Hw').
    rewrite E in Hstep. injection Hstep as <-.
    split; [exact Hw' | left; reflexivity].
  - injection Hstep as <-. split; [apply tracked_only_stopCamera, Hw|].
    destruct Hp as [-> | (Hnone & t & -> & Ht)]; [left; reflexivity|].
    right. cbn. split; [|exists t; auto].
    unfold stopCamera. rewrite Hnone. exact Hnone.
Qed.

Lemma gateway_invariant_steps es : forall g g',
  gateway_invariant g ->
  requests_one_at_a_time es g ->
  gateway_steps es g = Some g' ->
  gateway_invariant g'.
Proof.
  induction es as [|e es IH]; intros g g' Hg Hone Hsteps; cbn in Hsteps.
  - injection Hsteps as <-. exact Hg.
  - destruct Hone as [He Hrest].
    destruct (gateway_step e g) as [g1|] eqn:E; [|discriminate Hsteps].
    apply (IH g1 g'); [|exact Hrest | exact Hsteps].
    apply (gateway_invariant_step e g g1 Hg); [|exact E].
    intros ->. exact He.
Qed.

Lemma is_live_track w s :
  is_live w s = true -> exists t, t ∈ getTracks s /\ t ∈ liveTracks w.
Proof.
  unfold is_live. rewrite existsb_exists. intros (t & Hin & Hlive).
  exists t. split; [apply list_elem_of_In, Hin|].
  apply bool_decide_eq_true in Hlive. exact Hlive.
Qed.

Lemma requests_one_at_a_time_prefix es rest : forall g,
  requests_one_at_a_time (es ++ rest) g -> requests_one_at_a_time es g.
Proof.
  induction es as [|e es IH]; intros g H; [exact I|].
  destruct H as [He Hrest]. split; [exact He|].
  destruct (gateway_step e g) as [g1|]; [apply IH, Hrest | exact I].
Qed.

(** C9, as the code has it.  The gateway tracks one stream.  Its client
    may interleave calls as it likes, also while a request is pending; when
    it requests the camera only while no stream is tracked and no earlier
    request is pending, then in every state it passes through - after any
    part [es] of its requests, settlements (granted or refused) and stops -
    every live track belongs to the tracked stream: a stream that shares
    no track with the tracked one is not live, and once nothing is tracked
    nothing is live.  So at most one stream is live, the tracked one. *)
Theorem only_the_tracked_stream_is_live es rest w g :
  tracked_only w ->
  requests_one_at_a_time (es ++ rest) (idleGateway w) ->
  gateway_steps es (idleGateway w) = Some g ->
  let w' := gw_world g in
  tracked_only w' /\
  (forall s,
      is_live w' s = true ->
      exists cur t,
        currentStream w' = Some cur /\ t ∈ getTracks s /\ t ∈ getTracks cur) /\
  (currentStream w' = None -> liveTracks w' = ∅).
Proof.
  intros Hw Hone Hsteps w'.
  assert (Hw' : tracked_only w').
  { apply (gateway_invariant_steps es (idleGateway w) g);
      [|exact (requests_one_at_a_time_prefix es rest _ Hone) | exact Hsteps].
    split; [exact Hw | left; reflexivity]. }
  split; [exact Hw'|]. split.
  - intros s Hlive. destruct (is_live_track w' s Hlive) as (t & Hin & Ht).
    destruct (Hw' t Ht) as (cur & Hcur & Hincur).
    exists cur, t. auto.
  - intros Hnone. apply set_eq. intros t. split.
    + intros Ht. destruct (Hw' t Ht) as (s & Hs & _). congruence.
    + intros Ht. apply not_elem_of_empty in Ht. contradiction.
Qed.

Lemma only_the_tracked_stream_is_live_witness :
  match gateway_steps requestStopTwice (idleGateway freshWorld) with
  | Some g => liveTracks (gw_world g) = ∅
  | None => False
  end.
Proof.
  assert (Hsome : option_map (fun g => currentStream (gw_world g))
                    (gateway_steps requestStopTwice (idleGateway freshWorld))
                  = Some None) by (vm_compute; reflexivity).
  assert (Hone : requests_one_at_a_time (requestStopTwice ++ [])
                   (idleGateway freshWorld))
    by (vm_compute; repeat split).
  destruct (gateway_steps requestStopTwice (idleGateway freshWorld))
    as [g|] eqn:E; [|discriminate Hsome].
  injection Hsome as Hnone.
  apply (only_the_tracked_stream_is_live requestStopTwice [] freshWorld g);
    [|exact Hone | exact E | exact Hnone].
  intros t Ht. apply not_elem_of_empty in Ht. contradiction.
Defined.

(** C9, as it is worded, fails: a request granted while a stream is
    tracked replaces the tracked stream and leaves the earlier one running.
    At the gateway, two granted requests with no stop between leave two
    live streams; so do two requests in flight together, although both
    were made while nothing was tracked.  In the application the same
    happens when the camera is on and a registration then opens its
    preview; the preview's timer stops the second stream only, and the
    first stays live with nothing tracking it. *)
Lemma second_stream_leaves_first_live :
  ~ (forall es g,
        gateway_steps es (idleGateway freshWorld) = Some g ->
        at_most_one_live [stream1; stream2] (gw_world g)) /\
  option_map
    (fun g => (is_live (gw_world g) stream1, is_live (gw_world g) stream2,
               currentStream (gw_world g)))
    (gateway_steps requestWhileTracked (idleGateway freshWorld))
  = Some (true, true, Some stream2) /\
  option_map
    (fun g => (is_live (gw_world g) stream1, is_live (gw_world g) stream2,
               currentStream (gw_world g)))
    (gateway_steps requestWhilePending (idleGateway freshWorld))
  = Some (true, true, Some stream2) /\
  option_map
    (fun sys => (is_live (sys_world sys) stream1,
                 is_live (sys_world sys) stream2,
                 currentStream (sys_world sys)))
    (steps previewOverActiveCamera (initialSystem fullEnv ∅))
  = Some (true, true, Some stream2) /\
  option_map
    (fun sys => (is_live (sys_world sys) stream1,
                 is_live (sys_world sys) stream2,
                 currentStream (sys_world sys)))
    (steps (previewOverActiveCamera ++ [Fire 0]) (initialSystem fullEnv ∅))
  = Some (true, false, None).
Proof.
  assert (E : option_map
                (fun g => (is_live (gw_world g) stream1,
                           is_live (gw_world g) stream2,
                           currentStream (gw_world g)))
                (gateway_steps requestWhileTracked (idleGateway freshWorld))
              = Some (true, true, Some stream2)) by (vm_compute; reflexivity).
  split; [|split; [exact E|split; [|split]]].
  - intros H.
    destruct (gateway_steps requestWhileTracked (idleGateway freshWorld))
      as [g|] eqn:Hg; [|discriminate E].
    specialize (H requestWhileTracked g Hg).
    cbn in E. injection E as E1 E2 _.
    unfold at_most_one_live in H. cbn in H. rewrite E1, E2 in H.
    cbn in H. lia.
  - vm_compute. reflexivity.
  - vm_compute. reflexivity.
  - vm_compute. reflexivity.
Qed.

(** * Part III: further properties of the code *)

(** ** camera.ts: [stopCamera] *)

(** X1.  [stopCamera] with nothing tracked changes nothing; called twice
    it does what one call does; after it nothing is tracked, and the live
    tracks are the earlier ones minus those of the stream that was tracked.
    It writes nothing but [currentStream] and the tracks. *)
Theorem stopCamera_releases_the_tracked_stream w :
  (currentStream w = None -> stopCamera w = w) /\
  stopCamera (stopCamera w) = stopCamera w /\
  currentStream (stopCamera w) = None /\
  (forall s t,
      currentStream w = Some s ->
      (t ∈ liveTracks (stopCamera w) <-> t ∈ liveTracks w /\ t ∉ getTracks s)) /\
  (forall s, currentStream w = Some s -> is_live (stopCamera w) s = false) /\
  stopCamera w
  = set_currentStream None (set_liveTracks (liveTracks (stopCamera w)) w).
Proof.
  unfold stopCamera.
  destruct (currentStream w) as [s|] eqn:Hcur; cbn.
  - split; [discriminate|]. split; [reflexivity|]. split; [reflexivity|].
    split; [|split; [|reflexivity]].
    + intros s' t [= <-]. apply elem_of_stop_tracks.
    + intros s' [= <-]. unfold is_live. cbn.
      apply not_true_is_false. rewrite existsb_exists.
      intros (t & Hin & Hlive). apply bool_decide_eq_true in Hlive.
      apply elem_of_stop_tracks in Hlive as [_ Hnot].
      apply Hnot, list_elem_of_In, Hin.
  - rewrite Hcur. split; [reflexivity|]. split; [reflexivity|].
    split; [reflexivity|]. split; [discriminate|]. split; [discriminate|].
    destruct w. cbn in *. rewrite Hcur. reflexivity.
Qed.

Lemma stopCamera_releases_the_tracked_stream_witness :
  is_live
    (stopCamera
       (set_currentStream (Some stream1)
          (set_liveTracks {[ 1; 7 ]} freshWorld))) stream1 = false /\
  stopCamera freshWorld = freshWorld.
Proof.
  split.
  - apply (stopCamera_releases_the_tracked_stream
             (set_currentStream (Some stream1)
                (set_liveTracks {[ 1; 7 ]} freshWorld))).
    reflexivity.
  - exact (proj1 (stopCamera_releases_the_tracked_stream freshWorld) eq_refl).
Defined.

(** ** webauthn.ts: the credential store *)

Lemma stored_credential_insert w (id : Uint8Array) storage :
  localStorage w = <[CREDENTIAL_STORAGE_KEY := uint8ArrayToBase64 id]> storage ->
  stored_credential w = if id is [] then None else Some id.
Proof.
  intros H. unfold stored_credential. rewrite H, lookup_insert_eq.
  destruct id as [|b id]; [reflexivity|].
  rewrite base64_nonempty by discriminate.
  apply base64_bytes_roundtrip.
Qed.

(** X2.  The three store operations compose as a one-slot store.  A stored
    non-empty identifier is read back as it was; a second store replaces
    the first; after a clear the lookup finds nothing and logs nothing;
    storing touches no other key.  One edge: an empty identifier is stored
    as the empty string, which the lookup takes for "nothing stored". *)
Theorem credential_store_is_one_slot :
  (forall id w,
      id <> [] ->
      exists w',
        (storeCredentialId id ;; getStoredCredentialId) w
        = Done w' (Return (Some id))) /\
  (forall id1 id2 w,
      id2 <> [] ->
      exists w',
        (storeCredentialId id1 ;; storeCredentialId id2 ;;
         getStoredCredentialId) w
        = Done w' (Return (Some id2))) /\
  (forall id w,
      exists w',
        (storeCredentialId id ;; clearStoredCredential ;;
         getStoredCredentialId) w
        = Done w' (Return None) /\
        console w' = console w /\
        localStorage w' !! CREDENTIAL_STORAGE_KEY = None) /\
  (forall w,
      exists w',
        (storeCredentialId [] ;; getStoredCredentialId) w
        = Done w' (Return None) /\
        localStorage w' !! CREDENTIAL_STORAGE_KEY = Some EmptyString) /\
  (forall id w key,
      key <> CREDENTIAL_STORAGE_KEY ->
      exists w',
        storeCredentialId id w = Done w' (Return tt) /\
        localStorage w' !! key = localStorage w !! key).
Proof.
  split; [|split; [|split; [|split]]].
  - intros id w Hne. cbn. eexists.
    apply getStoredCredentialId_stored; [|exact Hne].
    cbn. apply lookup_insert_eq.
  - intros id1 id2 w Hne. cbn. eexists.
    apply getStoredCredentialId_stored; [|exact Hne].
    cbn. apply lookup_insert_eq.
  - intros id w. cbn.
    match goal with
    | |- context [getStoredCredentialId ?w1] =>
        assert (Hnone : localStorage w1 !! CREDENTIAL_STORAGE_KEY = None)
          by (cbn; apply lookup_delete_eq);
        exists w1
    end.
    split; [|split; [reflexivity | exact Hnone]].
    unfold getStoredCredentialId. cbn in *. rewrite Hnone. reflexivity.
  - intros w. cbn. eexists. split.
    + unfold getStoredCredentialId. cbn. rewrite lookup_insert_eq. reflexivity.
    + cbn. apply lookup_insert_eq.
  - intros id w key Hkey. cbn. eexists. split; [reflexivity|].
    cbn. apply lookup_insert_ne. congruence.
Qed.

Lemma credential_store_is_one_slot_witness :
  exists w',
    (storeCredentialId [Byte.x0a] ;; storeCredentialId [Byte.xff; Byte.x00] ;;
     getStoredCredentialId) freshWorld
    = Done w' (Return (Some [Byte.xff; Byte.x00])).
Proof.
  destruct credential_store_is_one_slot as (_ & Htwice & _).
  apply (Htwice [Byte.x0a] [Byte.xff; Byte.x00] freshWorld).
  discriminate.
Defined.

Lemma filter_all_whitespace l :
  forallb Base64.is_ascii_whitespace l = true ->
  List.filter (fun c => negb (Base64.is_ascii_whitespace c)) l = [].
Proof.
  induction l as [|c l IH]; cbn; [reflexivity|].
  intros H. apply andb_prop in H as [Hc Hl]. rewrite Hc. cbn. exact (IH Hl).
Qed.

(** X3.  [getStoredCredentialId] never raises and never writes the store.
    A stored string that is not base64 is reported as "nothing stored",
    with one [console.error], and is left in place; the gesture handler
    then takes the registration path.  A stored string made of ASCII
    whitespace only decodes to the empty identifier, which counts as a
    stored credential. *)
Theorem unreadable_stored_credential_is_ignored :
  (forall w, exists w' o,
      getStoredCredentialId w = Done w' (Return o) /\
      localStorage w' = localStorage w) /\
  (forall w stored,
      localStorage w !! CREDENTIAL_STORAGE_KEY = Some stored ->
      stored <> EmptyString ->
      atob stored = None ->
      getStoredCredentialId w
      = Done (console_push
                (ConsoleError "Failed to parse stored credential:") w)
          (Return None) /\
      (isAuthenticating w = false ->
       checkWebAuthnSupport w = true ->
       exists options,
         first_suspension (handleWebAuthnAuthentication w)
         = Some (CredentialsCreate options))) /\
  (forall w stored,
      localStorage w !! CREDENTIAL_STORAGE_KEY = Some stored ->
      stored <> EmptyString ->
      forallb Base64.is_ascii_whitespace (list_ascii_of_string stored) = true ->
      getStoredCredentialId w = Done w (Return (Some []))).
Proof.
  split; [|split].
  - intros w. destruct (getStoredCredentialId_done w)
      as (w' & o & E & _ & Hl & _).
    exists w', o. split; assumption.
  - intros w stored Hst Hne Hbad.
    apply String.eqb_neq in Hne.
    assert (Hnone : stored_credential w = None).
    { unfold stored_credential, base64ToUint8Array.
      rewrite Hst, Hne, Hbad. reflexivity. }
    split.
    + unfold getStoredCredentialId, base64ToUint8Array. cbn.
      rewrite Hst, Hne, Hbad. reflexivity.
    + intros Hb Hs.
      destruct (handler_suspends_on_credential_call w Hb Hs)
        as (w1 & op & k & E & _ & _ & Hop).
      rewrite Hnone in Hop. destruct Hop as [options ->].
      exists options. rewrite E. reflexivity.
  - intros w stored Hst Hne Hws.
    apply String.eqb_neq in Hne.
    unfold getStoredCredentialId, base64ToUint8Array, atob, Base64.decode.
    cbn. rewrite Hst, Hne. rewrite (filter_all_whitespace _ Hws).
    reflexivity.
Qed.

Lemma unreadable_stored_credential_is_ignored_witness :
  getStoredCredentialId
    (initialWorld fullEnv {[ CREDENTIAL_STORAGE_KEY := "not base64!" ]})
  = Done (console_push
            (ConsoleError "Failed to parse stored credential:")
            (initialWorld fullEnv
               {[ CREDENTIAL_STORAGE_KEY := "not base64!" ]}))
      (Return None) /\
  getStoredCredentialId
    (initialWorld fullEnv {[ CREDENTIAL_STORAGE_KEY := "  " ]})
  = Done (initialWorld fullEnv {[ CREDENTIAL_STORAGE_KEY := "  " ]})
      (Return (Some [])).
Proof.
  destruct unreadable_stored_credential_is_ignored as (_ & Hbad & Hws).
  split.
  - apply (Hbad _ "not base64!"); [reflexivity | discriminate | reflexivity].
  - apply (Hws _ "  "); [reflexivity | discriminate | reflexivity].
Defined.

(** ** webauthn.ts: the base64 helpers *)

Lemma to_sextets_padding_length bs :
  length (Base64.to_sextets bs) + length (Base64.padding bs)
  = 4 * ((length bs + 2) / 3).
Proof.
  induction bs as [| [] | [] [] | [] [] [] l IH] using list_ind3;
    try reflexivity.
  cbn [Base64.to_sextets Base64.padding length].
  replace (S (S (S (length l))) + 2) with (length l + 2 + 1 * 3) by lia.
  rewrite Nat.div_add by discriminate. lia.
Qed.

Lemma string_length_list (l : list ascii) :
  String.length (string_of_list_ascii l) = length l.
Proof. induction l as [|c l IH]; cbn; [reflexivity | rewrite IH; reflexivity]. Qed.

(** X4.  [uint8ArrayToBase64] followed by [base64ToUint8Array] gives the
    bytes back, whatever they are, so different identifiers are stored as
    different strings; the stored string has four characters for every
    three bytes, rounded up. *)
Theorem base64_helpers_round_trip :
  (forall bytes, base64ToUint8Array (uint8ArrayToBase64 bytes) = Some bytes) /\
  (forall a b, uint8ArrayToBase64 a = uint8ArrayToBase64 b -> a = b) /\
  (forall bytes,
      String.length (uint8ArrayToBase64 bytes) = 4 * ((length bytes + 2) / 3)).
Proof.
  split; [exact base64_bytes_roundtrip|]. split.
  - intros a b H.
    pose proof (base64_bytes_roundtrip a) as Ha. rewrite H in Ha.
    rewrite base64_bytes_roundtrip in Ha. congruence.
  - intros bytes. unfold uint8ArrayToBase64, btoa, Base64.encode.
    rewrite string_length_list, list_ascii_of_string_of_list_ascii.
    rewrite length_app, length_map, to_sextets_padding_length, length_map.
    reflexivity.
Qed.

Lemma base64_helpers_round_trip_witness :
  [Byte.x01; Byte.x02] = [Byte.x01; Byte.x02].
Proof.
  apply (proj1 (proj2 base64_helpers_round_trip)). reflexivity.
Defined.

(** ** webauthn.ts: what is asked of the platform *)

(** X5.  The request [registerCredential] makes: a challenge of 32 bytes
    and a user id of 16 bytes, drawn one after the other from the random
    source, so that no byte of it serves twice; the relying-party id is the
    host name in every case (the test for [localhost] changes nothing);
    a platform authenticator with user verification, within 60 seconds.
    [authenticateUser] draws a 32-byte challenge the same way. *)
Theorem credential_requests_are_well_formed :
  (forall w,
      checkWebAuthnSupport w = true ->
      exists w1 options k,
        registerCredential w = Suspend w1 (CredentialsCreate options) k /\
        create_challenge options = random_bytes w (entropyUsed w) 32 /\
        length (create_challenge options) = 32 /\
        user_id options = random_bytes w (entropyUsed w + 32) 16 /\
        length (user_id options) = 16 /\
        entropyUsed w1 = entropyUsed w + 48 /\
        rp_id options = hostname (env w) /\
        authenticatorAttachment options = "platform" /\
        create_userVerification options = "required" /\
        create_timeout options = 60000%Z) /\
  (forall w id,
      checkWebAuthnSupport w = true ->
      stored_credential w = Some id ->
      exists w1 options k,
        authenticateUser w = Suspend w1 (CredentialsGet options) k /\
        get_challenge options = random_bytes w (entropyUsed w) 32 /\
        length (get_challenge options) = 32 /\
        entropyUsed w1 = entropyUsed w + 32 /\
        get_userVerification options = "required" /\
        get_timeout options = 60000%Z).
Proof.
  split.
  - intros w Hs.
    destruct (registerCredential_supported w Hs) as (k & -> & _).
    eexists _, _, k. split; [reflexivity|]. cbn.
    unfold random_bytes. rewrite ?length_map, ?length_seq.
    repeat split; try lia.
    destruct (String.eqb_spec (hostname (env w)) "localhost") as [->|_];
      reflexivity.
  - intros w id Hs Hid.
    destruct (authenticateUser_supported w id Hs
                (getStoredCredentialId_some w id Hid)) as (k & -> & _).
    eexists _, _, k. split; [reflexivity|]. cbn.
    unfold random_bytes. rewrite ?length_map, ?length_seq.
    repeat split; lia.
Qed.

Lemma credential_requests_are_well_formed_witness :
  exists w1 options k,
    registerCredential freshWorld = Suspend w1 (CredentialsCreate options) k /\
    rp_id options = "localhost" /\ entropyUsed w1 = 48.
Proof.
  destruct credential_requests_are_well_formed as (Hreg & _).
  destruct (Hreg freshWorld eq_refl)
    as (w1 & options & k & E & _ & _ & _ & _ & Hu & Hrp & _).
  exists w1, options, k. split; [exact E|]. split; [exact Hrp | exact Hu].
Defined.

(** ** Browser detection *)

Lemma toLowerCase_char_idempotent c :
  toLowerCase_char (toLowerCase_char c) = toLowerCase_char c.
Proof. destruct c as [[] [] [] [] [] [] [] []]; reflexivity. Qed.

Lemma toLowerCase_idempotent s : toLowerCase (toLowerCase s) = toLowerCase s.
Proof.
  induction s as [|c s IH]; cbn; [reflexivity|].
  rewrite toLowerCase_char_idempotent, IH. reflexivity.
Qed.

(** X6.  [detectBrowser] and [detectWebAuthnBrowser] name the same browser
    for every user agent, and neither depends on the case of the user
    agent.  The tests are tried in a fixed order: a user agent with "edg/"
    is Edge whatever else it holds; "chrome" counts only without "edg";
    so a user agent with "edg" but not "edg/" (Edge on Android sends
    "EdgA/") is never Chrome or Edge, and is named Safari when it holds
    "safari" and not "firefox".  Every answer carries at least three
    instructions. *)
Theorem browser_detection_order :
  (forall ua,
      browser_name (detectWebAuthnBrowser ua) = browser_name (detectBrowser ua)) /\
  (forall ua,
      detectBrowser (toLowerCase ua) = detectBrowser ua /\
      detectWebAuthnBrowser (toLowerCase ua) = detectWebAuthnBrowser ua) /\
  (forall ua,
      includes (toLowerCase ua) "edg/" = true ->
      browser_name (detectBrowser ua) = Edge) /\
  (forall ua,
      browser_name (detectBrowser ua) = Chrome ->
      includes (toLowerCase ua) "chrome" = true /\
      includes (toLowerCase ua) "edg" = false) /\
  (forall ua,
      includes (toLowerCase ua) "edg" = true ->
      includes (toLowerCase ua) "edg/" = false ->
      includes (toLowerCase ua) "firefox" = false ->
      includes (toLowerCase ua) "safari" = true ->
      browser_name (detectBrowser ua) = Safari) /\
  (forall ua,
      3 <= length (instructions (detectBrowser ua)) /\
      3 <= length (instructions (detectWebAuthnBrowser ua))) /\
  (forall ua,
      includes (toLowerCase ua) "edg" = true ->
      includes (toLowerCase ua) "edg/" = false ->
      browser_name (detectBrowser ua) <> Chrome /\
      browser_name (detectBrowser ua) <> Edge).
Proof.
  split; [|split; [|split; [|split; [|split; [|split]]]]].
  - intros ua. unfold detectBrowser, detectWebAuthnBrowser. cbv zeta.
    repeat match goal with
      | |- context [if ?b then _ else _] => destruct b
      end; reflexivity.
  - intros ua. unfold detectBrowser, detectWebAuthnBrowser. cbv zeta.
    rewrite toLowerCase_idempotent. split; reflexivity.
  - intros ua H. unfold detectBrowser. cbv zeta. rewrite H. reflexivity.
  - intros ua. unfold detectBrowser. cbv zeta.
    destruct (includes (toLowerCase ua) "edg/"); [discriminate|].
    destruct (includes (toLowerCase ua) "chrome"); cbn.
    + destruct (includes (toLowerCase ua) "edg"); cbn; [|auto].
      destruct (includes (toLowerCase ua) "firefox"); [discriminate|].
      destruct (includes (toLowerCase ua) "safari"); discriminate.
    + destruct (includes (toLowerCase ua) "firefox"); [discriminate|].
      destruct (includes (toLowerCase ua) "safari"); discriminate.
  - intros ua Hedg Hslash Hff Hsaf. unfold detectBrowser. cbv zeta.
    rewrite Hslash, Hedg, Hff, Hsaf, andb_false_r. reflexivity.
  - intros ua. unfold detectBrowser, detectWebAuthnBrowser. cbv zeta.
    repeat match goal with
      | |- context [if ?b then _ else _] => destruct b
      end; cbn; lia.
  - intros ua Hedg Hslash. unfold detectBrowser. cbv zeta.
    rewrite Hslash, Hedg, andb_false_r.
    destruct (includes (toLowerCase ua) "firefox");
      [split; discriminate|].
    destruct (includes (toLowerCase ua) "safari"); split; discriminate.
Qed.

Lemma browser_detection_order_witness :
  browser_name (detectBrowser edgeDesktopUserAgent) = Edge /\
  browser_name (detectBrowser edgeAndroidUserAgent) = Safari /\
  includes (toLowerCase chromeUserAgent) "edg" = false.
Proof.
  destruct browser_detection_order as (_ & _ & Hedge & Hchrome & Hsafari & _).
  split; [|split].
  - apply Hedge. vm_compute. reflexivity.
  - apply Hsafari; vm_compute; reflexivity.
  - apply (Hchrome chromeUserAgent). vm_compute. reflexivity.
Defined.

(** ** main.ts: messages *)

(** [showError] writes the error banner and the help panel, nothing else. *)
Lemma showError_frame error w :
  exists e' h',
    showError error w
    = set_dom (Build_Dom (video_srcObject (dom w)) (video (dom w))
                 (toggleButton (dom w)) (webauthnButton (dom w))
                 (statusMessage (dom w)) e' h') w /\
    ("hidden" ∉ classList e') /\
    content e' = ("<strong>Error:</strong> " ++ error_message error)%string /\
    (h' = helpInstructions (dom w) \/ "hidden" ∉ classList h').
Proof.
  unfold showError. cbn.
  assert (Hnot : forall cl : gset string, "hidden" ∉ cl ∖ {[ "hidden" ]})
    by (intros cl; rewrite elem_of_difference, elem_of_singleton; tauto).
  destruct (type_is error "permission-denied"); cbn;
    [|destruct (type_is error "not-allowed" || type_is error "not-supported");
      cbn];
    eexists _, _; (split; [reflexivity|]); cbn;
    (split; [apply Hnot|]); (split; [reflexivity|]);
    first [left; reflexivity | right; apply Hnot].
Qed.

(** X7.  [showError] always shows the error banner with the error's
    message.  The help panel is shown for three [type] strings only:
    camera help for [permission-denied], biometric help for [not-allowed]
    and for [not-supported] - so also for a camera error of type
    [not-supported]; for every other error the help panel is left as it
    was.  Nothing else on the page or in the program state changes. *)
Theorem showError_help_policy error w :
  let w' := showError error w in
  ("hidden" ∉ classList (errorMessage (dom w'))) /\
  content (errorMessage (dom w'))
  = ("<strong>Error:</strong> " ++ error_message error)%string /\
  match error with
  | CameraError CamPermissionDenied _ _ =>
      ("hidden" ∉ classList (helpInstructions (dom w'))) /\
      content (helpInstructions (dom w')) = cameraHelp (env w)
  | CameraError CamNotSupported _ _
  | WebAuthnError WaNotAllowed _ _
  | WebAuthnError WaNotSupported _ _ =>
      ("hidden" ∉ classList (helpInstructions (dom w'))) /\
      content (helpInstructions (dom w')) = webauthnHelp (env w)
  | _ => helpInstructions (dom w') = helpInstructions (dom w)
  end /\
  set_dom (dom w) w' = w /\
  (video_srcObject (dom w'), video (dom w'), toggleButton (dom w'),
   webauthnButton (dom w'), statusMessage (dom w'))
  = (video_srcObject (dom w), video (dom w), toggleButton (dom w),
     webauthnButton (dom w), statusMessage (dom w)).
Proof.
  assert (Hnot : forall cl : gset string, "hidden" ∉ cl ∖ {[ "hidden" ]})
    by (intros cl; rewrite elem_of_difference, elem_of_singleton; tauto).
  cbv zeta. unfold showError.
  destruct error as [n m | [] m o | [] m o]; cbn;
    repeat split; try apply Hnot; destruct w; reflexivity.
Qed.

(** ** main.ts: the camera button *)

(** The [catch] block of [requestCameraAccess] produces four kinds only. *)
Lemma classifyCameraError_shape err :
  exists k msg,
    classifyCameraError err = CameraError k msg (Some err) /\
    k <> CamNotSupported.
Proof.
  unfold classifyCameraError.
  repeat match goal with
    | |- context [if ?b then _ else _] => destruct b
    end; eexists _, _; (split; [reflexivity | discriminate]).
Qed.

Lemma hidden_after_add (cl : gset string) : "hidden" ∈ {[ "hidden" ]} ∪ cl.
Proof. apply elem_of_union_l, elem_of_singleton. reflexivity. Qed.

Lemma not_elem_after_remove (c : string) (cl : gset string) : c ∉ cl ∖ {[ c ]}.
Proof. rewrite elem_of_difference, elem_of_singleton. tauto. Qed.

Lemma elem_after_add (c : string) (cl : gset string) : c ∈ {[ c ]} ∪ cl.
Proof. apply elem_of_union_l, elem_of_singleton. reflexivity. Qed.

(** What [startCamera] leaves behind when the request fails with [err]. *)
Lemma startCamera_failure_world err w0 :
  let w' :=
    set_isCameraActive false
      (on_video (classList_remove "active")
         (on_toggleButton (classList_remove "active")
            (on_toggleButton (set_disabled false)
               (on_toggleButton (set_content "Enable Camera")
                  (showError (classifyCameraError err) (hideMessages w0))))))
  in
  isCameraActive w' = false /\
  currentStream w' = currentStream w0 /\
  liveTracks w' = liveTracks w0 /\
  video_srcObject (dom w') = video_srcObject (dom w0) /\
  content (toggleButton (dom w')) = "Enable Camera" /\
  disabled (toggleButton (dom w')) = false /\
  ("active" ∉ classList (toggleButton (dom w'))) /\
  ("active" ∉ classList (video (dom w'))) /\
  ("hidden" ∉ classList (errorMessage (dom w'))) /\
  content (errorMessage (dom w'))
  = ("<strong>Error:</strong> "
       ++ error_message (classifyCameraError err))%string /\
  ("hidden" ∈ classList (helpInstructions (dom w')) <->
   camera_kind (classifyCameraError err) <> Some CamPermissionDenied) /\
  ("hidden" ∈ classList (statusMessage (dom w'))).
Proof.
  destruct (classifyCameraError_shape err) as (k & msg & -> & Hk).
  cbv zeta. unfold showError.
  destruct k; try contradiction; cbn;
    repeat split;
    try apply not_elem_after_remove; try apply hidden_after_add;
    try discriminate; try congruence;
    try (intros _; apply hidden_after_add);
    intros H; exfalso; exact (not_elem_after_remove _ _ H).
Qed.

(** X8.  [startCamera] never raises.  When the platform grants a stream,
    the camera is marked active, the stream is tracked, shown in the video
    element and live, the button reads "Stop Camera" and is enabled, and
    all messages are hidden.  When the request fails, or the camera API is
    absent, the camera is marked inactive, the tracked stream and the video
    are left as they were, the button reads "Enable Camera" and is enabled,
    the error banner shows the classified message, and the help panel is
    shown for [permission-denied] only - so not when the API is absent. *)
Theorem startCamera_outcome a w :
  let '(w', c) := run (alone a) (startCamera w) in
  c = Return tt /\
  if camera_supported w then
    match a (GetUserMedia cameraConstraints) with
    | Fulfilled s =>
        isCameraActive w' = true /\
        currentStream w' = Some s /\
        video_srcObject (dom w') = Some s /\
        (forall t, t ∈ getTracks s -> t ∈ liveTracks w') /\
        content (toggleButton (dom w')) = "Stop Camera" /\
        disabled (toggleButton (dom w')) = false /\
        ("active" ∈ classList (toggleButton (dom w'))) /\
        ("active" ∈ classList (video (dom w'))) /\
        ("hidden" ∈ classList (errorMessage (dom w'))) /\
        ("hidden" ∈ classList (helpInstructions (dom w'))) /\
        ("hidden" ∈ classList (statusMessage (dom w')))
    | Rejected n m =>
        isCameraActive w' = false /\
        currentStream w' = currentStream w /\
        liveTracks w' = liveTracks w /\
        video_srcObject (dom w') = video_srcObject (dom w) /\
        content (toggleButton (dom w')) = "Enable Camera" /\
        disabled (toggleButton (dom w')) = false /\
        ("active" ∉ classList (toggleButton (dom w'))) /\
        ("active" ∉ classList (video (dom w'))) /\
        ("hidden" ∉ classList (errorMessage (dom w'))) /\
        content (errorMessage (dom w'))
        = ("<strong>Error:</strong> "
             ++ error_message (classifyCameraError (DomError n m)))%string /\
        ("hidden" ∈ classList (helpInstructions (dom w')) <->
         camera_kind (classifyCameraError (DomError n m))
         <> Some CamPermissionDenied) /\
        ("hidden" ∈ classList (statusMessage (dom w')))
    end
  else
    isCameraActive w' = false /\
    currentStream w' = currentStream w /\
    content (toggleButton (dom w')) = "Enable Camera" /\
    disabled (toggleButton (dom w')) = false /\
    ("hidden" ∉ classList (errorMessage (dom w'))) /\
    content (errorMessage (dom w'))
    = "<strong>Error:</strong> Unable to access camera: Camera access is not supported in this browser. Please use a modern browser like Chrome, Firefox, Safari, or Edge." /\
    ("hidden" ∈ classList (helpInstructions (dom w'))) /\
    video_srcObject (dom w') = video_srcObject (dom w) /\
    liveTracks w' = liveTracks w /\
    ("active" ∉ classList (toggleButton (dom w'))) /\
    ("active" ∉ classList (video (dom w'))) /\
    ("hidden" ∈ classList (statusMessage (dom w'))).
Proof.
  unfold startCamera. cbn.
  destruct (camera_supported w) eqn:Hs.
  - match goal with
    | |- context [requestCameraAccess ?w0] =>
        destruct (requestCameraAccess_supported w0 Hs) as (k & -> & Hok & Hko)
    end.
    cbn. destruct (a (GetUserMedia cameraConstraints)) as [s | n m].
    + rewrite Hok. cbn. split; [reflexivity|].
      repeat split; try apply elem_after_add; try apply hidden_after_add.
      intros t Ht. apply elem_of_union_l, elem_of_list_to_set, Ht.
    + rewrite Hko. cbn. split; [reflexivity|].
      match goal with
      | |- context [showError _ (hideMessages ?w0)] =>
          pose proof (startCamera_failure_world (DomError n m) w0) as H
      end.
      cbv zeta in H. cbn in H. exact H.
  - match goal with
    | |- context [requestCameraAccess ?w0] =>
        rewrite (requestCameraAccess_unsupported w0 Hs)
    end.
    cbn. split; [reflexivity|].
    repeat split;
      try apply not_elem_after_remove; try apply hidden_after_add.
Qed.

(** What a granted camera request leaves behind [startCamera]. *)
Lemma startCamera_granted_world (a : Answers) w (s : MediaStream) :
  isCameraActive w = false ->
  camera_supported w = true ->
  a (GetUserMedia cameraConstraints) = Fulfilled s ->
  let w1 := fst (run (alone a) (toggleCamera w)) in
  isCameraActive w1 = true /\
  currentStream w1 = Some s /\
  liveTracks w1 = list_to_set (getTracks s) ∪ liveTracks w /\
  disabled (toggleButton (dom w1)) = false.
Proof.
  intros Hoff Hs Ha. cbv zeta.
  assert (E1 : toggleCamera w = startCamera w)
    by (unfold toggleCamera; rewrite Hoff; reflexivity).
  rewrite E1. unfold startCamera. cbn.
  match goal with
  | |- context [requestCameraAccess ?w0] =>
      destruct (requestCameraAccess_supported w0 Hs) as (k & -> & Hok & _)
  end.
  cbn. rewrite Ha, Hok. cbn. repeat split.
Qed.

(** X9.  Camera on, then off.  With the camera off, a click requests the
    camera; once the platform has granted the stream [s], the next click
    stops it without awaiting anything: nothing is tracked any more, the
    video element is empty, the tracks of [s] are stopped and all other
    tracks are as they were before the first click, the button reads
    "Enable Camera" again and every message is hidden. *)
Theorem camera_on_then_off (a : Answers) w (s : MediaStream) :
  isCameraActive w = false ->
  camera_supported w = true ->
  a (GetUserMedia cameraConstraints) = Fulfilled s ->
  let w1 := fst (run (alone a) (toggleCamera w)) in
  let w2 := fst (run (alone a) (toggleCamera w1)) in
  first_suspension (toggleCamera w1) = None /\
  isCameraActive w2 = false /\
  currentStream w2 = None /\
  video_srcObject (dom w2) = None /\
  (forall t, t ∈ liveTracks w2 <-> t ∈ liveTracks w /\ t ∉ getTracks s) /\
  content (toggleButton (dom w2)) = "Enable Camera" /\
  disabled (toggleButton (dom w2)) = false /\
  ("active" ∉ classList (toggleButton (dom w2))) /\
  ("active" ∉ classList (video (dom w2))) /\
  ("hidden" ∈ classList (errorMessage (dom w2))) /\
  ("hidden" ∈ classList (helpInstructions (dom w2))) /\
  ("hidden" ∈ classList (statusMessage (dom w2))).
Proof.
  intros Hoff Hs Ha. cbv zeta.
  pose proof (startCamera_granted_world a w s Hoff Hs Ha) as H.
  cbv zeta in H. revert H.
  generalize (fst (run (alone a) (toggleCamera w))).
  intros w1 (Hon & Hcur & Hlive & Hdis).
  unfold toggleCamera. rewrite Hon. cbn.
  unfold handleStopCamera, stopCamera. rewrite Hcur. cbn.
  split; [reflexivity|].
  repeat split;
    try assumption;
    try apply not_elem_after_remove; try apply hidden_after_add.
  - apply elem_of_stop_tracks in H as [Ht Hnot]. rewrite Hlive in Ht.
    apply elem_of_union in Ht as [Ht | Ht]; [|exact Ht].
    apply elem_of_list_to_set in Ht. contradiction.
  - apply elem_of_stop_tracks in H as [_ Hnot]. exact Hnot.
  - intros [Ht Hnot]. apply elem_of_stop_tracks.
    split; [rewrite Hlive; apply elem_of_union_r, Ht | exact Hnot].
Qed.

Lemma camera_on_then_off_witness :
  currentStream
    (fst (run (alone (answers (Fulfilled None) (Fulfilled stream1)))
            (toggleCamera
               (fst (run (alone (answers (Fulfilled None) (Fulfilled stream1)))
                       (toggleCamera freshWorld)))))) = None.
Proof.
  destruct (camera_on_then_off (answers (Fulfilled None) (Fulfilled stream1))
              freshWorld stream1 eq_refl eq_refl eq_refl)
    as (_ & _ & H & _).
  exact H.
Defined.

(** ** main.ts: nothing escapes the listeners *)

Lemma previewCamera_never_throws warning w :
  never_throws (previewCamera warning w).
Proof.
  unfold previewCamera. cbn. camera_cases Hok Hko; [|exact I].
  intros [s | n m] w'; [rewrite Hok | rewrite Hko]; exact I.
Qed.

Lemma startCamera_never_throws w : never_throws (startCamera w).
Proof.
  unfold startCamera. cbn. camera_cases Hok Hko; [|exact I].
  intros [s | n m] w'; [rewrite Hok | rewrite Hko]; exact I.
Qed.

Lemma handler_never_throws w : never_throws (handleWebAuthnAuthentication w).
Proof.
  destruct (isAuthenticating w) eqn:Hb; [rewrite (handler_guard w Hb); exact I|].
  destruct (checkWebAuthnSupport w) eqn:Hs.
  2: { unfold handleWebAuthnAuthentication. rewrite Hb.
       unfold handlerTry. cbn. same_support w. rewrite Hs. exact I. }
  to_credential_call w Hb Hs.
  destruct (stored_credential w) as [id|] eqn:Hid; cbn.
  - rewrite (Hw ltac:(discriminate)) in *. clear Hw E.
    match goal with
    | |- context [authenticateUser ?w3] =>
        destruct (authenticateUser_supported w3 id Hs
                    (getStoredCredentialId_some w3 id Hid))
          as (k & -> & Hok & Hnull & Hko)
    end.
    cbn. intros [[c|] | n m] w4; cbn;
      [rewrite Hok | rewrite Hnull | rewrite Hko]; cbn; try exact I.
    unfold previewCamera. cbn. camera_cases Hcok Hcko; [|exact I].
    intros [s | n m] w6; [rewrite Hcok | rewrite Hcko]; exact I.
  - match goal with
    | |- context [registerCredential ?w3] =>
        destruct (registerCredential_supported w3)
          as (k & -> & Hok & Hnull & Hko)
    end.
    { rewrite <- Hs. apply checkWebAuthnSupport_env. exact He. }
    cbn. intros [[c|] | n m] w4; cbn;
      [rewrite Hok | rewrite Hnull | rewrite Hko]; cbn; try exact I.
    unfold previewCamera. cbn. camera_cases Hcok Hcko; [|exact I].
    intros [s | n m] w6; [rewrite Hcok | rewrite Hcko]; exact I.
Qed.

Lemma never_throws_run {A} (s : Step A) :
  never_throws s -> forall sch, exists w a, run sch s = (w, Return a).
Proof.
  induction s as [w c | w op k IH]; intros H sch.
  - destruct c; [eauto | contradiction].
  - cbn. apply IH, H.
Qed.

(** X10.  The two click listeners never raise: whatever the platform
    answers and whatever happens during the waits, the biometric handler
    and the camera toggle (and [startCamera] and the preview inside them)
    end normally.  The gateways below them do raise: a refused camera
    request ends [requestCameraAccess] with an error. *)
Theorem listeners_never_raise :
  (forall w, never_throws (handleWebAuthnAuthentication w)) /\
  (forall w, never_throws (toggleCamera w)) /\
  (forall w, never_throws (startCamera w)) /\
  (forall warning w, never_throws (previewCamera warning w)) /\
  (forall sch w, exists w',
      run sch (handleWebAuthnAuthentication w) = (w', Return tt)) /\
  (forall sch w, exists w', run sch (toggleCamera w) = (w', Return tt)) /\
  ~ (forall w, never_throws (requestCameraAccess w)).
Proof.
  assert (Htoggle : forall w, never_throws (toggleCamera w)).
  { intros w. unfold toggleCamera. destruct (isCameraActive w);
      [exact I | apply startCamera_never_throws]. }
  split; [exact handler_never_throws|]. split; [exact Htoggle|].
  split; [exact startCamera_never_throws|].
  split; [exact previewCamera_never_throws|].
  split; [|split].
  - intros sch w.
    destruct (never_throws_run _ (handler_never_throws w) sch) as (w' & [] & E).
    exists w'. exact E.
  - intros sch w.
    destruct (never_throws_run _ (Htoggle w) sch) as (w' & [] & E).
    exists w'. exact E.
  - intros H. specialize (H (initialWorld noCameraEnv ∅)). exact H.
Qed.

(** ** main.ts: how a gesture ends *)

(** The store lookup leaves the world as it is, but for the console. *)
Lemma getStoredCredentialId_console w :
  exists l,
    getStoredCredentialId w
    = Done (set_console l w) (Return (stored_credential w)).
Proof.
  assert (Heta : set_console (console w) w = w) by (destruct w; reflexivity).
  unfold getStoredCredentialId, stored_credential. cbn.
  destruct (localStorage w !! CREDENTIAL_STORAGE_KEY) as [stored|]; cbn;
    [|exists (console w); rewrite Heta; reflexivity].
  destruct (String.eqb stored EmptyString); cbn;
    [exists (console w); rewrite Heta; reflexivity|].
  destruct (base64ToUint8Array stored); cbn;
    [exists (console w); rewrite Heta; reflexivity|].
  eexists. reflexivity.
Qed.

(** [stopCamera] writes the tracked stream and the live tracks only. *)
Lemma stopCamera_open w :
  exists live, stopCamera w = set_currentStream None (set_liveTracks live w).
Proof.
  unfold stopCamera. destruct (currentStream w) eqn:Hcur.
  - eexists. reflexivity.
  - exists (liveTracks w). destruct w. cbn in *. rewrite Hcur. reflexivity.
Qed.

Ltac open_stopCamera :=
  match goal with
  | |- context [stopCamera ?w0] =>
      let live := fresh "live" in
      let E := fresh "E" in
      destruct (stopCamera_open w0) as (live & E); rewrite E; clear E; cbn
  end.

(** The store lookup writes the console only, and nothing when it finds an
    identifier. *)
Lemma getStoredCredentialId_frame w :
  exists w',
    getStoredCredentialId w = Done w' (Return (stored_credential w)) /\
    (stored_credential w <> None -> w' = w) /\
    env w' = env w /\
    dom w' = dom w /\
    localStorage w' = localStorage w /\
    timers w' = timers w /\
    currentStream w' = currentStream w /\
    liveTracks w' = liveTracks w /\
    isCameraActive w' = isCameraActive w /\
    isAuthenticated w' = isAuthenticated w /\
    isAuthenticating w' = isAuthenticating w /\
    entropyUsed w' = entropyUsed w.
Proof.
  destruct (getStoredCredentialId_console w) as (l & E).
  destruct (getStoredCredentialId_spec w) as (w' & E' & _ & _ & _ & _ & Hw).
  exists (set_console l w). split; [exact E|].
  split; [|repeat split].
  intros H. rewrite <- (Hw H) at 2. congruence.
Qed.

(** As [to_credential_call], keeping what the store lookup leaves alone:
    [w2] is the world after the lookup, [Hw] says it is the world before
    when an identifier was found, [Hfr] what it shares with it anyway. *)
Ltac to_credential_call_frame w Hb Hs w2 Hw Hfr :=
  unfold handleWebAuthnAuthentication; rewrite Hb;
  unfold handlerTry; cbn; same_support w; rewrite Hs; cbn;
  let E := fresh "E" in
  match goal with
  | |- context [getStoredCredentialId ?w1] =>
      destruct (getStoredCredentialId_frame w1) as (w2 & E & Hw & Hfr);
      change (stored_credential w1) with (stored_credential w) in *
  end;
  rewrite E; clear E; cbn.

(** Opens the [showError] in the goal into the banner and panel it
    writes. *)
Ltac open_showError :=
  match goal with
  | |- context [showError ?err ?w0] =>
      let e' := fresh "e'" in
      let h' := fresh "h'" in
      let E := fresh "E" in
      let He := fresh "He'" in
      destruct (showError_frame err w0) as (e' & h' & E & He & _ & _);
      rewrite E; clear E; cbn
  end.

(** What the [catch] block of the handler leaves behind. *)
Lemma handlerCatch_outcome err w0 :
  exists w1,
    handlerCatch err w0 = Done w1 (Return tt) /\
    isAuthenticating w1 = isAuthenticating w0 /\
    isAuthenticated w1 = false /\
    content (webauthnButton (dom w1)) = "Authenticate with FaceID" /\
    disabled (webauthnButton (dom w1)) = disabled (webauthnButton (dom w0)) /\
    ("authenticated" ∉ classList (webauthnButton (dom w1))) /\
    ("hidden" ∉ classList (errorMessage (dom w1))) /\
    statusMessage (dom w1) = statusMessage (dom w0) /\
    video_srcObject (dom w1) = None /\
    (video_srcObject (dom w0) <> None -> currentStream w1 = None) /\
    (video_srcObject (dom w0) = None ->
     currentStream w1 = currentStream w0) /\
    isCameraActive w1 = isCameraActive w0 /\
    toggleButton (dom w1) = toggleButton (dom w0) /\
    localStorage w1 = localStorage w0 /\
    timers w1 = timers w0 /\
    (video_srcObject (dom w0) <> None ->
     forall t,
       t ∈ liveTracks w1 <->
       t ∈ liveTracks w0 /\
       forall cur, currentStream w0 = Some cur -> t ∉ getTracks cur) /\
    (video_srcObject (dom w0) = None -> liveTracks w1 = liveTracks w0).
Proof.
  unfold handlerCatch. cbn. eexists. split; [reflexivity|].
  destruct (showError_frame err w0) as (e' & h' & E & He & _ & _).
  rewrite E. clear E. cbn.
  destruct (video_srcObject (dom w0)) eqn:Hv; cbn.
  - unfold stopCamera. cbn.
    destruct (currentStream w0) as [cur|] eqn:Hcur; cbn;
      repeat lazymatch goal with |- _ /\ _ => split end;
      try assumption; try reflexivity; try apply not_elem_after_remove;
      try (intros H; discriminate H);
      try (intros _; exact Hcur); intros _ t.
    + rewrite elem_of_stop_tracks. split.
      * intros [Ht Hnot]. split; [exact Ht|]. intros cur' [= <-]. exact Hnot.
      * intros [Ht Hnot]. split; [exact Ht | exact (Hnot cur eq_refl)].
    + split; [intros Ht; split; [exact Ht | intros cur' [=]] | tauto].
  - repeat lazymatch goal with |- _ /\ _ => split end;
      try assumption; try reflexivity; try apply not_elem_after_remove;
      intros H; exfalso; apply H; reflexivity.
Qed.

#[local] Arguments handlerCatch : simpl never.

(** Replaces the [catch] block in the goal by the world it leaves; the
    hypotheses named by the arguments say what that world shares with the
    one the block started in. *)
Ltac failure_open Hstatus Hstop Hkeep Hactive Htoggle Hstore Htimers
    Hrel Hsame :=
  cbn;
  match goal with
  | |- context [handlerCatch ?err ?w0] =>
      let w1 := fresh "w1" in
      let E := fresh "E" in
      destruct (handlerCatch_outcome err w0)
        as (w1 & E & _ & ? & ? & _ & ? & ? & Hstatus & ? & Hstop & Hkeep
            & Hactive & Htoggle & Hstore & Htimers & Hrel & Hsame);
      rewrite E; clear E; cbn;
      cbn in Hstatus, Hstop, Hkeep, Hactive, Htoggle, Hstore, Htimers,
             Hrel, Hsame
  end.

Ltac failure_close Hstatus :=
  repeat lazymatch goal with |- _ /\ _ => split end;
  try assumption; try reflexivity;
  rewrite Hstatus; apply hidden_after_add.

(** X11.  A gesture whose biometric step fails - no support, a rejected or
    empty platform answer - ends with: not busy, not authenticated, the
    button enabled and reading "Authenticate with FaceID" without its
    [authenticated] mark, the error banner shown, the status hidden, the
    video element empty, and the tracked stream stopped - untracked, its
    tracks no longer live - if the video was showing one.  The store and
    the timers are untouched.  So are the
    camera button and [isCameraActive]: a camera that was on is stopped
    while the page still says it is on. *)
Theorem failed_gesture_outcome cred stream w :
  isAuthenticating w = false ->
  (checkWebAuthnSupport w = true -> forall c, cred <> Fulfilled (Some c)) ->
  let w' := fst (run (alone (answers cred stream))
                   (handleWebAuthnAuthentication w)) in
  isAuthenticating w' = false /\
  isAuthenticated w' = false /\
  content (webauthnButton (dom w')) = "Authenticate with FaceID" /\
  disabled (webauthnButton (dom w')) = false /\
  ("authenticated" ∉ classList (webauthnButton (dom w'))) /\
  ("hidden" ∉ classList (errorMessage (dom w'))) /\
  ("hidden" ∈ classList (statusMessage (dom w'))) /\
  video_srcObject (dom w') = None /\
  (video_srcObject (dom w) <> None -> currentStream w' = None) /\
  (video_srcObject (dom w) = None -> currentStream w' = currentStream w) /\
  isCameraActive w' = isCameraActive w /\
  toggleButton (dom w') = toggleButton (dom w) /\
  localStorage w' = localStorage w /\
  timers w' = timers w /\
  (video_srcObject (dom w) <> None ->
   forall t,
     t ∈ liveTracks w' <->
     t ∈ liveTracks w /\
     forall cur, currentStream w = Some cur -> t ∉ getTracks cur) /\
  (video_srcObject (dom w) = None -> liveTracks w' = liveTracks w).
Proof.
  intros Hb Hfail. cbv zeta.
  destruct (checkWebAuthnSupport w) eqn:Hs.
  2: { unfold handleWebAuthnAuthentication. rewrite Hb.
       unfold handlerTry. cbn. same_support w. rewrite Hs. cbn.
       failure_open Hstatus Hstop Hkeep Hactive Htoggle Hstore Htimers Hrel Hsame.
       failure_close Hstatus. }
  specialize (Hfail eq_refl).
  to_credential_call_frame w Hb Hs w2 Hw Hfr.
  destruct (stored_credential w) as [id|] eqn:Hid; cbn.
  - rewrite (Hw ltac:(discriminate)) in *. clear Hw Hfr.
    match goal with
    | |- context [authenticateUser ?w3] =>
        destruct (authenticateUser_supported w3 id Hs
                    (getStoredCredentialId_some w3 id Hid))
          as (k & -> & Hok & Hnull & Hko)
    end.
    cbn. destruct cred as [[c|] | n m];
      [exfalso; exact (Hfail c eq_refl) | rewrite Hnull | rewrite Hko];
      clear Hok Hnull Hko;
      failure_open Hstatus Hstop Hkeep Hactive Htoggle Hstore Htimers Hrel Hsame;
      failure_close Hstatus.
  - destruct Hfr as (Henv & Hdom & Hst & Htm & Hcur & Hlive & Hact & _).
    match goal with
    | |- context [registerCredential ?w3] =>
        destruct (registerCredential_supported w3)
          as (k & -> & Hok & Hnull & Hko)
    end.
    { rewrite <- Hs. apply checkWebAuthnSupport_env. exact Henv. }
    cbn. destruct cred as [[c|] | n m];
      [exfalso; exact (Hfail c eq_refl) | rewrite Hnull | rewrite Hko];
      clear Hok Hnull Hko;
      failure_open Hstatus Hstop Hkeep Hactive Htoggle Hstore Htimers Hrel Hsame;
      rewrite Hdom in Hstatus, Hstop, Hkeep, Htoggle, Hrel, Hsame;
      rewrite Hcur in Hkeep, Hrel; rewrite Hact in Hactive;
      rewrite Hst in Hstore; rewrite Htm in Htimers;
      rewrite Hlive in Hrel, Hsame;
      cbn in Hstatus, Hstop, Hkeep, Hactive, Htoggle, Hstore, Htimers,
             Hrel, Hsame;
      failure_close Hstatus.
Qed.


Lemma failed_gesture_outcome_witness :
  isAuthenticated
    (fst (run (alone (answers (Rejected "NotAllowedError" "denied")
                        (Fulfilled stream1)))
            (handleWebAuthnAuthentication registeredWorld))) = false.
Proof.
  destruct (failed_gesture_outcome (Rejected "NotAllowedError" "denied")
              (Fulfilled stream1) registeredWorld eq_refl
              ltac:(intros _ c; discriminate))
    as (_ & H & _).
  exact H.
Defined.

(** ** The page in every reachable state *)

Section Keeps.

Variable I : World -> Prop.
Hypothesis handler_keeps :
  forall w, I w -> keeps I (handleWebAuthnAuthentication w).
Hypothesis toggle_keeps : forall w, I w -> keeps I (toggleCamera w).
Hypothesis timer_keeps :
  forall w ts callback, I w -> I (run_timer callback (set_timers ts w)).

Lemma keeps_park flow s pending issued :
  keeps I s ->
  Forall (task_keeps I) pending ->
  system_keeps I (park flow s pending issued).
Proof.
  intros Hs Hall. destruct s as [w c | w op k]; cbn in *.
  - split; assumption.
  - destruct Hs as [Hw Hk]. split; [exact Hw|]. cbn.
    apply Forall_app. split; [exact Hall|].
    constructor; [|constructor]. exact Hk.
Qed.

Lemma step_keeps ev sys sys' :
  system_keeps I sys -> step ev sys = Some sys' -> system_keeps I sys'.
Proof.
  intros [Hw Hall] Hstep. destruct sys as [w pending issued]. cbn in *.
  destruct ev as [| | i a | i]; cbn in Hstep.
  - injection Hstep as <-.
    apply keeps_park; [apply handler_keeps, Hw | exact Hall].
  - injection Hstep as <-.
    apply keeps_park; [apply toggle_keeps, Hw | exact Hall].
  - destruct (pending !! i) as [t|] eqn:Ht; [|discriminate Hstep].
    injection Hstep as <-. apply keeps_park.
    + apply (Forall_lookup_1 _ _ _ _ Hall Ht). exact Hw.
    + apply Forall_delete, Hall.
  - destruct (timers w !! i) as [[d callback]|]; [|discriminate Hstep].
    injection Hstep as <-. split; [apply timer_keeps, Hw | exact Hall].
Qed.

(** A property of the world that the two listeners and the timers keep
    holds along every run that starts where it holds. *)
Lemma steps_keeps es : forall sys sys',
  system_keeps I sys -> steps es sys = Some sys' -> system_keeps I sys'.
Proof.
  induction es as [|e es IH]; intros sys sys' Hk Hs; cbn in Hs.
  - injection Hs as <-. exact Hk.
  - destruct (step e sys) as [sys1|] eqn:E; [|discriminate Hs].
    exact (IH sys1 sys' (step_keeps e sys sys1 Hk E) Hs).
Qed.

Lemma reachable_keeps :
  (forall e storage, I (initialWorld e storage)) ->
  forall sys, reachable sys -> I (sys_world sys).
Proof.
  intros Hinit sys Hr.
  enough (system_keeps I sys) as [H _] by exact H.
  induction Hr as [e storage | sys ev sys' _ IH Hstep].
  - split; [apply Hinit | constructor].
  - exact (step_keeps ev sys sys' IH Hstep).
Qed.

End Keeps.

Lemma flag_on_with_class (c : string) (cl : gset string) :
  true = true <-> c ∈ {[ c ]} ∪ cl.
Proof. split; intros _; [apply elem_after_add | reflexivity]. Qed.

Lemma flag_off_without_class (c : string) (cl : gset string) :
  false = true <-> c ∈ cl ∖ {[ c ]}.
Proof.
  split; [discriminate|].
  intros H. exfalso. exact (not_elem_after_remove _ _ H).
Qed.

Ltac page_facts :=
  unfold page_consistent; cbn;
  (split; [|split; [|split; [|split]]]);
  try first [ eassumption | reflexivity
            | apply flag_on_with_class | apply flag_off_without_class
            | discriminate
            | intros _; split; reflexivity
            | intros ?; congruence ].

(** The [catch] and [finally] blocks of the handler restore the page. *)
Lemma catch_finally_page err w0 :
  video_srcObject (dom w0) = currentStream w0 ->
  (isCameraActive w0 = true <->
   "active" ∈ classList (toggleButton (dom w0))) ->
  (isCameraActive w0 = true ->
   content (toggleButton (dom w0)) = "Stop Camera" /\
   disabled (toggleButton (dom w0)) = false) ->
  exists w1,
    handlerCatch err w0 = Done w1 (Return tt) /\
    page_consistent (handlerFinally w1).
Proof.
  intros Hv Hc Ht. unfold handlerCatch. cbn. eexists. split; [reflexivity|].
  destruct (showError_frame err w0) as (e' & h' & E & _).
  rewrite E. clear E. cbn.
  destruct (video_srcObject (dom w0)) eqn:Hvid; cbn.
  - open_stopCamera. page_facts.
  - page_facts.
Qed.

Ltac page_failure Hv Hc Ht :=
  cbn;
  match goal with
  | |- context [handlerCatch ?err ?w0] =>
      let w1 := fresh "w1" in
      let E := fresh "E" in
      let Hp := fresh "Hp" in
      destruct (catch_finally_page err w0) as (w1 & E & Hp);
      [ cbn; exact Hv | cbn; exact Hc | cbn; exact Ht
      | rewrite E; clear E; exact Hp ]
  end.

Lemma timer_keeps_page w ts callback :
  page_consistent w ->
  page_consistent (run_timer callback (set_timers ts w)).
Proof.
  intros (Hv & Hd & Ha & Hc & Ht). destruct callback. unfold run_timer.
  open_stopCamera. page_facts.
Qed.

Lemma toggle_keeps_page w :
  page_consistent w -> keeps page_consistent (toggleCamera w).
Proof.
  intros Hpage. unfold toggleCamera.
  destruct (isCameraActive w) eqn:Hact;
    destruct Hpage as (Hv & Hd & Ha & Hc & Ht).
  - cbn. unfold handleStopCamera. cbv zeta. open_stopCamera. page_facts.
  - unfold startCamera. cbn. camera_cases Hcok Hcko.
    + split; [page_facts|].
      intros [s | n m] w' (Hv' & Hd' & Ha' & Hc' & Ht');
        [rewrite Hcok | rewrite Hcko]; cbn.
      * page_facts.
      * open_showError. page_facts.
    + page_facts.
Qed.

Lemma handler_keeps_page w :
  page_consistent w -> keeps page_consistent (handleWebAuthnAuthentication w).
Proof.
  intros Hpage.
  destruct (isAuthenticating w) eqn:Hb;
    [rewrite (handler_guard w Hb); exact Hpage|].
  destruct Hpage as (Hv & Hd & Ha & Hc & Ht).
  destruct (checkWebAuthnSupport w) eqn:Hs.
  2: { unfold handleWebAuthnAuthentication. rewrite Hb.
       unfold handlerTry. cbn. same_support w. rewrite Hs. cbn.
       page_failure Hv Hc Ht. }
  to_credential_call_frame w Hb Hs w2 Hw Hfr. clear Hw.
  destruct Hfr
    as (Henv & Hdom & Hst & _ & Hcur & _ & Hact & Hauth & Hbusy & _).
  assert (Hs2 : checkWebAuthnSupport w2 = true)
    by (rewrite <- Hs; apply checkWebAuthnSupport_env; exact Henv).
  assert (Hv2 : video_srcObject (dom w2) = currentStream w2)
    by (rewrite Hdom, Hcur; exact Hv).
  assert (Hd2 : disabled (webauthnButton (dom w2)) = isAuthenticating w2)
    by (rewrite Hdom, Hbusy; reflexivity).
  assert (Ha2 : isAuthenticated w2 = true <->
                "authenticated" ∈ classList (webauthnButton (dom w2)))
    by (rewrite Hdom, Hauth; exact Ha).
  assert (Hc2 : isCameraActive w2 = true <->
                "active" ∈ classList (toggleButton (dom w2)))
    by (rewrite Hdom, Hact; exact Hc).
  assert (Ht2 : isCameraActive w2 = true ->
                content (toggleButton (dom w2)) = "Stop Camera" /\
                disabled (toggleButton (dom w2)) = false)
    by (rewrite Hdom, Hact; exact Ht).
  assert (Hid2 : stored_credential w2 = stored_credential w)
    by (unfold stored_credential; rewrite Hst; reflexivity).
  clear Henv Hdom Hst Hcur Hact Hauth Hbusy.
  destruct (stored_credential w) as [id|] eqn:Hid; cbn.
  - match goal with
    | |- context [authenticateUser ?w3] =>
        destruct (authenticateUser_supported w3 id Hs2
                    (getStoredCredentialId_some w3 id Hid2))
          as (k & -> & Hok & Hnull & Hko)
    end.
    cbn. split; [page_facts|].
    intros [[c|] | n m] w4 (Hv4 & Hd4 & Ha4 & Hc4 & Ht4); cbn;
      [rewrite Hok | rewrite Hnull | rewrite Hko]; cbn;
      [| page_failure Hv4 Hc4 Ht4 | page_failure Hv4 Hc4 Ht4].
    unfold previewCamera. cbn. camera_cases Hcok Hcko; [|page_facts].
    split; [page_facts|].
    intros [s | n m] w6 (Hv6 & Hd6 & Ha6 & Hc6 & Ht6);
      [rewrite Hcok | rewrite Hcko]; cbn; page_facts.
  - match goal with
    | |- context [registerCredential ?w3] =>
        destruct (registerCredential_supported w3 Hs2)
          as (k & -> & Hok & Hnull & Hko)
    end.
    cbn. split; [page_facts|].
    intros [[c|] | n m] w4 (Hv4 & Hd4 & Ha4 & Hc4 & Ht4); cbn;
      [rewrite Hok | rewrite Hnull | rewrite Hko]; cbn;
      [| page_failure Hv4 Hc4 Ht4 | page_failure Hv4 Hc4 Ht4].
    unfold previewCamera. cbn. camera_cases Hcok Hcko; [|page_facts].
    split; [page_facts|].
    intros [s | n m] w6 (Hv6 & Hd6 & Ha6 & Hc6 & Ht6);
      [rewrite Hcok | rewrite Hcko]; cbn; page_facts.
Qed.

(** X12.  In every state the event loop can reach - any clicks, promises
    settling and timers firing in any order - the page agrees with the
    program on these points: the video element shows the tracked stream
    and nothing else; the biometric button is disabled exactly while a
    biometric flow is in progress; it carries the [authenticated] mark
    exactly when [isAuthenticated] is set; the camera button carries the
    [active] mark exactly when [isCameraActive] is set, and then it is
    enabled and reads "Stop Camera". *)
Theorem page_agrees_with_the_state sys :
  reachable sys ->
  let w := sys_world sys in
  video_srcObject (dom w) = currentStream w /\
  disabled (webauthnButton (dom w)) = isAuthenticating w /\
  (isAuthenticated w = true <->
   "authenticated" ∈ classList (webauthnButton (dom w))) /\
  (isCameraActive w = true <->
   "active" ∈ classList (toggleButton (dom w))) /\
  (isCameraActive w = true ->
   content (toggleButton (dom w)) = "Stop Camera" /\
   disabled (toggleButton (dom w)) = false).
Proof.
  intros Hr. cbv zeta.
  apply (reachable_keeps page_consistent
           handler_keeps_page toggle_keeps_page timer_keeps_page);
    [|exact Hr].
  intros e storage. unfold page_consistent. cbn.
  repeat split; try discriminate; intros H; exfalso; set_solver.
Qed.

Lemma page_agrees_with_the_state_witness :
  match steps previewOverActiveCamera (initialSystem fullEnv ∅) with
  | Some sys =>
      video_srcObject (dom (sys_world sys)) = currentStream (sys_world sys) /\
      disabled (webauthnButton (dom (sys_world sys)))
      = isAuthenticating (sys_world sys)
  | None => False
  end.
Proof.
  assert (Hsome : option_map (fun sys => currentStream (sys_world sys))
                    (steps previewOverActiveCamera (initialSystem fullEnv ∅))
                  = Some (Some stream2)) by (vm_compute; reflexivity).
  destruct (steps previewOverActiveCamera (initialSystem fullEnv ∅))
    as [sys|] eqn:E; [|discriminate Hsome].
  destruct (page_agrees_with_the_state sys
              (reachable_steps previewOverActiveCamera _ sys
                 (reachable_initial fullEnv ∅) E))
    as (Hv & Hd & _).
  split; [exact Hv | exact Hd].
Defined.

(** ** main.ts: a gesture that succeeds *)

Lemma camera_supported_env w w' :
  env w' = env w -> camera_supported w' = camera_supported w.
Proof. unfold camera_supported. intros ->. reflexivity. Qed.

Lemma not_elem_after_remove_twice (c d : string) (cl : gset string) :
  c ∉ cl ∖ {[ c ]} ∖ {[ d ]}.
Proof. rewrite !elem_of_difference, elem_of_singleton. tauto. Qed.

Ltac success_facts :=
  repeat split;
  try reflexivity;
  try apply elem_after_add; try apply hidden_after_add;
  try apply not_elem_after_remove; try apply not_elem_after_remove_twice;
  try (rewrite <- app_assoc; reflexivity).

(** X13.  A gesture on a page with a stored credential, answered by the
    platform with a credential: the page ends authenticated - flag set,
    button enabled, marked and reading "Authenticated âœ“", success status
    shown, error and help hidden - and the store is as it was.  The preview
    comes after: when the camera is granted its stream is tracked, shown
    and live, and one timer of 3000 ms is pending; when it is refused, or
    the camera API is absent, the gesture still succeeds: nothing about
    the camera changes, no error is shown, and the console gets one
    warning.  The camera button and [isCameraActive] are untouched in
    both cases. *)
Theorem authenticated_gesture_outcome c stream w id :
  isAuthenticating w = false ->
  checkWebAuthnSupport w = true ->
  stored_credential w = Some id ->
  let w' := fst (run (alone (answers (Fulfilled (Some c)) stream))
                   (handleWebAuthnAuthentication w)) in
  let refused :=
    video_srcObject (dom w') = video_srcObject (dom w) /\
    video (dom w') = video (dom w) /\
    currentStream w' = currentStream w /\
    liveTracks w' = liveTracks w /\
    timers w' = timers w /\
    console w'
    = console w ++ [ConsoleWarn "Camera access denied after authentication";
                    ConsoleLog true] in
  isAuthenticating w' = false /\
  isAuthenticated w' = true /\
  content (webauthnButton (dom w')) = "Authenticated âœ“" /\
  disabled (webauthnButton (dom w')) = false /\
  ("authenticated" ∈ classList (webauthnButton (dom w'))) /\
  ("hidden" ∉ classList (statusMessage (dom w'))) /\
  ("info" ∉ classList (statusMessage (dom w'))) /\
  content (statusMessage (dom w'))
  = "Authentication successful! You have been verified with biometrics." /\
  ("hidden" ∈ classList (errorMessage (dom w'))) /\
  ("hidden" ∈ classList (helpInstructions (dom w'))) /\
  localStorage w' = localStorage w /\
  isCameraActive w' = isCameraActive w /\
  toggleButton (dom w') = toggleButton (dom w) /\
  match stream with
  | Fulfilled s =>
      if camera_supported w then
        video_srcObject (dom w') = Some s /\
        currentStream w' = Some s /\
        ("active" ∈ classList (video (dom w'))) /\
        (forall t, t ∈ getTracks s -> t ∈ liveTracks w') /\
        timers w' = timers w ++ [(3000%Z, AutoStopPreview)] /\
        console w' = console w ++ [ConsoleLog true]
      else refused
  | Rejected _ _ => refused
  end.
Proof.
  intros Hb Hs Hid. cbv zeta.
  to_credential_call_frame w Hb Hs w2 Hw Hfr.
  rewrite Hid. rewrite Hid in Hw. cbn.
  rewrite (Hw ltac:(discriminate)) in *. clear Hw Hfr.
  match goal with
  | |- context [authenticateUser ?w3] =>
      destruct (authenticateUser_supported w3 id Hs
                  (getStoredCredentialId_some w3 id Hid))
        as (k & -> & Hok & _)
  end.
  cbn. rewrite Hok. clear Hok. cbn.
  unfold previewCamera. cbn.
  match goal with
  | |- context [requestCameraAccess ?w0] =>
      assert (Hcam : camera_supported w0 = camera_supported w)
        by reflexivity;
      destruct (camera_supported w) eqn:Hc;
      [ destruct (requestCameraAccess_supported w0 Hcam)
          as (kc & -> & Hcok & Hcko)
      | rewrite (requestCameraAccess_unsupported w0 Hcam) ]
  end; cbn.
  - destruct stream as [s | n m]; [rewrite Hcok | rewrite Hcko]; cbn;
      success_facts.
    intros t Ht. apply elem_of_union_l, elem_of_list_to_set, Ht.
  - destruct stream as [s | n m]; success_facts.
Qed.

Lemma authenticated_gesture_outcome_witness :
  isAuthenticated
    (fst (run (alone (answers (Fulfilled (Some someCredential))
                        (Rejected "NotAllowedError" "denied")))
            (handleWebAuthnAuthentication registeredWorld))) = true.
Proof.
  destruct (authenticated_gesture_outcome someCredential
              (Rejected "NotAllowedError" "denied") registeredWorld
              [Byte.x01; Byte.x02] eq_refl eq_refl eq_refl)
    as (_ & H & _).
  exact H.
Defined.

Lemma hidden_not_in_info_status (cl : gset string) :
  "hidden" ∉ {[ "info" ]} ∪ cl ∖ {[ "hidden" ]}.
Proof.
  rewrite elem_of_union, elem_of_singleton, elem_of_difference,
    elem_of_singleton.
  intros [H | [_ H]]; [discriminate H | apply H; reflexivity].
Qed.

(** The world a successful registration gesture ends in. *)
Lemma registered_gesture_world c stream w :
  isAuthenticating w = false ->
  checkWebAuthnSupport w = true ->
  stored_credential w = None ->
  let w' := fst (run (alone (answers (Fulfilled (Some c)) stream))
                   (handleWebAuthnAuthentication w)) in
  let refused :=
    video_srcObject (dom w') = video_srcObject (dom w) /\
    video (dom w') = video (dom w) /\
    currentStream w' = currentStream w /\
    liveTracks w' = liveTracks w /\
    timers w' = timers w in
  (env w' = env w /\
   isAuthenticating w' = false /\
   localStorage w'
   = <[CREDENTIAL_STORAGE_KEY := uint8ArrayToBase64 (rawId c)]>
       (localStorage w)) /\
  isAuthenticated w' = isAuthenticated w /\
  content (webauthnButton (dom w')) = "Authenticate with FaceID" /\
  disabled (webauthnButton (dom w')) = false /\
  classList (webauthnButton (dom w')) = classList (webauthnButton (dom w)) /\
  ("hidden" ∉ classList (statusMessage (dom w'))) /\
  ("info" ∈ classList (statusMessage (dom w'))) /\
  content (statusMessage (dom w'))
  = ("Biometric credential registered successfully! Click " ++ dquote
       ++ "Authenticate with FaceID" ++ dquote ++ " again to verify.")%string /\
  ("hidden" ∈ classList (errorMessage (dom w'))) /\
  ("hidden" ∈ classList (helpInstructions (dom w'))) /\
  isCameraActive w' = isCameraActive w /\
  toggleButton (dom w') = toggleButton (dom w) /\
  match stream with
  | Fulfilled s =>
      if camera_supported w then
        video_srcObject (dom w') = Some s /\
        currentStream w' = Some s /\
        ("active" ∈ classList (video (dom w'))) /\
        (forall t, t ∈ getTracks s -> t ∈ liveTracks w') /\
        timers w' = timers w ++ [(3000%Z, AutoStopPreview)]
      else refused
  | Rejected _ _ => refused
  end.
Proof.
  intros Hb Hs Hid. cbv zeta.
  to_credential_call_frame w Hb Hs w2 Hw Hfr. clear Hw.
  destruct Hfr
    as (Henv & Hdom & Hst & Htm & Hcur & Hlive & Hact & Hauth & Hbusy & _).
  cbn in Henv, Hdom, Hst, Htm, Hcur, Hlive, Hact, Hauth, Hbusy.
  assert (Hs2 : checkWebAuthnSupport w2 = true)
    by (rewrite <- Hs; apply checkWebAuthnSupport_env; exact Henv).
  rewrite Hid. cbn.
  match goal with
  | |- context [registerCredential ?w3] =>
      destruct (registerCredential_supported w3 Hs2)
        as (k & -> & Hok & _)
  end.
  cbn. rewrite Hok. clear Hok. cbn.
  unfold previewCamera. cbn.
  match goal with
  | |- context [requestCameraAccess ?w0] =>
      assert (Hcam : camera_supported w0 = camera_supported w)
        by (apply camera_supported_env; exact Henv);
      destruct (camera_supported w) eqn:Hc;
      [ destruct (requestCameraAccess_supported w0 Hcam)
          as (kc & -> & Hcok & Hcko)
      | rewrite (requestCameraAccess_unsupported w0 Hcam) ]
  end; cbn.
  - destruct stream as [s | n m]; [rewrite Hcok | rewrite Hcko]; cbn;
      rewrite ?Hdom, ?Hst, ?Htm, ?Hcur, ?Hlive, ?Hact, ?Hauth; cbn;
      success_facts; try assumption;
      try apply hidden_not_in_info_status.
    intros t Ht. apply elem_of_union_l, elem_of_list_to_set, Ht.
  - destruct stream as [s | n m];
      rewrite ?Hdom, ?Hst, ?Htm, ?Hcur, ?Hlive, ?Hact, ?Hauth; cbn;
      success_facts; try assumption;
      try apply hidden_not_in_info_status.
Qed.

(** X14.  A gesture on a page without a stored credential, answered by
    the platform with the credential [c]: the identifier of [c] is stored,
    the button is enabled and reads "Authenticate with FaceID" again, the
    info status asks for a second click, and [isAuthenticated] and the
    button's mark are as they were - registering does not authenticate.
    The preview follows as after an authentication.  The next gesture then
    asks the platform for exactly the credential just stored; but if the
    platform's identifier was empty, the next gesture registers again. *)
Theorem registration_then_authentication c stream w :
  isAuthenticating w = false ->
  checkWebAuthnSupport w = true ->
  stored_credential w = None ->
  let w' := fst (run (alone (answers (Fulfilled (Some c)) stream))
                   (handleWebAuthnAuthentication w)) in
  localStorage w'
  = <[CREDENTIAL_STORAGE_KEY := uint8ArrayToBase64 (rawId c)]>
      (localStorage w) /\
  isAuthenticating w' = false /\
  isAuthenticated w' = isAuthenticated w /\
  content (webauthnButton (dom w')) = "Authenticate with FaceID" /\
  disabled (webauthnButton (dom w')) = false /\
  classList (webauthnButton (dom w')) = classList (webauthnButton (dom w)) /\
  ("hidden" ∉ classList (statusMessage (dom w'))) /\
  ("info" ∈ classList (statusMessage (dom w'))) /\
  content (statusMessage (dom w'))
  = ("Biometric credential registered successfully! Click " ++ dquote
       ++ "Authenticate with FaceID" ++ dquote ++ " again to verify.")%string /\
  ("hidden" ∈ classList (errorMessage (dom w'))) /\
  isCameraActive w' = isCameraActive w /\
  match stream with
  | Fulfilled s =>
      if camera_supported w then
        video_srcObject (dom w') = Some s /\
        currentStream w' = Some s /\
        timers w' = timers w ++ [(3000%Z, AutoStopPreview)]
      else
        video_srcObject (dom w') = video_srcObject (dom w) /\
        timers w' = timers w
  | Rejected _ _ =>
      video_srcObject (dom w') = video_srcObject (dom w) /\
      timers w' = timers w
  end /\
  (rawId c <> [] ->
   exists challenge,
     first_suspension (handleWebAuthnAuthentication w')
     = Some (CredentialsGet (requestOptions challenge (rawId c)))) /\
  (rawId c = [] ->
   exists options,
     first_suspension (handleWebAuthnAuthentication w')
     = Some (CredentialsCreate options)).
Proof.
  intros Hb Hs Hid. cbv zeta.
  pose proof (registered_gesture_world c stream w Hb Hs Hid) as H.
  cbv zeta in H. revert H.
  generalize (fst (run (alone (answers (Fulfilled (Some c)) stream))
                     (handleWebAuthnAuthentication w))).
  intros w' ((Henv & Hb' & Hst) & Hauth & Hcont & Hdis & Hcl & Hhid & Hinfo
             & Hmsg & Herr & _ & Hact & _ & Hprev).
  assert (Hs' : checkWebAuthnSupport w' = true)
    by (rewrite <- Hs; apply checkWebAuthnSupport_env; exact Henv).
  pose proof (stored_credential_insert w' (rawId c) _ Hst) as Hstored.
  destruct (handler_suspends_on_credential_call w' Hb' Hs')
    as (w1 & op & k & E & _ & _ & Hop).
  rewrite E. cbn [first_suspension].
  repeat (split; [assumption|]).
  split.
  { destruct stream as [s|n m]; [destruct (camera_supported w)|]; tauto. }
  split; intros Hraw.
  - destruct (rawId c) as [|b bs] eqn:Eraw; [contradiction|].
    rewrite Hstored in Hop. destruct Hop as (challenge & ->).
    exists challenge. reflexivity.
  - rewrite Hraw in Hstored. rewrite Hstored in Hop.
    destruct Hop as (options & ->). exists options. reflexivity.
Qed.

Lemma registration_then_authentication_witness :
  exists challenge,
    first_suspension
      (handleWebAuthnAuthentication
         (fst (run (alone (answers (Fulfilled (Some someCredential))
                             (Fulfilled stream1)))
                 (handleWebAuthnAuthentication freshWorld))))
    = Some (CredentialsGet (requestOptions challenge [Byte.x01; Byte.x02])).
Proof.
  destruct (registration_then_authentication someCredential
              (Fulfilled stream1) freshWorld eq_refl eq_refl eq_refl)
    as (_ & _ & _ & _ & _ & _ & _ & _ & _ & _ & _ & _ & Hnext & _).
  apply Hnext. discriminate.
Defined.

(** ** main.ts: the preview and its timer *)





(** ** main.ts: the camera button before and after the biometric button *)

(** X16.  The camera button of the page with the biometric button does
    what the camera button of the earlier page did, for every platform
    answer: the same request, the same outcome, the same world - but for
    the status message, which the later [hideMessages] hides as well.
    The two [showError] differ on a [not-supported] camera error; the
    button never meets one, because [requestCameraAccess] reports a
    missing camera API as [unknown]. *)
Theorem camera_button_as_before :
  (forall (a : Answers) w,
      run (alone a) (toggleCamera w)
      = (on_statusMessage (classList_add "hidden")
           (fst (run (alone a) (MainV1.toggleCamera w))),
         snd (run (alone a) (MainV1.toggleCamera w)))) /\
  (forall w,
      first_suspension (toggleCamera w)
      = first_suspension (MainV1.toggleCamera w)) /\
  (forall message cause w,
      "hidden" ∈ classList (helpInstructions (dom w)) ->
      showError (CameraError CamNotSupported message cause) w
      <> MainV1.showError (CameraError CamNotSupported message cause) w).
Proof.
  split; [|split].
  - intros a w. unfold toggleCamera, MainV1.toggleCamera.
    destruct (isCameraActive w).
    + cbn. unfold handleStopCamera, MainV1.handleStopCamera, stopCamera.
      destruct (currentStream w); reflexivity.
    + unfold startCamera, MainV1.startCamera. cbn.
      destruct (camera_supported w) eqn:Hc.
      * repeat match goal with
          | |- context [requestCameraAccess ?w0] =>
              let k := fresh "k" in
              let Hok := fresh "Hok" in
              let Hko := fresh "Hko" in
              destruct (requestCameraAccess_supported w0 Hc)
                as (k & -> & Hok & Hko);
              cbn; try rewrite !Hok; try rewrite !Hko
          end.
        destruct (a (GetUserMedia cameraConstraints)) as [s | n m].
        -- rewrite ?Hok, ?Hok0. cbn. reflexivity.
        -- rewrite ?Hko, ?Hko0. cbn.
           destruct (classifyCameraError_shape (DomError n m))
             as (kind & msg & -> & Hk).
           unfold showError, MainV1.showError.
           destruct kind; try contradiction; reflexivity.
      * repeat match goal with
          | |- context [requestCameraAccess ?w0] =>
              rewrite (requestCameraAccess_unsupported w0 Hc)
          end.
        cbn. reflexivity.
  - intros w. unfold toggleCamera, MainV1.toggleCamera.
    destruct (isCameraActive w); [reflexivity|].
    unfold startCamera, MainV1.startCamera. cbn.
    destruct (camera_supported w) eqn:Hc.
    + repeat match goal with
        | |- context [requestCameraAccess ?w0] =>
            let k := fresh "k" in
            destruct (requestCameraAccess_supported w0 Hc)
              as (k & -> & _ & _)
        end.
      reflexivity.
    + repeat match goal with
        | |- context [requestCameraAccess ?w0] =>
            rewrite (requestCameraAccess_unsupported w0 Hc)
        end.
      reflexivity.
  - intros message cause w Hhidden E.
    apply (f_equal (fun w' => classList (helpInstructions (dom w')))) in E.
    cbn in E. rewrite <- E in Hhidden.
    exact (not_elem_after_remove _ _ Hhidden).
Qed.

(** ** The store along a run *)

Lemma storage_kept_frame storage w w' :
  localStorage w' = localStorage w ->
  storage_kept storage w -> storage_kept storage w'.
Proof. unfold storage_kept. intros ->. exact id. Qed.

Lemma storage_kept_store storage w w' (bytes : Uint8Array) :
  localStorage w'
  = <[CREDENTIAL_STORAGE_KEY := uint8ArrayToBase64 bytes]> (localStorage w) ->
  storage_kept storage w -> storage_kept storage w'.
Proof.
  unfold storage_kept. intros -> [Hother _]. split.
  - intros key Hkey. rewrite lookup_insert_ne by congruence.
    apply Hother, Hkey.
  - right. exists bytes. apply lookup_insert_eq.
Qed.

(** The [catch] block of the handler leaves the store alone. *)
Lemma handlerCatch_store err w0 :
  exists w1,
    handlerCatch err w0 = Done w1 (Return tt) /\
    localStorage w1 = localStorage w0.
Proof.
  destruct (handlerCatch_outcome err w0) as (w1 & E & H).
  exists w1. split; [exact E|]. tauto.
Qed.

Ltac storage_frame w0 :=
  apply (storage_kept_frame _ w0);
  [ cbn; try open_showError; try open_stopCamera; reflexivity
  | assumption ].

Ltac storage_failure w0 :=
  cbn;
  match goal with
  | |- context [handlerCatch ?err ?w1] =>
      let w' := fresh "w'" in
      let E := fresh "E" in
      let Hst := fresh "Hst" in
      destruct (handlerCatch_store err w1) as (w' & E & Hst);
      rewrite E; clear E; cbn;
      apply (storage_kept_frame _ w0); [cbn; exact Hst | assumption]
  end.

Lemma timer_keeps_storage storage w ts callback :
  storage_kept storage w ->
  storage_kept storage (run_timer callback (set_timers ts w)).
Proof.
  intros H. destruct callback. unfold run_timer. storage_frame w.
Qed.

Lemma toggle_keeps_storage storage w :
  storage_kept storage w -> keeps (storage_kept storage) (toggleCamera w).
Proof.
  intros H. unfold toggleCamera. destruct (isCameraActive w).
  - cbn. unfold handleStopCamera. cbv zeta. storage_frame w.
  - unfold startCamera. cbn. camera_cases Hcok Hcko.
    + split; [storage_frame w|].
      intros [s | n m] w' H'; [rewrite Hcok | rewrite Hcko]; cbn;
        storage_frame w'.
    + storage_frame w.
Qed.

Lemma handler_keeps_storage storage w :
  storage_kept storage w ->
  keeps (storage_kept storage) (handleWebAuthnAuthentication w).
Proof.
  intros H.
  destruct (isAuthenticating w) eqn:Hb;
    [rewrite (handler_guard w Hb); exact H|].
  destruct (checkWebAuthnSupport w) eqn:Hs.
  2: { unfold handleWebAuthnAuthentication. rewrite Hb.
       unfold handlerTry. cbn. same_support w. rewrite Hs. cbn.
       storage_failure w. }
  to_credential_call_frame w Hb Hs w2 Hw Hfr. clear Hw.
  destruct Hfr as (Henv & _ & Hst & _).
  assert (Hs2 : checkWebAuthnSupport w2 = true)
    by (rewrite <- Hs; apply checkWebAuthnSupport_env; exact Henv).
  assert (H2 : storage_kept storage w2)
    by (apply (storage_kept_frame _ w); [exact Hst | exact H]).
  assert (Hid2 : stored_credential w2 = stored_credential w)
    by (unfold stored_credential; rewrite Hst; reflexivity).
  clear Henv Hst.
  destruct (stored_credential w) as [id|] eqn:Hid; cbn.
  - match goal with
    | |- context [authenticateUser ?w3] =>
        destruct (authenticateUser_supported w3 id Hs2
                    (getStoredCredentialId_some w3 id Hid2))
          as (k & -> & Hok & Hnull & Hko)
    end.
    cbn. split; [storage_frame w2|].
    intros [[c|] | n m] w4 H4; cbn;
      [rewrite Hok | rewrite Hnull | rewrite Hko]; cbn;
      [| storage_failure w4 | storage_failure w4].
    unfold previewCamera. cbn. camera_cases Hcok Hcko; [|storage_frame w4].
    split; [storage_frame w4|].
    intros [s | n m] w6 H6; [rewrite Hcok | rewrite Hcko]; cbn;
      storage_frame w6.
  - match goal with
    | |- context [registerCredential ?w3] =>
        destruct (registerCredential_supported w3 Hs2)
          as (k & -> & Hok & Hnull & Hko)
    end.
    cbn. split; [storage_frame w2|].
    intros [[c|] | n m] w4 H4; cbn;
      [rewrite Hok | rewrite Hnull | rewrite Hko]; cbn;
      [| storage_failure w4 | storage_failure w4].
    assert (H5 : storage_kept storage
                   (set_localStorage
                      (<[CREDENTIAL_STORAGE_KEY
                         := uint8ArrayToBase64 (rawId c)]>
                         (localStorage w4)) w4))
      by (apply (storage_kept_store _ w4 _ (rawId c));
          [reflexivity | exact H4]).
    unfold previewCamera. cbn. camera_cases Hcok Hcko.
    + split; [exact (storage_kept_frame _ _ _ eq_refl H5)|].
      intros [s | n m] w6 H6; [rewrite Hcok | rewrite Hcko]; cbn;
        storage_frame w6.
    + exact (storage_kept_frame _ _ _ eq_refl H5).
Qed.

(** X17.  Along every run of the page - clicks, promises settling, timers
    firing, in any order - the program leaves every key of [localStorage]
    but its own as the page found it; a value the page found under its
    own key is never removed, and what the program writes there is the
    base64 text of a credential identifier. *)
Theorem storage_is_written_at_one_key e storage es sys :
  steps es (initialSystem e storage) = Some sys ->
  let w := sys_world sys in
  (forall key,
      key <> CREDENTIAL_STORAGE_KEY ->
      localStorage w !! key = storage !! key) /\
  (localStorage w !! CREDENTIAL_STORAGE_KEY
   = storage !! CREDENTIAL_STORAGE_KEY \/
   exists id,
     localStorage w !! CREDENTIAL_STORAGE_KEY
     = Some (uint8ArrayToBase64 id)) /\
  (storage !! CREDENTIAL_STORAGE_KEY <> None ->
   localStorage w !! CREDENTIAL_STORAGE_KEY <> None).
Proof.
  intros Hsteps. cbv zeta.
  assert (Hk : system_keeps (storage_kept storage) sys).
  { refine (steps_keeps (storage_kept storage)
              (handler_keeps_storage storage) (toggle_keeps_storage storage)
              (timer_keeps_storage storage) es _ _ _ Hsteps).
    split; [|constructor].
    split; [reflexivity | left; reflexivity]. }
  destruct Hk as [[Hother Hown] _].
  split; [exact Hother|]. split; [exact Hown|].
  intros Hsome. destruct Hown as [-> | (id & ->)];
    [exact Hsome | discriminate].
Qed.

Lemma storage_is_written_at_one_key_witness :
  match steps authenticateThenAwaitCamera registeredSystem with
  | Some sys =>
      localStorage (sys_world sys) !! CREDENTIAL_STORAGE_KEY <> None
  | None => False
  end.
Proof.
  assert (Hsome : option_map (fun sys => isAuthenticated (sys_world sys))
                    (steps authenticateThenAwaitCamera registeredSystem)
                  = Some true) by (vm_compute; reflexivity).
  destruct (steps authenticateThenAwaitCamera registeredSystem)
    as [sys|] eqn:E; [|discriminate Hsome].
  destruct (storage_is_written_at_one_key fullEnv
              {[ CREDENTIAL_STORAGE_KEY := "AQI=" ]}
              authenticateThenAwaitCamera sys E)
    as (_ & _ & H).
  apply H. rewrite lookup_singleton_eq. discriminate.
Defined.

(** X18.  The camera button leaves the biometric side alone: whatever the
    platform answers, a click on it changes neither the busy flag nor
    [isAuthenticated], nor the biometric button, the store, the pending
    timers or the console.  Stopping the camera does not end an
    authentication, and does not cancel a preview timer that is pending. *)
Theorem camera_button_leaves_biometrics_alone (a : Answers) w :
  let w' := fst (run (alone a) (toggleCamera w)) in
  isAuthenticating w' = isAuthenticating w /\
  isAuthenticated w' = isAuthenticated w /\
  webauthnButton (dom w') = webauthnButton (dom w) /\
  localStorage w' = localStorage w /\
  timers w' = timers w /\
  console w' = console w.
Proof.
  cbv zeta. unfold toggleCamera. destruct (isCameraActive w).
  - cbn. unfold handleStopCamera. cbv zeta. open_stopCamera. repeat split.
  - unfold startCamera. cbn. camera_cases Hcok Hcko.
    + destruct (a (GetUserMedia cameraConstraints)) as [s | n m];
        [rewrite Hcok | rewrite Hcko]; cbn;
        try open_showError; repeat split.
    + repeat split.
Qed.
